(** * Trading bot: credential codec, wallet store and trade conversation

    A shallow embedding of [src/index.js].  The chat transport, the
    document store, the trading provider and Node's runtime library are
    external: their answers are read from a [World] of oracles, and every
    call the bot makes to them is appended to a trace, so that statements
    such as "no wallet is created" or "a trade is submitted" are
    statements about that trace. *)

From Stdlib Require Import ZArith NArith QArith Qpower List String Ascii Bool Lia Btauto.
From Stdlib Require Strings.Byte.
From stdpp Require Import base option gmap.
Import ListNotations.

#[local] Open Scope string_scope.
#[local] Open Scope Z_scope.
#[local] Open Scope list_scope.

(** ** JavaScript values the bot handles *)

Module Js.

(** A JavaScript string is a sequence of UTF-16 code units, each below
    [65536]; a [Buffer] is a sequence of bytes, a byte being an [ascii],
    that is eight bits, least significant first. *)
Definition code_units := list N.
#[warnings="-notation-for-abbreviation"]
Notation str := (list N) (only parsing).
#[warnings="-notation-for-abbreviation"]
Notation bytes := (list ascii) (only parsing).

Definition byte_of (n : N) : ascii := ascii_of_N n.

Definition replacement : N := 0xFFFD.

Definition is_high_surrogate (u : N) : bool := ((0xD800 <=? u) && (u <=? 0xDBFF))%N.
Definition is_low_surrogate (u : N) : bool := ((0xDC00 <=? u) && (u <=? 0xDFFF))%N.

(** The code point a surrogate pair stands for. *)
Definition pair_scalar (hi lo : N) : N :=
  (0x10000 + (hi - 0xD800) * 1024 + (lo - 0xDC00))%N.

(** A code point as code units: itself in the basic plane, a surrogate
    pair above it. *)
Definition units_of_scalar (c : N) : str :=
  if (c <? 0x10000)%N then [c]
  else [(0xD800 + (c - 0x10000) / 1024)%N; (0xDC00 + (c - 0x10000) mod 1024)%N].

(** The UTF-8 form of a code point: one to four bytes. *)
Definition utf8_of_scalar (c : N) : bytes :=
  if (c <? 0x80)%N then [byte_of c]
  else if (c <? 0x800)%N then
    [byte_of (0xC0 + c / 64); byte_of (0x80 + c mod 64)]
  else if (c <? 0x10000)%N then
    [byte_of (0xE0 + c / 4096); byte_of (0x80 + (c / 64) mod 64);
     byte_of (0x80 + c mod 64)]
  else
    [byte_of (0xF0 + c / 262144); byte_of (0x80 + (c / 4096) mod 64);
     byte_of (0x80 + (c / 64) mod 64); byte_of (0x80 + c mod 64)].

(** Encoding a string as UTF-8, as [Buffer.from(s, "utf8")] and
    [cipher.update(s, "utf8")] do: a surrogate pair becomes the four bytes
    of its code point, and a surrogate that is not part of a pair becomes
    the three bytes of U+FFFD. *)
Fixpoint utf8_encode (s : str) : bytes :=
  match s with
  | [] => []
  | u :: s' =>
      if is_high_surrogate u then
        match s' with
        | v :: s'' =>
            if is_low_surrogate v
            then utf8_of_scalar (pair_scalar u v) ++ utf8_encode s''
            else utf8_of_scalar replacement ++ utf8_encode s'
        | [] => utf8_of_scalar replacement
        end
      else if is_low_surrogate u then utf8_of_scalar replacement ++ utf8_encode s'
      else utf8_of_scalar u ++ utf8_encode s'
  end.

(** A string is well formed when every code unit is below [65536] and
    every surrogate is part of a pair. *)
Fixpoint is_well_formed (s : str) : bool :=
  match s with
  | [] => true
  | u :: s' =>
      if is_high_surrogate u then
        match s' with
        | v :: s'' => is_low_surrogate v && is_well_formed s''
        | [] => false
        end
      else negb (is_low_surrogate u) && (u <? 0x10000)%N && is_well_formed s'
  end.

(** [b] is a byte between [lo] and [hi]. *)
Definition between (lo hi : N) (b : ascii) : bool :=
  ((lo <=? N_of_ascii b) && (N_of_ascii b <=? hi))%N.

Definition low6 (b : ascii) : N := (N_of_ascii b - 0x80)%N.

(** Decoding UTF-8 as Node does when it builds a string from bytes
    ([buf.toString("utf8")], [decipher.update(_, _, "utf8")]): the decoder
    of the Encoding Standard.  Only shortest forms of code points up to
    U+10FFFF that are no surrogates are accepted; a byte that cannot start
    or continue a sequence ends the sequence read so far, which becomes one
    U+FFFD, and is read again as a first byte; so does the end of the
    input. *)
Fixpoint utf8_decode (l : bytes) : str :=
  match l with
  | [] => []
  | b0 :: r0 =>
      let n0 := N_of_ascii b0 in
      if (n0 <? 0x80)%N then n0 :: utf8_decode r0
      else if between 0xC2 0xDF b0 then
        match r0 with
        | [] => [replacement]
        | b1 :: r1 =>
            if between 0x80 0xBF b1
            then ((n0 - 0xC0) * 64 + low6 b1)%N :: utf8_decode r1
            else replacement :: utf8_decode r0
        end
      else if between 0xE0 0xEF b0 then
        match r0 with
        | [] => [replacement]
        | b1 :: r1 =>
            if between (if (n0 =? 0xE0)%N then 0xA0 else 0x80)
                       (if (n0 =? 0xED)%N then 0x9F else 0xBF) b1
            then
              match r1 with
              | [] => [replacement]
              | b2 :: r2 =>
                  if between 0x80 0xBF b2
                  then ((n0 - 0xE0) * 4096 + low6 b1 * 64 + low6 b2)%N
                       :: utf8_decode r2
                  else replacement :: utf8_decode r1
              end
            else replacement :: utf8_decode r0
        end
      else if between 0xF0 0xF4 b0 then
        match r0 with
        | [] => [replacement]
        | b1 :: r1 =>
            if between (if (n0 =? 0xF0)%N then 0x90 else 0x80)
                       (if (n0 =? 0xF4)%N then 0x8F else 0xBF) b1
            then
              match r1 with
              | [] => [replacement]
              | b2 :: r2 =>
                  if between 0x80 0xBF b2 then
                    match r2 with
                    | [] => [replacement]
                    | b3 :: r3 =>
                        if between 0x80 0xBF b3
                        then units_of_scalar
                               ((n0 - 0xF0) * 262144 + low6 b1 * 4096
                                + low6 b2 * 64 + low6 b3)%N
                             ++ utf8_decode r3
                        else replacement :: utf8_decode r2
                    end
                  else replacement :: utf8_decode r1
              end
            else replacement :: utf8_decode r0
        end
      else replacement :: utf8_decode r0
  end.

(** A code point that UTF-8 encodes: up to U+10FFFF and no surrogate. *)
Definition is_scalar (c : N) : Prop :=
  (c < 0x110000)%N /\ is_high_surrogate c = false /\ is_low_surrogate c = false.

(** What the decoder does with the first byte and those after it. *)
Inductive decoded : bytes -> str -> Prop :=
| decoded_1 b r :
    (N_of_ascii b < 0x80)%N ->
    decoded (b :: r) (N_of_ascii b :: utf8_decode r)
| decoded_2 b0 b1 r :
    (0xC2 <= N_of_ascii b0 <= 0xDF)%N -> (0x80 <= N_of_ascii b1 <= 0xBF)%N ->
    decoded (b0 :: b1 :: r)
      (((N_of_ascii b0 - 0xC0) * 64 + low6 b1)%N :: utf8_decode r)
| decoded_3 b0 b1 b2 r :
    (0xE0 <= N_of_ascii b0 <= 0xEF)%N ->
    ((if (N_of_ascii b0 =? 0xE0)%N then 0xA0 else 0x80) <= N_of_ascii b1
     <= (if (N_of_ascii b0 =? 0xED)%N then 0x9F else 0xBF))%N ->
    (0x80 <= N_of_ascii b2 <= 0xBF)%N ->
    decoded (b0 :: b1 :: b2 :: r)
      (((N_of_ascii b0 - 0xE0) * 4096 + low6 b1 * 64 + low6 b2)%N :: utf8_decode r)
| decoded_4 b0 b1 b2 b3 r :
    (0xF0 <= N_of_ascii b0 <= 0xF4)%N ->
    ((if (N_of_ascii b0 =? 0xF0)%N then 0x90 else 0x80) <= N_of_ascii b1
     <= (if (N_of_ascii b0 =? 0xF4)%N then 0x8F else 0xBF))%N ->
    (0x80 <= N_of_ascii b2 <= 0xBF)%N ->
    (0x80 <= N_of_ascii b3 <= 0xBF)%N ->
    decoded (b0 :: b1 :: b2 :: b3 :: r)
      (units_of_scalar ((N_of_ascii b0 - 0xF0) * 262144 + low6 b1 * 4096
                        + low6 b2 * 64 + low6 b3)%N
       ++ utf8_decode r)
| decoded_replaced l tail : decoded l (replacement :: tail).

(** String literals are written as text and read as the code units of
    that text. *)
Inductive literal := lit_nil | lit_cons (u : N) (s : literal).

Fixpoint literal_of (s : str) : literal :=
  match s with
  | [] => lit_nil
  | u :: s' => lit_cons u (literal_of s')
  end.

Fixpoint units_of (s : literal) : str :=
  match s with
  | lit_nil => []
  | lit_cons u s' => u :: units_of s'
  end.

Definition read_literal (l : list Byte.byte) : literal :=
  literal_of (utf8_decode (map ascii_of_byte l)).

Definition show_literal (s : literal) : list Byte.byte :=
  map byte_of_ascii (utf8_encode (units_of s)).

Declare Scope js_scope.
Delimit Scope js_scope with js.
#[warnings="-via-type-mismatch,-via-type-remapping"]
String Notation code_units read_literal show_literal
  (via literal mapping [[nil] => lit_nil, [cons] => lit_cons]) : js_scope.
#[local] Open Scope js_scope.

Fixpoint eqb (a b : str) : bool :=
  match a, b with
  | [], [] => true
  | x :: a', y :: b' => N.eqb x y && eqb a' b'
  | _, _ => false
  end.

(** An error object, as far as the code inspects it: [error.name] and
    [error.status] (line 104). *)
Record Err := mkErr { err_name : str; err_status : option Z }.

Inductive res (A : Type) : Type :=
| Ok (a : A)
| Throw (e : Err).
Arguments Ok {A} a.
Arguments Throw {A} e.

Definition is_ok {A} (r : res A) : bool :=
  match r with Ok _ => true | Throw _ => false end.

(** [String.prototype.toLowerCase] on a string of ASCII code units: the
    letters [A] to [Z] become [a] to [z] and nothing else changes. *)
Definition lower_ascii (u : N) : N :=
  if ((65 <=? u) && (u <=? 90))%N then (u + 32)%N else u.

Definition is_ascii (s : str) : bool := forallb (fun u => (u <? 128)%N) s.

(** Truthiness of a string-valued property that may be absent. *)
Definition truthy_str (o : option str) : bool :=
  match o with
  | Some s => negb (eqb s "")
  | None => false
  end.

Definition truthy_flag (o : option bool) : bool :=
  match o with Some b => b | None => false end.

End Js.
Export Js.
#[local] Open Scope js_scope.
#[local] Open Scope Z_scope.
#[local] Open Scope list_scope.

(** ** decimal.js values

    A [Decimal] is NaN, a signed infinity, or [coef * 10 ^ exp] with
    unbounded integers: no binary rounding takes place anywhere. *)

Module Dec.

Inductive Decimal :=
| DNaN
| DInf (neg : bool)
| DFin (coef : Z) (exp : Z).

Definition isNaN (d : Decimal) : bool :=
  match d with DNaN => true | _ => false end.

(** Both coefficients brought to the smaller exponent. *)
Definition align (c1 e1 c2 e2 : Z) : Z * Z :=
  let m := Z.min e1 e2 in
  (c1 * 10 ^ (e1 - m), c2 * 10 ^ (e2 - m)).

(** [x.greaterThan(y)], that is [x.cmp(y) > 0]; a comparison with NaN
    yields NaN, which is not [> 0]. *)
Definition greaterThan (x y : Decimal) : bool :=
  match x, y with
  | DNaN, _ | _, DNaN => false
  | DInf nx, DInf ny => negb nx && ny
  | DInf nx, DFin _ _ => negb nx
  | DFin _ _, DInf ny => ny
  | DFin c1 e1, DFin c2 e2 =>
      let '(a, b) := align c1 e1 c2 e2 in b <? a
  end.

Definition isNegative (d : Decimal) : bool :=
  match d with
  | DNaN => false
  | DInf neg => neg
  | DFin c _ => c <? 0
  end.

(** The rational number a finite decimal denotes. *)
Definition to_Q (c e : Z) : Q := (inject_Z c * (10 # 1) ^ e)%Q.

End Dec.
Export Dec.

(** ** Buffers and their hex encoding *)

Module Hex.

(** The code unit of a hex digit, lower case. *)
Definition hex_digit (n : N) : N :=
  if (n <? 10)%N then (48 + n)%N else (87 + n)%N.

Definition hex_value (u : N) : option N :=
  if ((48 <=? u) && (u <=? 57))%N then Some (u - 48)%N
  else if ((97 <=? u) && (u <=? 102))%N then Some (u - 87)%N
  else if ((65 <=? u) && (u <=? 70))%N then Some (u - 55)%N
  else None.

(** [buf.toString("hex")]. *)
Fixpoint hex_encode (l : bytes) : str :=
  match l with
  | [] => []
  | c :: l' =>
      let n := N_of_ascii c in
      hex_digit (n / 16) :: hex_digit (n mod 16) :: hex_encode l'
  end.

(** [Buffer.from(s, "hex")]: decoding stops, without an error, at the
    first pair that is not two hex digits; a trailing single character is
    dropped. *)
Fixpoint hex_decode (s : str) : bytes :=
  match s with
  | h :: l :: s' =>
      match hex_value h, hex_value l with
      | Some a, Some b => byte_of (16 * a + b) :: hex_decode s'
      | _, _ => []
      end
  | _ => []
  end.

End Hex.
Export Hex.

(** ** AES-256 (FIPS 197), the block cipher behind ["aes-256-cbc"] *)

Module Aes.

Definition zero_byte : ascii := Ascii false false false false false false false false.

Definition bxor (a b : ascii) : ascii :=
  match a, b with
  | Ascii a0 a1 a2 a3 a4 a5 a6 a7, Ascii b0 b1 b2 b3 b4 b5 b6 b7 =>
      Ascii (xorb a0 b0) (xorb a1 b1) (xorb a2 b2) (xorb a3 b3)
            (xorb a4 b4) (xorb a5 b5) (xorb a6 b6) (xorb a7 b7)
  end.

(** Multiplication by x in GF(2^8) modulo x^8 + x^4 + x^3 + x + 1. *)
Definition xtime (a : ascii) : ascii :=
  match a with
  | Ascii b0 b1 b2 b3 b4 b5 b6 b7 =>
      Ascii b7 (xorb b0 b7) b1 (xorb b2 b7) (xorb b3 b7) b4 b5 b6
  end.

Definition scale (b : bool) (a : ascii) : ascii := if b then a else zero_byte.

Definition gmul (a b : ascii) : ascii :=
  match b with
  | Ascii b0 b1 b2 b3 b4 b5 b6 b7 =>
      let a1 := xtime a in let a2 := xtime a1 in let a3 := xtime a2 in
      let a4 := xtime a3 in let a5 := xtime a4 in let a6 := xtime a5 in
      let a7 := xtime a6 in
      bxor (scale b0 a) (bxor (scale b1 a1) (bxor (scale b2 a2) (bxor (scale b3 a3)
        (bxor (scale b4 a4) (bxor (scale b5 a5) (bxor (scale b6 a6) (scale b7 a7)))))))
  end.

Definition gsquare (a : ascii) : ascii := gmul a a.

(** The multiplicative inverse, [a ^ 254], with [0] sent to [0]. *)
Definition ginv (a : ascii) : ascii :=
  let a2 := gsquare a in let a4 := gsquare a2 in let a8 := gsquare a4 in
  let a16 := gsquare a8 in let a32 := gsquare a16 in let a64 := gsquare a32 in
  let a128 := gsquare a64 in
  gmul a128 (gmul a64 (gmul a32 (gmul a16 (gmul a8 (gmul a4 a2))))).

Definition rotl1 (a : ascii) : ascii :=
  match a with
  | Ascii b0 b1 b2 b3 b4 b5 b6 b7 => Ascii b7 b0 b1 b2 b3 b4 b5 b6
  end.

Definition sbox_calc (a : ascii) : ascii :=
  let b := ginv a in
  let b1 := rotl1 b in let b2 := rotl1 b1 in let b3 := rotl1 b2 in let b4 := rotl1 b3 in
  bxor b (bxor b1 (bxor b2 (bxor b3 (bxor b4 (ascii_of_N 99))))).

Definition all_bytes : list ascii :=
  Eval vm_compute in map (fun n => ascii_of_nat n) (seq 0 256).

Definition sbox_table : list ascii := Eval vm_compute in map sbox_calc all_bytes.

Definition find_preimage (y : ascii) : ascii :=
  match find (fun x => Ascii.eqb (sbox_calc x) y) all_bytes with
  | Some x => x
  | None => zero_byte
  end.

Definition inv_sbox_table : list ascii := Eval vm_compute in map find_preimage all_bytes.

Definition sbox (a : ascii) : ascii := nth (nat_of_ascii a) sbox_table zero_byte.
Definition inv_sbox (a : ascii) : ascii := nth (nat_of_ascii a) inv_sbox_table zero_byte.

Definition block := list ascii.

Fixpoint xor_bytes (s k : list ascii) : list ascii :=
  match s, k with
  | a :: s', b :: k' => bxor a b :: xor_bytes s' k'
  | _, _ => s
  end.

Definition sub_bytes (s : block) : block := map sbox s.
Definition inv_sub_bytes (s : block) : block := map inv_sbox s.

(** The state is kept in input order, column after column: byte
    [r + 4 c] is row [r] of column [c]. Row [r] is rotated by [r]. *)
Definition shift_rows (s : block) : block :=
  match s with
  | [s0; s1; s2; s3; s4; s5; s6; s7; s8; s9; s10; s11; s12; s13; s14; s15] =>
      [s0; s5; s10; s15; s4; s9; s14; s3; s8; s13; s2; s7; s12; s1; s6; s11]
  | _ => s
  end.

Definition inv_shift_rows (s : block) : block :=
  match s with
  | [s0; s1; s2; s3; s4; s5; s6; s7; s8; s9; s10; s11; s12; s13; s14; s15] =>
      [s0; s13; s10; s7; s4; s1; s14; s11; s8; s5; s2; s15; s12; s9; s6; s3]
  | _ => s
  end.

Definition mul2 := xtime.
Definition mul3 (a : ascii) := bxor (xtime a) a.
Definition mul9 (a : ascii) := bxor (xtime (xtime (xtime a))) a.
Definition mul11 (a : ascii) := bxor (xtime (xtime (xtime a))) (bxor (xtime a) a).
Definition mul13 (a : ascii) := bxor (xtime (xtime (xtime a))) (bxor (xtime (xtime a)) a).
Definition mul14 (a : ascii) :=
  bxor (xtime (xtime (xtime a))) (bxor (xtime (xtime a)) (xtime a)).

Definition mix_column (a0 a1 a2 a3 : ascii) : list ascii :=
  [ bxor (mul2 a0) (bxor (mul3 a1) (bxor a2 a3));
    bxor a0 (bxor (mul2 a1) (bxor (mul3 a2) a3));
    bxor a0 (bxor a1 (bxor (mul2 a2) (mul3 a3)));
    bxor (mul3 a0) (bxor a1 (bxor a2 (mul2 a3))) ].

Definition inv_mix_column (a0 a1 a2 a3 : ascii) : list ascii :=
  [ bxor (mul14 a0) (bxor (mul11 a1) (bxor (mul13 a2) (mul9 a3)));
    bxor (mul9 a0) (bxor (mul14 a1) (bxor (mul11 a2) (mul13 a3)));
    bxor (mul13 a0) (bxor (mul9 a1) (bxor (mul14 a2) (mul11 a3)));
    bxor (mul11 a0) (bxor (mul13 a1) (bxor (mul9 a2) (mul14 a3))) ].

Definition mix_columns (s : block) : block :=
  match s with
  | [s0; s1; s2; s3; s4; s5; s6; s7; s8; s9; s10; s11; s12; s13; s14; s15] =>
      mix_column s0 s1 s2 s3 ++ mix_column s4 s5 s6 s7
        ++ mix_column s8 s9 s10 s11 ++ mix_column s12 s13 s14 s15
  | _ => s
  end.

Definition inv_mix_columns (s : block) : block :=
  match s with
  | [s0; s1; s2; s3; s4; s5; s6; s7; s8; s9; s10; s11; s12; s13; s14; s15] =>
      inv_mix_column s0 s1 s2 s3 ++ inv_mix_column s4 s5 s6 s7
        ++ inv_mix_column s8 s9 s10 s11 ++ inv_mix_column s12 s13 s14 s15
  | _ => s
  end.

(** Key expansion for a 256-bit key: 8 key words grow to 60. *)
Definition word := list ascii.

Definition rot_word (w : word) : word :=
  match w with
  | [a; b; c; d] => [b; c; d; a]
  | _ => w
  end.

Definition sub_word (w : word) : word := map sbox w.

Fixpoint xtime_iter (n : nat) (a : ascii) : ascii :=
  match n with
  | O => a
  | S n' => xtime (xtime_iter n' a)
  end.

Definition rcon (j : nat) : word :=
  [xtime_iter (j - 1) (ascii_of_N 1); zero_byte; zero_byte; zero_byte].

Definition next_word (ws : list word) : word :=
  let i := length ws in
  let prev := nth (i - 1) ws [] in
  let old := nth (i - 8) ws [] in
  let temp :=
    if Nat.eqb (i mod 8) 0 then xor_bytes (sub_word (rot_word prev)) (rcon (i / 8))
    else if Nat.eqb (i mod 8) 4 then sub_word prev
    else prev in
  xor_bytes old temp.

Fixpoint expand (n : nat) (ws : list word) : list word :=
  match n with
  | O => ws
  | S n' => expand n' (ws ++ [next_word ws])
  end.

Fixpoint chunks4 (l : list ascii) : list word :=
  match l with
  | a :: b :: c :: d :: l' => [a; b; c; d] :: chunks4 l'
  | _ => []
  end.

Fixpoint round_keys_of (ws : list word) : list block :=
  match ws with
  | w0 :: w1 :: w2 :: w3 :: ws' => (w0 ++ w1 ++ w2 ++ w3) :: round_keys_of ws'
  | _ => []
  end.

(** The 15 round keys of a 32-byte key. *)
Definition key_schedule (key : list ascii) : list block :=
  round_keys_of (expand 52 (chunks4 key)).

Definition add_round_key (rk s : block) : block := xor_bytes s rk.

Definition round (rk s : block) : block :=
  add_round_key rk (mix_columns (shift_rows (sub_bytes s))).

Definition final_round (rk s : block) : block :=
  add_round_key rk (shift_rows (sub_bytes s)).

Definition inv_round (rk s : block) : block :=
  inv_sub_bytes (inv_shift_rows (inv_mix_columns (add_round_key rk s))).

Definition inv_final_round (rk s : block) : block :=
  inv_sub_bytes (inv_shift_rows (add_round_key rk s)).

Fixpoint rounds (rks : list block) (s : block) : block :=
  match rks with
  | [] => s
  | [kl] => final_round kl s
  | k :: rks' => rounds rks' (round k s)
  end.

Fixpoint inv_rounds (rks : list block) (s : block) : block :=
  match rks with
  | [] => s
  | [kl] => inv_final_round kl s
  | k :: rks' => inv_round k (inv_rounds rks' s)
  end.

Definition cipher (rks : list block) (s : block) : block :=
  match rks with
  | [] => s
  | k0 :: rks' => rounds rks' (add_round_key k0 s)
  end.

Definition inv_cipher (rks : list block) (s : block) : block :=
  match rks with
  | [] => s
  | k0 :: rks' => add_round_key k0 (inv_rounds rks' s)
  end.

Definition encrypt_block (key : list ascii) (b : block) : block :=
  cipher (key_schedule key) b.

Definition decrypt_block (key : list ascii) (b : block) : block :=
  inv_cipher (key_schedule key) b.

End Aes.

(** ** Secret codec: [encrypt] and [decrypt] (lines 344-354) *)

Module Codec.

(** Errors of Node's [crypto] and [Buffer]: plain [Error], [TypeError]
    and [RangeError] objects; none has a [status] property. *)
Definition err_type : Err := mkErr "TypeError" None.
Definition err_range : Err := mkErr "RangeError" None.
Definition err_decrypt : Err := mkErr "Error" None.

(** [Buffer.from(process.env.ENCRYPTION_KEY, "hex")], which throws a
    [TypeError] for an absent variable, followed by
    [crypto.createCipheriv("aes-256-cbc", key, iv)], which first refuses
    an IV that is not 16 bytes ([TypeError], invalid initialization
    vector) and then a key that is not 32 bytes ([RangeError], invalid key
    length). *)
Definition cipher_init (env_key : option str) (iv : bytes) : res bytes :=
  match env_key with
  | None => Throw err_type
  | Some k =>
      let key := hex_decode k in
      if negb (Nat.eqb (length iv) 16) then Throw err_type
      else if negb (Nat.eqb (length key) 32) then Throw err_range
      else Ok key
  end.

(** PKCS#7 padding: between 1 and 16 bytes, each equal to their number. *)
Definition pkcs7_pad (p : bytes) : bytes :=
  let n := (16 - length p mod 16)%nat in
  p ++ repeat (ascii_of_nat n) n.

Definition pkcs7_unpad (p : bytes) : option bytes :=
  match rev p with
  | [] => None
  | c :: _ =>
      let n := nat_of_ascii c in
      if (Nat.leb 1 n && Nat.leb n 16 && Nat.leb n (length p))%bool then
        if forallb (Ascii.eqb c) (skipn (length p - n) p)
        then Some (firstn (length p - n) p)
        else None
      else None
  end.

(** Sixteen-byte blocks; a shorter remainder is kept as a last block. *)
Fixpoint split16 (l : bytes) : list Aes.block :=
  match l with
  | [] => []
  | a0 :: a1 :: a2 :: a3 :: a4 :: a5 :: a6 :: a7 :: a8 :: a9 :: a10 :: a11
       :: a12 :: a13 :: a14 :: a15 :: l' =>
      [a0; a1; a2; a3; a4; a5; a6; a7; a8; a9; a10; a11; a12; a13; a14; a15]
        :: split16 l'
  | _ => [l]
  end.

(** Cipher block chaining over a block cipher [E] with inverse [D]. *)
Fixpoint cbc_enc (E : Aes.block -> Aes.block) (prev : Aes.block)
    (bs : list Aes.block) : list Aes.block :=
  match bs with
  | [] => []
  | b :: bs' => let c := E (Aes.xor_bytes b prev) in c :: cbc_enc E c bs'
  end.

Fixpoint cbc_dec (D : Aes.block -> Aes.block) (prev : Aes.block)
    (cs : list Aes.block) : list Aes.block :=
  match cs with
  | [] => []
  | c :: cs' => Aes.xor_bytes (D c) prev :: cbc_dec D c cs'
  end.

Definition encrypt_bytes (key iv pt : bytes) : bytes :=
  concat (cbc_enc (Aes.encrypt_block key) iv (split16 (pkcs7_pad pt))).

(** [decipher.final] fails when the data is empty or not a whole number
    of blocks, and when the padding of the last block is not well formed. *)
Definition decrypt_bytes (key iv ct : bytes) : option bytes :=
  if (Nat.eqb (length ct) 0 || negb (Nat.eqb (length ct mod 16) 0))%bool then None
  else pkcs7_unpad (concat (cbc_dec (Aes.decrypt_block key) iv (split16 ct))).

(** [encrypt(text, iv)]: the text is encoded as UTF-8, the result is
    hex. *)
Definition encrypt (env_key : option str) (text : str) (iv : bytes) : res str :=
  match cipher_init env_key iv with
  | Throw e => Throw e
  | Ok key => Ok (hex_encode (encrypt_bytes key iv (utf8_encode text)))
  end.

(** [decrypt(encrypted, iv)]: [decipher.update(encrypted, "hex", "utf8")]
    throws a [TypeError] for a string of odd length and otherwise reads
    the hex digits up to the first pair that is not hex; the bytes that
    come out of the cipher are decoded as UTF-8. *)
Definition decrypt (env_key : option str) (encrypted : str) (iv : bytes)
    : res str :=
  match cipher_init env_key iv with
  | Throw e => Throw e
  | Ok key =>
      if Nat.odd (length encrypted) then Throw err_type
      else
        match decrypt_bytes key iv (hex_decode encrypted) with
        | Some pt => Ok (utf8_decode pt)
        | None => Throw err_decrypt
        end
  end.

End Codec.

(** ** The bot: data, the outside world, and the effect monad *)

Module Bot.

Record Address := mkAddress { addr_id : str }.
Record WalletData := mkWalletData { walletId : str; seed : str }.
(** A provider wallet: what [wallet.export()] and
    [wallet.getDefaultAddress()] return. *)
Record Wallet := mkWallet { w_export : WalletData; w_default : Address }.
Record Trade := mkTrade { tx_link : str }.
Record BalanceMap := mkBalanceMap { bm_size : nat; bm_toString : str }.

(** A stored credential document; its [_id] is the key it is stored under. *)
Record DbDoc := mkDoc { ivString : str; encryptedWalletData : str }.

(** A per-user state object; [None] is an absent property.  The same
    type serves for the partial objects handed to [updateUserState]. *)
Record UState := mkUState {
  buyRequested : option bool;
  sellRequested : option bool;
  step : option str;
  asset : option str;
  address : option Address;
  lastMessageId : option Z
}.

Definition empty_state : UState := mkUState None None None None None None.

Definition over {A} (new cur : option A) : option A :=
  match new with Some _ => new | None => cur end.

(** [{ ...currentState, ...newState }] *)
Definition spread (cur new : UState) : UState :=
  {| buyRequested := over (buyRequested new) (buyRequested cur);
     sellRequested := over (sellRequested new) (sellRequested cur);
     step := over (step new) (step cur);
     asset := over (asset new) (asset cur);
     address := over (address new) (address cur);
     lastMessageId := over (lastMessageId new) (lastMessageId cur) |}.

Inductive TradeType := buy | sell.

Definition type_name (t : TradeType) : str :=
  match t with buy => "buy" | sell => "sell" end.

(** [Coinbase.assets.Eth], a constant of the provider's SDK. *)
Definition Coinbase_assets_Eth : str := "eth".

(** Calls that leave the process, in the order they are made. *)
Inductive Event :=
| EvReply (text : str) (delivered : bool)
| EvDbGet (id : Z)
| EvDbPut (id : Z) (doc : DbDoc)
| EvWalletCreate
| EvWalletImport (data : WalletData)
| EvListBalances (a : Address)
| EvGetBalance (a : Address) (assetId : str)
| EvCreateTrade (a : Address) (amount : Decimal) (fromAssetId toAssetId : str)
| EvTradeWait (t : Trade).

(** What the outside answers.  [reply_result n text] is the outcome of
    the [n]-th call of [ctx.reply] (counted from 0 over the whole trace):
    a message id, or the transport's error. *)
Record World := mkWorld {
  process_env : gmap string str;
  reply_result : nat -> str -> res Z;
  db_get_fault : Z -> option Err;
  db_put_fault : Z -> option Err;
  randomBytes16 : bytes;
  randomBytes16_length : length randomBytes16 = 16%nat;
  JSON_stringify : WalletData -> str;
  JSON_stringify_well_formed : forall d, is_well_formed (JSON_stringify d) = true;
  JSON_parse : str -> option WalletData;
  Wallet_import : WalletData -> res Wallet;
  Wallet_create : res Wallet;
  listBalances : Address -> res BalanceMap;
  getBalance : Address -> str -> res Decimal;
  createTrade : Address -> Decimal -> str -> str -> res Trade;
  trade_wait : Trade -> res unit;
  new_Decimal : str -> res Decimal;
  unicode_toLowerCase : str -> str
}.

Definition ENCRYPTION_KEY (w : World) : option str :=
  process_env w !! "ENCRYPTION_KEY"%string.

(** [text.toLowerCase()]: on ASCII text the letters are mapped one by
    one; for a text with a code unit outside ASCII the result is the one of
    the runtime's Unicode case conversion, which may change the length and
    depend on the context of a letter. *)
Definition toLowerCase (w : World) (text : str) : str :=
  if is_ascii text then map lower_ascii text else unicode_toLowerCase w text.

(** The process: [userStates], the document store, and the trace. *)
Record Machine := mkMachine {
  userStates : gmap Z UState;
  db : gmap Z DbDoc;
  trace : list Event
}.

Definition init_machine : Machine := mkMachine ∅ ∅ [].

(** A computation may change the machine and then return or throw; what
    it changed before throwing stays changed. *)
Definition M (A : Type) : Type := Machine -> res A * Machine.

Definition ret {A} (a : A) : M A := fun m => (Ok a, m).
Definition throw {A} (e : Err) : M A := fun m => (Throw e, m).
Definition bind {A B} (c : M A) (k : A -> M B) : M B :=
  fun m => match c m with
           | (Ok a, m') => k a m'
           | (Throw e, m') => (Throw e, m')
           end.
Definition try_catch {A} (c : M A) (h : Err -> M A) : M A :=
  fun m => match c m with
           | (Ok a, m') => (Ok a, m')
           | (Throw e, m') => h e m'
           end.
Definition lift {A} (r : res A) : M A := fun m => (r, m).
Definition log (ev : Event) (m : Machine) : Machine :=
  mkMachine (userStates m) (db m) (trace m ++ [ev]).
Definition emit (ev : Event) : M unit := fun m => (Ok tt, log ev m).

Notation "x <- c ;; k" := (bind c (fun x => k))
  (at level 100, c at next level, right associativity).
Notation "c ;;; k" := (bind c (fun _ => k))
  (at level 100, right associativity).

(** *** State management (lines 40-53) *)

Definition getUserState (uid : Z) : M UState :=
  fun m => (Ok (default empty_state (userStates m !! uid)), m).

Definition updateUserState (uid : Z) (newState : UState) : M unit :=
  fun m =>
    let currentState := default empty_state (userStates m !! uid) in
    (Ok tt, mkMachine (<[uid := spread currentState newState]> (userStates m))
                      (db m) (trace m)).

Definition clearUserState (uid : Z) : M unit :=
  fun m => (Ok tt, mkMachine (delete uid (userStates m)) (db m) (trace m)).

(** *** Calls to the outside *)

Definition is_reply (ev : Event) : bool :=
  match ev with EvReply _ _ => true | _ => false end.

Definition reply_count (m : Machine) : nat := length (filter is_reply (trace m)).

(** [ctx.reply(text, ...)]; markup options are not modelled. *)
Definition ctx_reply (w : World) (text : str) : M Z :=
  fun m =>
    match reply_result w (reply_count m) text with
    | Ok id => (Ok id, log (EvReply text true) m)
    | Throw e => (Throw e, log (EvReply text false) m)
    end.

(** PouchDB's answer for a missing document. *)
Definition err_missing : Err := mkErr "not_found" (Some 404).
(** PouchDB's answer to a [put] without [_rev] on an existing document. *)
Definition err_conflict : Err := mkErr "conflict" (Some 409).

(** [db.get(user.id.toString())]; the store is keyed by the user id,
    whose decimal rendering is one-to-one. *)
Definition db_get (w : World) (uid : Z) : M DbDoc :=
  emit (EvDbGet uid) ;;;
  fun m =>
    match db_get_fault w uid with
    | Some e => (Throw e, m)
    | None =>
        match db m !! uid with
        | Some doc => (Ok doc, m)
        | None => (Throw err_missing, m)
        end
    end.

(** [db.put({ _id, ivString, encryptedWalletData })] *)
Definition db_put (w : World) (uid : Z) (doc : DbDoc) : M unit :=
  emit (EvDbPut uid doc) ;;;
  fun m =>
    match db_put_fault w uid with
    | Some e => (Throw e, m)
    | None =>
        match db m !! uid with
        | Some _ => (Throw err_conflict, m)
        | None => (Ok tt, mkMachine (userStates m) (<[uid := doc]> (db m)) (trace m))
        end
    end.

Definition call_Wallet_create (w : World) : M Wallet :=
  emit EvWalletCreate ;;; lift (Wallet_create w).

Definition call_Wallet_import (w : World) (d : WalletData) : M Wallet :=
  emit (EvWalletImport d) ;;; lift (Wallet_import w d).

Definition call_listBalances (w : World) (a : Address) : M BalanceMap :=
  emit (EvListBalances a) ;;; lift (listBalances w a).

Definition call_getBalance (w : World) (a : Address) (assetId : str) : M Decimal :=
  emit (EvGetBalance a assetId) ;;; lift (getBalance w a assetId).

Definition call_createTrade (w : World) (a : Address) (amount : Decimal)
    (fromAssetId toAssetId : str) : M Trade :=
  emit (EvCreateTrade a amount fromAssetId toAssetId) ;;;
  lift (createTrade w a amount fromAssetId toAssetId).

Definition call_wait (w : World) (t : Trade) : M unit :=
  emit (EvTradeWait t) ;;; lift (trade_wait w t).

(** [{ lastMessageId: message.message_id }] *)
Definition message_patch (message_id : Z) : UState :=
  mkUState None None None None None (Some message_id).

(** *** [sendReply] (lines 67-81); no caller passes [trackReply]. *)
Definition sendReply (w : World) (uid : Z) (text : str) : M Z :=
  try_catch
    (message_id <- ctx_reply w text ;;
     updateUserState uid (message_patch message_id) ;;;
     ret message_id)
    (fun error => throw error).

(** *** [getOrCreateAddress] (lines 84-126) *)

(** [error.name === 'not_found' || error.status === 404] *)
Definition is_not_found (error : Err) : bool :=
  (Js.eqb (err_name error) "not_found"
   || match err_status error with Some s => s =? 404 | None => false end)%bool.

(** [JSON.parse(text)]: the wallet data, or a [SyntaxError]. *)
Definition err_syntax : Err := mkErr "SyntaxError" None.

Definition call_JSON_parse (w : World) (text : str) : M WalletData :=
  match JSON_parse w text with
  | Some d => ret d
  | None => throw err_syntax
  end.

Definition load_wallet (w : World) (uid : Z) : M Wallet :=
  result <- db_get w uid ;;
  let iv := hex_decode (ivString result) in
  text <- lift (Codec.decrypt (ENCRYPTION_KEY w) (encryptedWalletData result) iv) ;;
  walletData <- call_JSON_parse w text ;;
  call_Wallet_import w walletData.

Definition create_wallet (w : World) (uid : Z) : M Wallet :=
  wallet <- call_Wallet_create w ;;
  let iv := randomBytes16 w in
  encrypted <- lift (Codec.encrypt (ENCRYPTION_KEY w)
                       (JSON_stringify w (w_export wallet)) iv) ;;
  db_put w uid (mkDoc (hex_encode iv) encrypted) ;;;
  ret wallet.

Definition getOrCreateAddress (w : World) (uid : Z) : M Address :=
  try_catch
    (cachedState <- getUserState uid ;;
     match address cachedState with
     | Some a => ret a
     | None =>
         wallet <- try_catch (load_wallet w uid)
                     (fun error =>
                        if is_not_found error then create_wallet w uid
                        else throw error) ;;
         let address := w_default wallet in
         updateUserState uid
           (mkUState None None None None (Some address) None) ;;;
         ret address
     end)
    (fun error => throw error).

(** *** Command handlers (lines 129-188) *)

(** [s.slice(11, -1)] *)
Definition slice_11_m1 (s : str) : str :=
  firstn (length s - 1 - 11) (skipn 11 s).

Definition msg_balance_error := "Error checking balance. Please try again later.".
Definition msg_deposit_error := "Error generating deposit address. Please try again later.".
Definition msg_ask_buy :=
  "Please respond with the asset you would like to buy (ticker or contract address).".
Definition msg_ask_sell :=
  "Please respond with the asset you would like to sell (ticker or contract address).".
Definition msg_cannot_sell_eth :=
  "You cannot sell ETH, as it is the quote currency. Please try again.".
Definition msg_amount_buy :=
  "Please respond with the amount of ETH you would like to spend.".
Definition msg_amount_sell :=
  "Please respond with the amount of the asset you would like to sell.".
Definition msg_insufficient :=
  "Invalid amount or insufficient balance. Please try again.".
Definition msg_initiating (t : TradeType) := "Initiating " ++ type_name t ++ "...".
Definition msg_success (t : TradeType) (link : str) :=
  "Successfully completed " ++ type_name t ++ ": [Basescan Link](" ++ link ++ ")".
Definition msg_trade_error (t : TradeType) :=
  "An error occurred while executing the " ++ type_name t ++ ". Please try again.".
Definition msg_error := "An error occurred. Please try again.".
Definition msg_handler_error :=
  "An error occurred while processing your request. Please try again.".
Definition msg_settings := "Settings menu is coming soon.".
Definition msg_default :=
  "Please select an option from the menu or type /start to see available commands.".
Definition msg_help := "
Available commands:
• Check Balance - View your current holdings
• Deposit - Get your deposit address
• Buy - Purchase cryptocurrencies
• Sell - Sell your assets
• Help - Get assistance
• Settings - Configure your preferences

Send /start to see this menu again.".

Definition handleCheckBalance (w : World) (uid : Z) : M unit :=
  try_catch
    (userAddress <- getOrCreateAddress w uid ;;
     balanceMap <- call_listBalances w userAddress ;;
     let balancesString :=
       if Nat.ltb 0 (bm_size balanceMap) then slice_11_m1 (bm_toString balanceMap)
       else "You have no balances." in
     sendReply w uid ("Your current balances are as follows:
" ++ balancesString) ;;;
     ret tt)
    (fun error => ctx_reply w msg_balance_error ;;; ret tt).

Definition handleDeposit (w : World) (uid : Z) : M unit :=
  try_catch
    (userAddress <- getOrCreateAddress w uid ;;
     sendReply w uid
       "_Note: As this is a test app, make sure to deposit only small amounts of ETH!_" ;;;
     sendReply w uid "Please send your ETH to the following address on Base:" ;;;
     sendReply w uid ("`" ++ addr_id userAddress ++ "`") ;;;
     ret tt)
    (fun error => ctx_reply w msg_deposit_error ;;; ret tt).

(** [{ buyRequested: true, step: 'asset' }] *)
Definition buy_patch : UState :=
  mkUState (Some true) None (Some "asset") None None None.

Definition handleInitialBuy (w : World) (uid : Z) : M unit :=
  updateUserState uid buy_patch ;;;
  sendReply w uid msg_ask_buy ;;;
  ret tt.

(** [{ sellRequested: true, step: 'asset' }] *)
Definition sell_patch : UState :=
  mkUState None (Some true) (Some "asset") None None None.

Definition handleInitialSell (w : World) (uid : Z) : M unit :=
  updateUserState uid sell_patch ;;;
  sendReply w uid msg_ask_sell ;;;
  ret tt.

(** *** [executeTrade] (lines 190-247) *)

Definition is_sell (t : TradeType) : bool :=
  match t with sell => true | buy => false end.

(** The asset whose balance is spent, and the two sides of the trade. *)
Definition spend_asset (t : TradeType) (a : str) : str :=
  match t with buy => Coinbase_assets_Eth | sell => a end.

Definition tradeType (t : TradeType) (a : str) : str * str :=
  match t with
  | buy => (Coinbase_assets_Eth, a)
  | sell => (a, Coinbase_assets_Eth)
  end.

Definition submit_trade (w : World) (uid : Z) (t : TradeType)
    (userAddress : Address) (amount : Decimal) (a : str) : M unit :=
  try_catch
    (trade <- call_createTrade w userAddress amount
                (fst (tradeType t a)) (snd (tradeType t a)) ;;
     call_wait w trade ;;;
     sendReply w uid (msg_success t (tx_link trade)) ;;;
     ret tt)
    (fun error => ctx_reply w (msg_trade_error t) ;;; ret tt).

Definition amount_step (w : World) (uid : Z) (text : str) (t : TradeType)
    (a : str) : M unit :=
  amount <- lift (new_Decimal w text) ;;
  userAddress <- getOrCreateAddress w uid ;;
  currentBalance <- call_getBalance w userAddress (spend_asset t a) ;;
  if (isNaN amount || greaterThan amount currentBalance)%bool then
    ctx_reply w msg_insufficient ;;;
    clearUserState uid
  else
    sendReply w uid (msg_initiating t) ;;;
    submit_trade w uid t userAddress amount a ;;;
    clearUserState uid.

(** [{ asset: ..., step: 'amount' }] *)
Definition asset_patch (asset : str) : UState :=
  mkUState None None (Some "amount") (Some asset) None None.

Definition amount_prompt (t : TradeType) : str :=
  match t with buy => msg_amount_buy | sell => msg_amount_sell end.

Definition asset_step (w : World) (uid : Z) (text : str) (t : TradeType) : M unit :=
  if (Js.eqb (toLowerCase w text) "eth" && is_sell t)%bool then
    ctx_reply w msg_cannot_sell_eth ;;;
    clearUserState uid
  else
    updateUserState uid (asset_patch (toLowerCase w text)) ;;;
    sendReply w uid (amount_prompt t) ;;;
    ret tt.

Definition executeTrade (w : World) (uid : Z) (text : str) (t : TradeType)
    (userState : UState) : M unit :=
  try_catch
    (if negb (truthy_str (asset userState)) then asset_step w uid text t
     else amount_step w uid text t (default "" (asset userState)))
    (fun error => ctx_reply w msg_error ;;; clearUserState uid).

Definition handleBuy (w : World) (uid : Z) (text : str) : M unit :=
  userState <- getUserState uid ;;
  executeTrade w uid text buy userState.

Definition handleSell (w : World) (uid : Z) (text : str) : M unit :=
  userState <- getUserState uid ;;
  executeTrade w uid text sell userState.

(** *** The text-message handler (lines 282-331)

    [text] is the text of an update that reaches [bot.on("message:text")],
    that is, one the [/start] command filter of line 250 did not take. *)

Inductive Route :=
| ToHandleBuy | ToHandleSell
| ToCheckBalance | ToDeposit | ToInitialBuy | ToInitialSell | ToHelp | ToSettings
| ToDefault.

Definition flow_active (userState : UState) : bool :=
  (truthy_flag (buyRequested userState) || truthy_flag (sellRequested userState))%bool.

(** Which branch of the handler a message takes. *)
Definition route (userState : UState) (text : str) : Route :=
  if flow_active userState then
    if truthy_flag (buyRequested userState) then ToHandleBuy else ToHandleSell
  else if Js.eqb text "Check Balance" then ToCheckBalance
  else if Js.eqb text "Deposit" then ToDeposit
  else if Js.eqb text "Buy" then ToInitialBuy
  else if Js.eqb text "Sell" then ToInitialSell
  else if Js.eqb text "Help" then ToHelp
  else if Js.eqb text "Settings" then ToSettings
  else ToDefault.

Definition run_route (w : World) (uid : Z) (text : str) (r : Route) : M unit :=
  match r with
  | ToHandleBuy => handleBuy w uid text
  | ToHandleSell => handleSell w uid text
  | ToCheckBalance => handleCheckBalance w uid
  | ToDeposit => handleDeposit w uid
  | ToInitialBuy => handleInitialBuy w uid
  | ToInitialSell => handleInitialSell w uid
  | ToHelp => ctx_reply w msg_help ;;; ret tt
  | ToSettings => ctx_reply w msg_settings ;;; ret tt
  | ToDefault => ctx_reply w msg_default ;;; ret tt
  end.

Definition on_message (w : World) (uid : Z) (text : str) : M unit :=
  userState <- getUserState uid ;;
  try_catch
    (run_route w uid text (route userState text))
    (fun error => ctx_reply w msg_handler_error ;;; clearUserState uid).

(** *** The [/start] command (lines 250-279)

    grammy hands a [/start] command to this handler and does not pass it
    on to the text handler. *)

Definition msg_welcome (id : str) : str :=
  "
Welcome to your Onchain Trading Bot!
Your Base address is `" ++ id ++ "`.

Available commands:
• Check Balance - View your current holdings
• Deposit - Get your deposit address
• Buy - Purchase cryptocurrencies
• Sell - Sell your assets
• Help - Get assistance
• Settings - Configure your preferences

Please select an option from the menu below.".

Definition msg_start_error :=
  "An error occurred while starting the bot. Please try again.".

Definition on_start (w : World) (uid : Z) : M unit :=
  try_catch
    (userAddress <- getOrCreateAddress w uid ;;
     ctx_reply w (msg_welcome (addr_id userAddress)) ;;;
     ret tt)
    (fun error => ctx_reply w msg_start_error ;;; ret tt).

(** An update as the bot's middleware sees it. *)
Inductive Update :=
| StartCommand
| TextMessage (text : str).

Definition dispatch (w : World) (uid : Z) (u : Update) : M unit :=
  match u with
  | StartCommand => on_start w uid
  | TextMessage text => on_message w uid text
  end.

(** *** Start-up (lines 11-22) *)

Definition requiredEnvVars : list string :=
  ["TELEGRAM_BOT_TOKEN"; "COINBASE_API_KEY_NAME"; "COINBASE_API_KEY_SECRET";
   "ENCRYPTION_KEY"]%string.

Definition err_missing_env (name : string) : Err :=
  mkErr "Error" None.

(** [requiredEnvVars.forEach(env => { if (!process.env[env]) throw ... })] *)
Fixpoint check_env (names : list string) (env : gmap string str) : res unit :=
  match names with
  | [] => Ok tt
  | name :: names' =>
      if negb (truthy_str (env !! name)) then Throw (err_missing_env name)
      else check_env names' env
  end.

Definition startup (env : gmap string str) : res unit :=
  check_env requiredEnvVars env.

End Bot.

(** ** A concrete world, for running the model *)

Module Demo.
Import Bot.

Definition is_digit (u : N) : bool := ((48 <=? u) && (u <=? 57))%N.

Definition digit_val (u : N) : Z := Z.of_N u - 48.

(** Digits read as an integer, continuing from [acc]; [None] on any
    other character. *)
Fixpoint read_digits (s : str) (acc : Z) : option Z :=
  match s with
  | [] => Some acc
  | u :: s' =>
      if is_digit u then read_digits s' (10 * acc + digit_val u) else None
  end.

Fixpoint split_at (sep : N) (s : str) : str * option str :=
  match s with
  | [] => ([], None)
  | u :: s' =>
      if N.eqb u sep then ([], Some s')
      else let '(a, b) := split_at sep s' in (u :: a, b)
  end.

Definition err_decimal : Err := mkErr "Error" None.

Definition full_stop : N := 46.
Definition colon : N := 58.
Definition minus_sign : N := 45.
Definition plus_sign : N := 43.

(** Plain decimal notation: digits, an optional fraction, no exponent. *)
Definition unsigned_decimal (s : str) : res Decimal :=
  let '(ip, fp) := split_at full_stop s in
  let fp := default [] fp in
  if Nat.eqb (length ip + length fp) 0 then Throw err_decimal
  else
    match read_digits (ip ++ fp) 0 with
    | Some c => Ok (DFin c (- Z.of_nat (length fp)))
    | None => Throw err_decimal
    end.

Definition negate (r : res Decimal) : res Decimal :=
  match r with
  | Ok (DFin c e) => Ok (DFin (- c) e)
  | Ok (DInf n) => Ok (DInf (negb n))
  | other => other
  end.

(** A reading of [new Decimal(text)] for the notations used below:
    ["NaN"], and signed plain decimals. *)
Definition demo_Decimal (s : str) : res Decimal :=
  if Js.eqb s "NaN" then Ok DNaN
  else match s with
       | u :: s' =>
           if N.eqb u minus_sign then negate (unsigned_decimal s')
           else if N.eqb u plus_sign then unsigned_decimal s'
           else unsigned_decimal s
       | [] => unsigned_decimal s
       end.

(** A stand-in for [JSON.stringify] and [JSON.parse] on wallet data: the
    two fields with a colon between them.  Like [JSON.stringify], it
    returns well-formed text only. *)
Definition demo_text (d : WalletData) : str :=
  walletId d ++ [colon] ++ seed d.

Definition demo_stringify (d : WalletData) : str :=
  if is_well_formed (demo_text d) then demo_text d else "{}".

Definition demo_stringify_well_formed (d : WalletData)
    : is_well_formed (demo_stringify d) = true :=
  match is_well_formed (demo_text d) as b
    return is_well_formed (demo_text d) = b ->
           is_well_formed (if b then demo_text d else "{}") = true
  with
  | true => fun e => e
  | false => fun _ => eq_refl
  end eq_refl.

Definition demo_parse (s : str) : option WalletData :=
  match split_at colon s with
  | (a, Some b) => Some (mkWalletData a b)
  | (_, None) => None
  end.

Definition demo_key : str :=
  "603deb1015ca71be2b73aef0857d77811f352c073b6108d72d9810a30914dff4".

Definition demo_env : gmap string str :=
  <["TELEGRAM_BOT_TOKEN"%string := "token"]>
  (<["COINBASE_API_KEY_NAME"%string := "name"]>
  (<["COINBASE_API_KEY_SECRET"%string := "secret"]>
  (<["ENCRYPTION_KEY"%string := demo_key]> ∅))).

Definition demo_wallet : Wallet :=
  mkWallet (mkWalletData "wallet-1" "5eed") (mkAddress "0xabc").

Definition demo_iv : bytes := hex_decode "000102030405060708090a0b0c0d0e0f".

(** A world in which every call succeeds and the user holds [eth_balance]
    of every asset. *)
Definition demo_world (eth_balance : Decimal) : World :=
  {| process_env := demo_env;
     reply_result := fun n _ => Ok (Z.of_nat n);
     db_get_fault := fun _ => None;
     db_put_fault := fun _ => None;
     randomBytes16 := demo_iv;
     randomBytes16_length := eq_refl;
     JSON_stringify := demo_stringify;
     JSON_stringify_well_formed := demo_stringify_well_formed;
     JSON_parse := demo_parse;
     Wallet_import := fun d => Ok (mkWallet d (mkAddress "0xabc"));
     Wallet_create := Ok demo_wallet;
     listBalances := fun _ => Ok (mkBalanceMap 0 "");
     getBalance := fun _ _ => Ok eth_balance;
     createTrade := fun _ _ _ _ => Ok (mkTrade "https://basescan.org/tx/0x1");
     trade_wait := fun _ => Ok tt;
     new_Decimal := demo_Decimal;
     unicode_toLowerCase := fun s => s |}.

(** Runs the handler on a list of messages of one user. *)
Fixpoint run_messages (w : World) (uid : Z) (texts : list str) (m : Machine)
    : Machine :=
  match texts with
  | [] => m
  | t :: texts' => run_messages w uid texts' (snd (on_message w uid t m))
  end.

End Demo.

(** ** Vocabulary of the statements *)

Module Vocab.
Import Bot.

(** [c] can only return normally into a machine that satisfies [P]. *)
Definition returns_into {A} (c : M A) (P : Machine -> Prop) : Prop :=
  forall m r m', c m = (r, m') -> is_ok r = true -> P m'.

(** Every call of [ctx.reply] in world [w] is delivered. *)
Definition replies_delivered (w : World) : Prop :=
  forall n text, is_ok (reply_result w n text) = true.

Definition cleared (uid : Z) (m : Machine) : Prop := userStates m !! uid = None.

(** The type of the flow a state object is in. *)
Definition flow_type (st : UState) : TradeType :=
  if truthy_flag (buyRequested st) then buy else sell.

(** The [catch] of the message handler (lines 326-330). *)
Definition handler_catch (w : World) (uid : Z) : Err -> M unit :=
  fun _ => ctx_reply w msg_handler_error ;;; clearUserState uid.

(** The calls made between machine [m0] and the later machine [m']. *)
Definition events_since (m0 m' : Machine) : list Event :=
  skipn (length (trace m0)) (trace m').

(** A machine with the amount-entry state of a buy flow for user 7. *)
Definition demo_amount_state : UState :=
  mkUState (Some true) None (Some "amount") (Some "usdc") None (Some 1).

Definition demo_amount_machine : Machine :=
  mkMachine {[ 7 := demo_amount_state ]} ∅ [].

(** What follows the submission of a trade: the settlement wait and the
    success reply, or the error reply when the provider fails. *)
Definition after_submission (w : World) (t : TradeType) (a : Address)
    (amount : Decimal) (fromAssetId toAssetId : str) : list Event :=
  match createTrade w a amount fromAssetId toAssetId with
  | Ok trade =>
      match trade_wait w trade with
      | Ok _ => [EvTradeWait trade; EvReply (msg_success t (tx_link trade)) true]
      | Throw _ => [EvTradeWait trade; EvReply (msg_trade_error t) true]
      end
  | Throw _ => [EvReply (msg_trade_error t) true]
  end.

(** The validation of line 216. *)
Definition rejected (amount balance : Decimal) : bool :=
  (isNaN amount || greaterThan amount balance)%bool.

(** The state object of [uid], as [getUserState] returns it. *)
Definition state_of (m : Machine) (uid : Z) : UState :=
  default empty_state (userStates m !! uid).

(** Idle: no flow requested and no asset stored; a cached address and
    the id of the last reply may be present. *)
Definition idle (st : UState) : Prop :=
  flow_active st = false /\ asset st = None.

(** The six labels of the reply keyboard (lines 56-64). *)
Definition menu_labels : list str :=
  ["Check Balance"; "Deposit"; "Buy"; "Sell"; "Help"; "Settings"].

Definition is_flow_route (r : Route) : bool :=
  match r with ToHandleBuy | ToHandleSell => true | _ => false end.

(** The user has no cached address, so [getOrCreateAddress] goes to
    the store. *)
Definition cache_miss (m : Machine) (uid : Z) : Prop :=
  address (state_of m uid) = None.

Definition is_db_get (ev : Event) : bool :=
  match ev with EvDbGet _ => true | _ => false end.

Definition is_db_put (ev : Event) : bool :=
  match ev with EvDbPut _ _ => true | _ => false end.

Definition is_wallet_create (ev : Event) : bool :=
  match ev with EvWalletCreate => true | _ => false end.

(** No wallet is created and nothing is written in the calls [l]. *)
Definition no_creation (l : list Event) : Prop :=
  forallb (fun ev => negb (is_wallet_create ev || is_db_put ev)) l = true.

(** The [catch] of the load attempt (lines 102-117). *)
Definition load_catch (w : World) (uid : Z) : Err -> M Wallet :=
  fun error => if is_not_found error then create_wallet w uid else throw error.

(** [{ address }] *)
Definition address_patch (a : Address) : UState :=
  mkUState None None None None (Some a) None.

(** A store whose record for user 7 cannot be decrypted: the data is
    one byte long. *)
Definition corrupt_machine : Machine :=
  mkMachine ∅ {[ 7 := mkDoc "000102030405060708090a0b0c0d0e0f" "00" ]} [].

(** An infrastructure failure of the store, as a lookup reports it. *)
Definition err_timeout : Err := mkErr "timeout" None.

(** The demo world with a store whose lookups time out. *)
Definition timeout_world : World :=
  let w := Demo.demo_world DNaN in
  {| process_env := process_env w;
     reply_result := reply_result w;
     db_get_fault := fun _ => Some err_timeout;
     db_put_fault := db_put_fault w;
     randomBytes16 := randomBytes16 w;
     randomBytes16_length := randomBytes16_length w;
     JSON_stringify := JSON_stringify w;
     JSON_stringify_well_formed := JSON_stringify_well_formed w;
     JSON_parse := JSON_parse w;
     Wallet_import := Wallet_import w;
     Wallet_create := Wallet_create w;
     listBalances := listBalances w;
     getBalance := getBalance w;
     createTrade := createTrade w;
     trade_wait := trade_wait w;
     new_Decimal := new_Decimal w;
     unicode_toLowerCase := unicode_toLowerCase w |}.

(** An environment whose encryption key is present but is no hex at all. *)
Definition malformed_key_env : gmap string str :=
  <["ENCRYPTION_KEY"%string := "not-a-hex-key"]> Demo.demo_env.

(** An environment whose encryption key is the demo key followed by a
    remark. *)
Definition trailing_key_env : gmap string str :=
  <["ENCRYPTION_KEY"%string := Demo.demo_key ++ " (old key)"]> Demo.demo_env.

(** A three-block secret, its ciphertext under the demo key and IV,
    that ciphertext with the first byte changed from [1c] to [1d], and
    what the changed ciphertext decrypts to. *)
Definition secret_text : str :=
  "seed=3b6372000000123456789abcdef0123456789abcde".

Definition secret_cipher : str :=
  "1ca30a462dca2ee6a50681ee34243195c663353acc9ca643abb2adb3cc3c91389e6a26ec48b504d71643146301d99b16".

Definition altered_cipher : str :=
  "1da30a462dca2ee6a50681ee34243195c663353acc9ca643abb2adb3cc3c91389e6a26ec48b504d71643146301d99b16".

Definition altered_text : str :=
  "#[s#>@NxB1I9cI )1123456789abcdef0123456789abcde".

(** Another key, the ciphertext of ["secret"] under the demo key, and
    what that ciphertext decrypts to under the other key. *)
Definition wrong_key : str :=
  "603deb1015ca71be2b73aef0857d77811f352c073b6108d72d98105fe8fb55f4".

Definition short_cipher : str := "1d4851710ce5118f0666e578aa00fad7".

Definition wrong_text : str := "5,!a#?o>~qgq[l_".

(** World [w2] answers like world [w] where the wallet of a user is
    concerned: the same encryption key, the same JSON reading, a JSON
    reading that gives back the data of the wallet [w] creates, and a
    provider whose import of given wallet data always yields the same
    default address, the one of the created wallet for its own export. *)
Definition same_wallets (w w2 : World) : Prop :=
  ENCRYPTION_KEY w2 = ENCRYPTION_KEY w
  /\ (forall text, JSON_parse w2 text = JSON_parse w text)
  /\ (forall x, Wallet_create w = Ok x ->
        JSON_parse w2 (JSON_stringify w (w_export x)) = Some (w_export x))
  /\ (forall d x y, Wallet_import w d = Ok x -> Wallet_import w2 d = Ok y ->
        w_default y = w_default x)
  /\ (forall x y, Wallet_create w = Ok x -> Wallet_import w2 (w_export x) = Ok y ->
        w_default y = w_default x).

(** The machine after [clearUserState]: the cached address is gone. *)
Definition forget (uid : Z) (m : Machine) : Machine :=
  snd (clearUserState uid m).

End Vocab.

(** ** The process as a whole: [bot.catch] and sequences of updates *)

Module Process.
Import Bot.

(** [bot.catch] (lines 334-341): the error is logged and a reply is
    attempted; a failure of that reply is logged too. *)
Definition bot_catch (w : World) : Err -> M unit :=
  fun error => try_catch (ctx_reply w msg_handler_error ;;; ret tt) (fun e => ret tt).

(** One update, from the middleware to the error handler. *)
Definition handle_update (w : World) (uid : Z) (u : Update) : M unit :=
  try_catch (dispatch w uid u) (bot_catch w).

(** An update together with its sender and the world it is handled in. *)
Record Arrival := mkArrival { arr_world : World; arr_from : Z; arr_update : Update }.

Fixpoint run_updates (l : list Arrival) (m : Machine) : Machine :=
  match l with
  | [] => m
  | a :: l' =>
      run_updates l' (snd (handle_update (arr_world a) (arr_from a) (arr_update a) m))
  end.

End Process.

(** ** Vocabulary of the further statements *)

Module Frame.
Import Bot Vocab Process.

(** Whatever [c] does, returning or throwing, relates the machine before
    to the machine after by [R]. *)
Definition always {A} (c : M A) (R : Machine -> Machine -> Prop) : Prop :=
  forall m r m', c m = (r, m') -> R m m'.

(** The conversation states and the records of everyone but [uid] are
    the same. *)
Definition others_untouched (uid : Z) (m m' : Machine) : Prop :=
  (forall u, u <> uid -> userStates m' !! u = userStates m !! u)
  /\ (forall k, k <> uid -> db m' !! k = db m !! k).

(** Every stored record is still there, unchanged. *)
Definition records_kept (m m' : Machine) : Prop :=
  forall k doc, db m !! k = Some doc -> db m' !! k = Some doc.

Definition framed (uid : Z) (m m' : Machine) : Prop :=
  others_untouched uid m m' /\ records_kept m m'.

Definition is_createTrade (ev : Event) : bool :=
  match ev with EvCreateTrade _ _ _ _ => true | _ => false end.

Definition is_provider_trade_call (ev : Event) : bool :=
  match ev with
  | EvCreateTrade _ _ _ _ | EvTradeWait _ | EvGetBalance _ _ => true
  | _ => false
  end.

(** The machine after is the machine before with calls [l] added to the
    trace, and [P l]. *)
Definition extended_by (P : list Event -> Prop) (m m' : Machine) : Prop :=
  exists l, trace m' = trace m ++ l /\ P l.

Definition none_of (f : Event -> bool) (l : list Event) : Prop :=
  forallb (fun ev => negb (f ev)) l = true.

(** A partial state that sets neither a flow flag, nor the step, nor the
    asset. *)
Definition benign_patch (p : UState) : bool :=
  match buyRequested p, sellRequested p, step p, asset p with
  | None, None, None, None => true
  | _, _, _, _ => false
  end.

(** The flow part of two state objects is the same. *)
Definition same_flow (s s' : UState) : Prop :=
  buyRequested s' = buyRequested s /\ sellRequested s' = sellRequested s
  /\ step s' = step s /\ asset s' = asset s.

(** The amount-entry step: a flow is active and an asset is stored. *)
Definition in_amount_step (st : UState) : bool :=
  (flow_active st && truthy_str (asset st))%bool.

(** The shape the code keeps for every state object: a step only with a
    flow, an asset only in step ["amount"], never both flows. *)
Definition well_formed (st : UState) : Prop :=
  (step st <> None -> flow_active st = true)
  /\ (asset st <> None -> step st = Some "amount")
  /\ (truthy_flag (buyRequested st) && truthy_flag (sellRequested st))%bool = false.

Definition states_well_formed (m : Machine) : Prop :=
  forall u st, userStates m !! u = Some st -> well_formed st.

(** The calls [l] contain exactly one [createTrade], for an amount that
    is what the text reads as and that passed the check of line 216
    against the balance the provider reported for that address. *)
Definition one_validated_trade (w : World) (text : str) (t : TradeType)
    (a : str) (l : list Event) : Prop :=
  exists l1 l2 amount addr bal,
    l = l1 ++ EvCreateTrade addr amount (fst (tradeType t a)) (snd (tradeType t a)) :: l2
    /\ none_of is_createTrade l1 /\ none_of is_createTrade l2
    /\ new_Decimal w text = Ok amount
    /\ getBalance w addr (spend_asset t a) = Ok bal
    /\ rejected amount bal = false
    /\ In (EvReply (msg_initiating t) true) l1.

Definition at_most_one_validated_trade (w : World) (text : str) (t : TradeType)
    (a : str) (m m' : Machine) : Prop :=
  exists l, trace m' = trace m ++ l
            /\ (none_of is_createTrade l \/ one_validated_trade w text t a l).

Definition trades (l : list Event) : nat := length (List.filter is_createTrade l).

(** A partial state that sets the cached address and nothing else. *)
Definition address_only (p : UState) : bool :=
  (benign_patch p && match lastMessageId p with None => true | Some _ => false end)%bool.

(** The state object of [uid] is the same but for the cached address. *)
Definition same_but_address (uid : Z) (m m' : Machine) : Prop :=
  same_flow (state_of m uid) (state_of m' uid)
  /\ lastMessageId (state_of m' uid) = lastMessageId (state_of m uid).

(** Idle stays idle. *)
Definition keeps_idle (uid : Z) (m m' : Machine) : Prop :=
  idle (state_of m uid) -> idle (state_of m' uid).

(** No call of [ctx.reply] in world [w] is delivered. *)
Definition replies_fail (w : World) : Prop :=
  forall n text, is_ok (reply_result w n text) = false.

(** The flow part of the sender's state is kept and no trade is
    submitted. *)
Definition flow_kept_no_trade (uid : Z) (m m' : Machine) : Prop :=
  same_flow (state_of m uid) (state_of m' uid)
  /\ extended_by (none_of is_createTrade) m m'.

(** [s] begins with [p]. *)
Fixpoint starts_with (p s : str) : bool :=
  match p, s with
  | [], _ => true
  | x :: p', y :: s' => N.eqb x y && starts_with p' s'
  | _ :: _, [] => false
  end.

(** The replies of the trade flow: the fixed texts of [executeTrade] and
    of the two error handlers behind it, and the success text, which ends
    in the transaction link. *)
Definition is_flow_reply (text : str) : bool :=
  (existsb (Js.eqb text)
     [msg_cannot_sell_eth; msg_amount_buy; msg_amount_sell; msg_insufficient;
      msg_initiating buy; msg_initiating sell;
      msg_trade_error buy; msg_trade_error sell; msg_error; msg_handler_error]
   || starts_with "Successfully completed buy: [Basescan Link](" text
   || starts_with "Successfully completed sell: [Basescan Link](" text)%bool.

(** The first line of the balances reply (line 136). *)
Definition msg_balances_header : str := "Your current balances are as follows:
".

(** The replies of the menu commands: the fixed texts of the six
    handlers, the balances reply, which begins with its header, and the
    deposit address, which is written between backquotes. *)
Definition is_menu_reply (text : str) : bool :=
  (existsb (Js.eqb text)
     [msg_balance_error; msg_deposit_error; msg_ask_buy; msg_ask_sell;
      msg_help; msg_settings; msg_default;
      "_Note: As this is a test app, make sure to deposit only small amounts of ETH!_";
      "Please send your ETH to the following address on Base:"]
   || starts_with msg_balances_header text
   || starts_with "`" text)%bool.

(** A call that only a menu command makes. *)
Definition is_menu_event (ev : Event) : bool :=
  match ev with
  | EvListBalances _ => true
  | EvReply text _ => is_menu_reply text
  | _ => false
  end.

(** The error text of the menu command a text names, if it names one of
    the two that resolve the address. *)
Definition menu_error_text (text : str) : option str :=
  if Js.eqb text "Check Balance" then Some msg_balance_error
  else if Js.eqb text "Deposit" then Some msg_deposit_error
  else None.

End Frame.

(** ** Further concrete worlds and machines *)

Module Samples.
Import Bot Vocab Process Frame.

Definition with_reply_result (f : nat -> str -> res Z) (w : World) : World :=
  {| process_env := process_env w;
     reply_result := f;
     db_get_fault := db_get_fault w;
     db_put_fault := db_put_fault w;
     randomBytes16 := randomBytes16 w;
     randomBytes16_length := randomBytes16_length w;
     JSON_stringify := JSON_stringify w;
     JSON_stringify_well_formed := JSON_stringify_well_formed w;
     JSON_parse := JSON_parse w;
     Wallet_import := Wallet_import w;
     Wallet_create := Wallet_create w;
     listBalances := listBalances w;
     getBalance := getBalance w;
     createTrade := createTrade w;
     trade_wait := trade_wait w;
     new_Decimal := new_Decimal w;
     unicode_toLowerCase := unicode_toLowerCase w |}.

Definition with_env (env : gmap string str) (w : World) : World :=
  {| process_env := env;
     reply_result := reply_result w;
     db_get_fault := db_get_fault w;
     db_put_fault := db_put_fault w;
     randomBytes16 := randomBytes16 w;
     randomBytes16_length := randomBytes16_length w;
     JSON_stringify := JSON_stringify w;
     JSON_stringify_well_formed := JSON_stringify_well_formed w;
     JSON_parse := JSON_parse w;
     Wallet_import := Wallet_import w;
     Wallet_create := Wallet_create w;
     listBalances := listBalances w;
     getBalance := getBalance w;
     createTrade := createTrade w;
     trade_wait := trade_wait w;
     new_Decimal := new_Decimal w;
     unicode_toLowerCase := unicode_toLowerCase w |}.

Definition with_Wallet_import (f : WalletData -> res Wallet) (w : World) : World :=
  {| process_env := process_env w;
     reply_result := reply_result w;
     db_get_fault := db_get_fault w;
     db_put_fault := db_put_fault w;
     randomBytes16 := randomBytes16 w;
     randomBytes16_length := randomBytes16_length w;
     JSON_stringify := JSON_stringify w;
     JSON_stringify_well_formed := JSON_stringify_well_formed w;
     JSON_parse := JSON_parse w;
     Wallet_import := f;
     Wallet_create := Wallet_create w;
     listBalances := listBalances w;
     getBalance := getBalance w;
     createTrade := createTrade w;
     trade_wait := trade_wait w;
     new_Decimal := new_Decimal w;
     unicode_toLowerCase := unicode_toLowerCase w |}.

(** The user holds 2.0 of everything. *)
Definition rich_world : World := Demo.demo_world (DFin 20 (-1)).

(** The transport delivers nothing. *)
Definition silent_world : World :=
  with_reply_result (fun _ _ => Throw (mkErr "HttpError" None)) rich_world.

(** The encryption key is present but is no hex. *)
Definition bad_key_world : World := with_env malformed_key_env rich_world.

(** User 8 buys 1.0 of usdc. *)
Definition buy_by_8 : list Arrival :=
  [ mkArrival rich_world 8 (TextMessage "Buy");
    mkArrival rich_world 8 (TextMessage "usdc");
    mkArrival rich_world 8 (TextMessage "1.0") ].

(** User 7 greets, asks for balances, and starts to sell. *)
Definition session_of_7 : list Arrival :=
  [ mkArrival rich_world 7 StartCommand;
    mkArrival rich_world 7 (TextMessage "Check Balance");
    mkArrival rich_world 7 (TextMessage "Sell");
    mkArrival rich_world 7 (TextMessage "pepe") ].

(** A text of 15 characters and 16 bytes, and its ciphertext under the
    demo key and IV; the ciphertext of ["public"]. *)
Definition accented_text : str := "0123456789abcdé".

Definition accented_cipher : str :=
  "2a8c7776a9d1689499b10d97ff14646b543aba0c6e63ef20b224464064f74f51".

Definition public_cipher : str := "e5324cfa43f839e8ad693443395cccd1".

(** The provider's answer for a wallet it does not know: an HTTP error
    whose [status] is 404. *)
Definition err_provider_not_found : Err := mkErr "AxiosError" (Some 404).

(** The provider knows none of the wallets it is asked to import. *)
Definition import_404_world : World :=
  with_Wallet_import (fun _ => Throw err_provider_not_found) rich_world.

(** The record the first contact of user 7 writes in the demo world, and
    a process that holds it and has no state for the user. *)
Definition stored_doc : DbDoc :=
  mkDoc "000102030405060708090a0b0c0d0e0f" "85f6238f267b3646cb38b879849332b1".

Definition stored_machine : Machine := mkMachine ∅ {[ 7 := stored_doc ]} [].

(** User 7 in the asset step of a sale. *)
Definition demo_asset_state : UState :=
  mkUState None (Some true) (Some "asset") None None (Some 1).

Definition demo_asset_machine : Machine :=
  mkMachine {[ 7 := demo_asset_state ]} ∅ [].

Definition demo_sell_state : UState :=
  mkUState None (Some true) (Some "amount") (Some "pepe") None (Some 1).

Definition demo_sell_machine : Machine :=
  mkMachine {[ 7 := demo_sell_state ]} ∅ [].

End Samples.

(** * Properties *)

Import Bot Vocab Process.

(** ** Strings *)

Lemma str_eqb_eq (a b : str) : Js.eqb a b = true <-> a = b.
Proof.
  revert b. induction a as [|x a IH]; intros [|y b]; simpl;
    try (split; [discriminate|discriminate]); [tauto|].
  rewrite andb_true_iff, N.eqb_eq, IH. split.
  - intros [-> ->]. reflexivity.
  - intros H. inversion H. auto.
Qed.

Lemma str_eqb_refl (a : str) : Js.eqb a a = true.
Proof. apply str_eqb_eq. reflexivity. Qed.

Lemma str_eqb_neq (a b : str) : Js.eqb a b = false <-> a <> b.
Proof.
  rewrite <- str_eqb_eq. destruct (Js.eqb a b); split; congruence.
Qed.

Lemma str_eqb_spec (a b : str) : reflect (a = b) (Js.eqb a b).
Proof.
  destruct (Js.eqb a b) eqn:E; constructor.
  - apply str_eqb_eq, E.
  - apply str_eqb_neq, E.
Qed.

(** ** UTF-8 *)

Lemma byte_of_value n : (n < 256)%N -> N_of_ascii (byte_of n) = n.
Proof. apply N_ascii_embedding. Qed.

Lemma byte_value_bound b : (N_of_ascii b < 256)%N.
Proof. apply N_ascii_bounded. Qed.

Lemma byte_of_N_of_ascii b : byte_of (N_of_ascii b) = b.
Proof. apply ascii_N_embedding. Qed.

Lemma between_spec lo hi b :
  between lo hi b = true <-> (lo <= N_of_ascii b <= hi)%N.
Proof. unfold between. rewrite andb_true_iff, !N.leb_le. tauto. Qed.

Lemma decode_1 b r :
  (N_of_ascii b < 0x80)%N ->
  utf8_decode (b :: r) = N_of_ascii b :: utf8_decode r.
Proof.
  intros H. apply N.ltb_lt in H. cbn [utf8_decode]. rewrite H. reflexivity.
Qed.

Lemma decode_2 b0 b1 r :
  (0xC2 <= N_of_ascii b0 <= 0xDF)%N ->
  (0x80 <= N_of_ascii b1 <= 0xBF)%N ->
  utf8_decode (b0 :: b1 :: r)
  = ((N_of_ascii b0 - 0xC0) * 64 + low6 b1)%N :: utf8_decode r.
Proof.
  intros H0 H1. cbn [utf8_decode].
  destruct (N.ltb_spec (N_of_ascii b0) 0x80); [lia|].
  apply between_spec in H0, H1. rewrite H0, H1. reflexivity.
Qed.

Lemma decode_3 b0 b1 b2 r :
  (0xE0 <= N_of_ascii b0 <= 0xEF)%N ->
  ((if (N_of_ascii b0 =? 0xE0)%N then 0xA0 else 0x80) <= N_of_ascii b1
   <= (if (N_of_ascii b0 =? 0xED)%N then 0x9F else 0xBF))%N ->
  (0x80 <= N_of_ascii b2 <= 0xBF)%N ->
  utf8_decode (b0 :: b1 :: b2 :: r)
  = ((N_of_ascii b0 - 0xE0) * 4096 + low6 b1 * 64 + low6 b2)%N :: utf8_decode r.
Proof.
  intros H0 H1 H2. cbn [utf8_decode].
  destruct (N.ltb_spec (N_of_ascii b0) 0x80); [lia|].
  destruct (between 0xC2 0xDF b0) eqn:E.
  { apply between_spec in E. lia. }
  apply between_spec in H0, H1, H2. rewrite H0, H1, H2. reflexivity.
Qed.

Lemma decode_4 b0 b1 b2 b3 r :
  (0xF0 <= N_of_ascii b0 <= 0xF4)%N ->
  ((if (N_of_ascii b0 =? 0xF0)%N then 0x90 else 0x80) <= N_of_ascii b1
   <= (if (N_of_ascii b0 =? 0xF4)%N then 0x8F else 0xBF))%N ->
  (0x80 <= N_of_ascii b2 <= 0xBF)%N ->
  (0x80 <= N_of_ascii b3 <= 0xBF)%N ->
  utf8_decode (b0 :: b1 :: b2 :: b3 :: r)
  = units_of_scalar ((N_of_ascii b0 - 0xF0) * 262144 + low6 b1 * 4096
                     + low6 b2 * 64 + low6 b3)%N
    ++ utf8_decode r.
Proof.
  intros H0 H1 H2 H3. cbn [utf8_decode].
  destruct (N.ltb_spec (N_of_ascii b0) 0x80); [lia|].
  destruct (between 0xC2 0xDF b0) eqn:E.
  { apply between_spec in E. lia. }
  destruct (between 0xE0 0xEF b0) eqn:E'.
  { apply between_spec in E'. lia. }
  apply between_spec in H0, H1, H2, H3. rewrite H0, H1, H2, H3. reflexivity.
Qed.

Lemma is_scalar_range c :
  is_scalar c <-> (c < 0xD800 \/ 0xDFFF < c < 0x110000)%N.
Proof.
  unfold is_scalar, is_high_surrogate, is_low_surrogate.
  rewrite !andb_false_iff, !N.leb_gt. lia.
Qed.

(** Linear arithmetic with division and remainder by constants. *)
Ltac euclid := zify; Z.to_euclidean_division_equations; lia.

Lemma units_of_bmp u : (u < 0x10000)%N -> units_of_scalar u = [u].
Proof.
  intros H. unfold units_of_scalar. destruct (N.ltb_spec u 0x10000); [reflexivity|lia].
Qed.

Lemma div_4096 c : (c / 4096 = c / 64 / 64)%N.
Proof. rewrite N.Div0.div_div. reflexivity. Qed.

Lemma div_262144 c : (c / 262144 = c / 64 / 64 / 64)%N.
Proof. rewrite !N.Div0.div_div. reflexivity. Qed.

(** Decoding reads back the bytes of an encoded code point. *)
Lemma decode_scalar c l :
  is_scalar c ->
  utf8_decode (utf8_of_scalar c ++ l) = units_of_scalar c ++ utf8_decode l.
Proof.
  intros Hc. apply is_scalar_range in Hc. unfold utf8_of_scalar.
  destruct (N.ltb_spec c 0x80) as [H1|H1].
  { cbn [app]. rewrite decode_1; rewrite byte_of_value; try lia.
    rewrite units_of_bmp by lia. reflexivity. }
  destruct (N.ltb_spec c 0x800) as [H2|H2].
  { cbn [app]. rewrite decode_2; unfold low6; rewrite ?byte_of_value; try euclid.
    rewrite units_of_bmp by lia. cbn [app]. f_equal. euclid. }
  destruct (N.ltb_spec c 0x10000) as [H3|H3].
  { cbn [app]. rewrite decode_3; unfold low6; rewrite ?byte_of_value; try euclid.
    - rewrite units_of_bmp by lia. cbn [app]. f_equal. rewrite div_4096. euclid.
    - destruct (N.eqb_spec (0xE0 + c / 4096) 0xE0);
        destruct (N.eqb_spec (0xE0 + c / 4096) 0xED); euclid. }
  cbn [app]. rewrite decode_4; unfold low6; rewrite ?byte_of_value; try euclid.
  - do 2 f_equal. rewrite div_262144, div_4096. euclid.
  - destruct (N.eqb_spec (0xF0 + c / 262144) 0xF0);
      destruct (N.eqb_spec (0xF0 + c / 262144) 0xF4); euclid.
Qed.

Lemma units_of_pair u v :
  is_high_surrogate u = true -> is_low_surrogate v = true ->
  is_scalar (pair_scalar u v) /\ units_of_scalar (pair_scalar u v) = [u; v].
Proof.
  unfold is_high_surrogate, is_low_surrogate. rewrite !andb_true_iff, !N.leb_le.
  intros Hu Hv. rewrite is_scalar_range. unfold pair_scalar, units_of_scalar. split; [lia|].
  destruct (N.ltb_spec (0x10000 + (u - 0xD800) * 1024 + (v - 0xDC00)) 0x10000); [lia|].
  f_equal; [|f_equal]; euclid.
Qed.

(** Induction over a string one character at a time, a character being
    one code unit or two. *)
Lemma str_ind2 (P : str -> Prop) :
  P [] -> (forall u s, P s -> (forall v s', s = v :: s' -> P s') -> P (u :: s)) ->
  forall s, P s.
Proof.
  intros Hnil Hcons.
  assert (H : forall s, P s /\ (forall v s', s = v :: s' -> P s')).
  { induction s as [|u s [IH1 IH2]].
    - split; [exact Hnil|discriminate].
    - split; [apply Hcons; assumption|].
      intros v s' E. inversion E; subst. exact IH1. }
  intros s. apply H.
Qed.

(** A well-formed string comes back from its UTF-8 encoding. *)
Lemma utf8_decode_encode s :
  is_well_formed s = true -> utf8_decode (utf8_encode s) = s.
Proof.
  induction s as [|u s IH1 IH2] using str_ind2; [reflexivity|].
  cbn [is_well_formed utf8_encode].
  destruct (is_high_surrogate u) eqn:Hhi.
  - destruct s as [|v s']; [discriminate|].
    rewrite andb_true_iff. intros [Hlo Hwf]. rewrite Hlo.
    destruct (units_of_pair u v Hhi Hlo) as [Hsc Hun].
    rewrite (decode_scalar _ _ Hsc), Hun, (IH2 v s' eq_refl Hwf). reflexivity.
  - rewrite !andb_true_iff, negb_true_iff, N.ltb_lt. intros [[Hlo Hlt] Hwf].
    rewrite Hlo, decode_scalar, (units_of_bmp u Hlt), (IH1 Hwf); [reflexivity|].
    repeat split; [lia|assumption|assumption].
Qed.

(** *** From the decoded string back to the bytes *)

Lemma encode_units_of_scalar c rest :
  is_scalar c ->
  utf8_encode (units_of_scalar c ++ rest) = utf8_of_scalar c ++ utf8_encode rest.
Proof.
  intros Hc. pose proof Hc as (Hlt & Hhi & Hlo).
  apply is_scalar_range in Hc. unfold units_of_scalar.
  destruct (N.ltb_spec c 0x10000) as [H|H].
  - cbn [app utf8_encode]. rewrite Hhi, Hlo. reflexivity.
  - cbn [app utf8_encode].
    assert (Hh : is_high_surrogate (0xD800 + (c - 0x10000) / 1024) = true).
    { unfold is_high_surrogate. rewrite andb_true_iff, !N.leb_le. euclid. }
    assert (Hl : is_low_surrogate (0xDC00 + (c - 0x10000) mod 1024) = true).
    { unfold is_low_surrogate. rewrite andb_true_iff, !N.leb_le. euclid. }
    rewrite Hh, Hl. do 2 f_equal. unfold pair_scalar. euclid.
Qed.

Lemma utf8_decode_cases b0 r0 : decoded (b0 :: r0) (utf8_decode (b0 :: r0)).
Proof.
  cbn [utf8_decode].
  destruct (N.ltb_spec (N_of_ascii b0) 0x80) as [H|H]; [constructor; exact H|].
  destruct (between 0xC2 0xDF b0) eqn:E2.
  { apply between_spec in E2. destruct r0 as [|b1 r1]; [constructor|].
    destruct (between 0x80 0xBF b1) eqn:C1; [|constructor].
    apply between_spec in C1. constructor; assumption. }
  destruct (between 0xE0 0xEF b0) eqn:E3.
  { apply between_spec in E3. destruct r0 as [|b1 r1]; [constructor|].
    destruct (between _ _ b1) eqn:C1; [|constructor].
    apply between_spec in C1. destruct r1 as [|b2 r2]; [constructor|].
    destruct (between 0x80 0xBF b2) eqn:C2; [|constructor].
    apply between_spec in C2. constructor; assumption. }
  destruct (between 0xF0 0xF4 b0) eqn:E4; [|constructor].
  apply between_spec in E4. destruct r0 as [|b1 r1]; [constructor|].
  destruct (between _ _ b1) eqn:C1; [|constructor].
  apply between_spec in C1. destruct r1 as [|b2 r2]; [constructor|].
  destruct (between 0x80 0xBF b2) eqn:C2; [|constructor].
  apply between_spec in C2. destruct r2 as [|b3 r3]; [constructor|].
  destruct (between 0x80 0xBF b3) eqn:C3; [|constructor].
  apply between_spec in C3. constructor; assumption.
Qed.

Lemma scalar_1 b :
  (N_of_ascii b < 0x80)%N ->
  is_scalar (N_of_ascii b) /\ utf8_of_scalar (N_of_ascii b) = [b].
Proof.
  intros H. rewrite is_scalar_range. split; [lia|].
  unfold utf8_of_scalar. destruct (N.ltb_spec (N_of_ascii b) 0x80); [|lia].
  rewrite byte_of_N_of_ascii. reflexivity.
Qed.

Lemma byte_of_eq n b : n = N_of_ascii b -> byte_of n = b.
Proof. intros ->. apply byte_of_N_of_ascii. Qed.

Lemma scalar_2 b0 b1 :
  (0xC2 <= N_of_ascii b0 <= 0xDF)%N -> (0x80 <= N_of_ascii b1 <= 0xBF)%N ->
  let c := ((N_of_ascii b0 - 0xC0) * 64 + low6 b1)%N in
  is_scalar c /\ utf8_of_scalar c = [b0; b1].
Proof.
  intros H0 H1 c. subst c. unfold low6. rewrite is_scalar_range. split; [lia|].
  unfold utf8_of_scalar.
  destruct (N.ltb_spec ((N_of_ascii b0 - 192) * 64 + (N_of_ascii b1 - 128)) 0x80); [lia|].
  destruct (N.ltb_spec ((N_of_ascii b0 - 192) * 64 + (N_of_ascii b1 - 128)) 0x800); [|lia].
  f_equal; [|f_equal]; apply byte_of_eq; euclid.
Qed.

Lemma scalar_3 b0 b1 b2 :
  (0xE0 <= N_of_ascii b0 <= 0xEF)%N ->
  ((if (N_of_ascii b0 =? 0xE0)%N then 0xA0 else 0x80) <= N_of_ascii b1
   <= (if (N_of_ascii b0 =? 0xED)%N then 0x9F else 0xBF))%N ->
  (0x80 <= N_of_ascii b2 <= 0xBF)%N ->
  let c := ((N_of_ascii b0 - 0xE0) * 4096 + low6 b1 * 64 + low6 b2)%N in
  is_scalar c /\ utf8_of_scalar c = [b0; b1; b2].
Proof.
  intros H0 H1 H2 c. subst c. unfold low6.
  set (n0 := N_of_ascii b0) in *. set (n1 := N_of_ascii b1) in *.
  set (n2 := N_of_ascii b2) in *.
  assert (Hr : (2048 <= (n0 - 224) * 4096 + (n1 - 128) * 64 + (n2 - 128) < 65536
                /\ ((n0 - 224) * 4096 + (n1 - 128) * 64 + (n2 - 128) < 0xD800
                    \/ 0xDFFF < (n0 - 224) * 4096 + (n1 - 128) * 64 + (n2 - 128)))%N).
  { destruct (N.eqb_spec n0 0xE0); destruct (N.eqb_spec n0 0xED); lia. }
  assert (Hn1 : (128 <= n1 <= 191)%N).
  { destruct (N.eqb_spec n0 0xE0); destruct (N.eqb_spec n0 0xED); lia. }
  clear H1. rewrite is_scalar_range. split; [lia|].
  unfold utf8_of_scalar.
  destruct (N.ltb_spec ((n0 - 224) * 4096 + (n1 - 128) * 64 + (n2 - 128)) 0x80); [lia|].
  destruct (N.ltb_spec ((n0 - 224) * 4096 + (n1 - 128) * 64 + (n2 - 128)) 0x800); [lia|].
  destruct (N.ltb_spec ((n0 - 224) * 4096 + (n1 - 128) * 64 + (n2 - 128)) 0x10000); [|lia].
  f_equal; [|f_equal; [|f_equal]]; apply byte_of_eq; fold n0 n1 n2;
    rewrite ?div_4096; euclid.
Qed.

Lemma scalar_4 b0 b1 b2 b3 :
  (0xF0 <= N_of_ascii b0 <= 0xF4)%N ->
  ((if (N_of_ascii b0 =? 0xF0)%N then 0x90 else 0x80) <= N_of_ascii b1
   <= (if (N_of_ascii b0 =? 0xF4)%N then 0x8F else 0xBF))%N ->
  (0x80 <= N_of_ascii b2 <= 0xBF)%N ->
  (0x80 <= N_of_ascii b3 <= 0xBF)%N ->
  let c := ((N_of_ascii b0 - 0xF0) * 262144 + low6 b1 * 4096
            + low6 b2 * 64 + low6 b3)%N in
  is_scalar c /\ utf8_of_scalar c = [b0; b1; b2; b3].
Proof.
  intros H0 H1 H2 H3 c. subst c. unfold low6.
  set (n0 := N_of_ascii b0) in *. set (n1 := N_of_ascii b1) in *.
  set (n2 := N_of_ascii b2) in *. set (n3 := N_of_ascii b3) in *.
  set (c := ((n0 - 240) * 262144 + (n1 - 128) * 4096 + (n2 - 128) * 64 + (n3 - 128))%N).
  assert (Hr : (65536 <= c < 0x110000)%N).
  { unfold c. destruct (N.eqb_spec n0 0xF0); destruct (N.eqb_spec n0 0xF4); lia. }
  assert (Hn1 : (128 <= n1 <= 191)%N).
  { destruct (N.eqb_spec n0 0xF0); destruct (N.eqb_spec n0 0xF4); lia. }
  clear H1. rewrite is_scalar_range. split; [lia|].
  unfold utf8_of_scalar.
  destruct (N.ltb_spec c 0x80); [lia|].
  destruct (N.ltb_spec c 0x800); [lia|].
  destruct (N.ltb_spec c 0x10000); [lia|].
  f_equal; [|f_equal; [|f_equal; [|f_equal]]]; apply byte_of_eq; fold n0 n1 n2 n3;
    rewrite ?div_262144, ?div_4096; unfold c in *; euclid.
Qed.

(** Bytes that decode without a U+FFFD are the encoding of what they
    decode to. *)
Lemma utf8_encode_decode l :
  ~ In replacement (utf8_decode l) -> utf8_encode (utf8_decode l) = l.
Proof.
  remember (length l) as n eqn:Hn. revert l Hn.
  induction n as [n IH] using lt_wf_ind. intros l Hn.
  destruct l as [|b0 r0]; [reflexivity|].
  destruct (utf8_decode_cases b0 r0) as
    [b r H|b0' b1 r H0 H1|b0' b1 b2 r H0 H1 H2|b0' b1 b2 b3 r H0 H1 H2 H3|l' tail];
    intros Hclean; simpl in Hn.
  - destruct (scalar_1 b H) as [Hsc Hb].
    change (N_of_ascii b :: utf8_decode r) with ([N_of_ascii b] ++ utf8_decode r).
    rewrite <- (units_of_bmp (N_of_ascii b)) by lia.
    rewrite (encode_units_of_scalar _ _ Hsc), Hb. cbn [app]. f_equal.
    apply (IH (length r)); [lia|reflexivity|].
    intros Hin. apply Hclean. right. exact Hin.
  - destruct (scalar_2 b0' b1 H0 H1) as [Hsc Hb].
    match goal with |- utf8_encode (?c :: ?t) = _ => change (c :: t) with ([c] ++ t) end.
    rewrite <- units_of_bmp by (unfold low6; lia).
    rewrite (encode_units_of_scalar _ _ Hsc), Hb. cbn [app]. do 2 f_equal.
    apply (IH (length r)); [lia|reflexivity|].
    intros Hin. apply Hclean. right. exact Hin.
  - destruct (scalar_3 b0' b1 b2 H0 H1 H2) as [Hsc Hb].
    match goal with |- utf8_encode (?c :: ?t) = _ => change (c :: t) with ([c] ++ t) end.
    rewrite <- units_of_bmp.
    2:{ unfold low6. destruct (N.eqb_spec (N_of_ascii b0') 0xE0);
          destruct (N.eqb_spec (N_of_ascii b0') 0xED); lia. }
    rewrite (encode_units_of_scalar _ _ Hsc), Hb. cbn [app]. do 3 f_equal.
    apply (IH (length r)); [lia|reflexivity|].
    intros Hin. apply Hclean. right. exact Hin.
  - destruct (scalar_4 b0' b1 b2 b3 H0 H1 H2 H3) as [Hsc Hb].
    rewrite (encode_units_of_scalar _ _ Hsc), Hb. cbn [app]. do 4 f_equal.
    apply (IH (length r)); [lia|reflexivity|].
    intros Hin. apply Hclean. apply in_or_app. right. exact Hin.
  - destruct Hclean. left. reflexivity.
Qed.

(** ** Decimal comparison is exact *)

Lemma to_Q_scaled (c e m : Z) :
  m <= e -> (to_Q c e == inject_Z (c * 10 ^ (e - m)) * (10 # 1) ^ m)%Q.
Proof.
  intros Hle. unfold to_Q.
  replace e with ((e - m) + m) at 1 by lia.
  rewrite Qpower_plus by discriminate.
  rewrite inject_Z_mult, Zpower_Qpower by lia.
  change (inject_Z 10) with (10 # 1). ring.
Qed.

(** On finite values [greaterThan] decides the order of the rational
    numbers the two decimals denote. *)
Lemma greaterThan_exact (c1 e1 c2 e2 : Z) :
  greaterThan (DFin c1 e1) (DFin c2 e2) = true <-> (to_Q c2 e2 < to_Q c1 e1)%Q.
Proof.
  unfold greaterThan, align.
  set (m := Z.min e1 e2).
  rewrite (to_Q_scaled c1 e1 m), (to_Q_scaled c2 e2 m) by (subst m; lia).
  rewrite Qmult_lt_r by (apply Qpower_0_lt; reflexivity).
  rewrite <- Zlt_Qlt. apply Z.ltb_lt.
Qed.

Lemma negative_not_rejected (amount bal : Decimal) :
  isNegative amount = true -> isNegative bal = false ->
  rejected amount bal = false.
Proof.
  unfold rejected. destruct amount as [| n1 | c1 e1]; simpl; try discriminate.
  - intros -> _. destruct bal as [| n2 | c2 e2]; simpl; try reflexivity.
  - intros Hneg. apply Z.ltb_lt in Hneg.
    destruct bal as [| n2 | c2 e2]; simpl; intros Hb; try reflexivity.
    + exact Hb.
    + apply Z.ltb_ge in Hb. apply Z.ltb_ge.
      assert (0 < 10 ^ (e1 - Z.min e1 e2)) by (apply Z.pow_pos_nonneg; lia).
      assert (0 < 10 ^ (e2 - Z.min e1 e2)) by (apply Z.pow_pos_nonneg; lia).
      nia.
Qed.

(** ** AES: every step of the cipher is undone by its inverse *)

Lemma bxor_involutive a k : Aes.bxor (Aes.bxor a k) k = a.
Proof.
  destruct a as [a0 a1 a2 a3 a4 a5 a6 a7], k as [k0 k1 k2 k3 k4 k5 k6 k7].
  simpl. f_equal; btauto.
Qed.

Lemma xor_bytes_involutive s : forall k, Aes.xor_bytes (Aes.xor_bytes s k) k = s.
Proof.
  induction s as [|a s IH]; intros [|b k]; simpl; try reflexivity.
  rewrite bxor_involutive, IH. reflexivity.
Qed.

Lemma xor_bytes_length s : forall k, length (Aes.xor_bytes s k) = length s.
Proof.
  induction s as [|a s IH]; intros [|b k]; simpl; try reflexivity.
  rewrite IH. reflexivity.
Qed.

Lemma inv_sbox_sbox a : Aes.inv_sbox (Aes.sbox a) = a.
Proof.
  destruct a as [b0 b1 b2 b3 b4 b5 b6 b7].
  destruct b0, b1, b2, b3, b4, b5, b6, b7; vm_compute; reflexivity.
Qed.

Lemma inv_sub_bytes_sub_bytes s : Aes.inv_sub_bytes (Aes.sub_bytes s) = s.
Proof.
  unfold Aes.inv_sub_bytes, Aes.sub_bytes. rewrite map_map.
  induction s as [|a s IH]; simpl; [reflexivity|].
  rewrite inv_sbox_sbox, IH. reflexivity.
Qed.

Lemma inv_shift_rows_shift_rows s : Aes.inv_shift_rows (Aes.shift_rows s) = s.
Proof.
  do 17 (destruct s as [|? s]; [reflexivity|]). reflexivity.
Qed.

Lemma shift_rows_length s : length (Aes.shift_rows s) = length s.
Proof.
  do 17 (destruct s as [|? s]; [reflexivity|]). reflexivity.
Qed.

Lemma inv_mix_column_mix_column a0 a1 a2 a3 :
  match Aes.mix_column a0 a1 a2 a3 with
  | [b0; b1; b2; b3] => Aes.inv_mix_column b0 b1 b2 b3
  | _ => []
  end = [a0; a1; a2; a3].
Proof.
  destruct a0 as [x0 x1 x2 x3 x4 x5 x6 x7], a1 as [y0 y1 y2 y3 y4 y5 y6 y7],
           a2 as [z0 z1 z2 z3 z4 z5 z6 z7], a3 as [t0 t1 t2 t3 t4 t5 t6 t7].
  cbv [Aes.mix_column Aes.inv_mix_column Aes.mul2 Aes.mul3 Aes.mul9 Aes.mul11
       Aes.mul13 Aes.mul14 Aes.xtime Aes.bxor].
  repeat f_equal; btauto.
Qed.

Lemma inv_mix_column_explicit a0 a1 a2 a3 :
  Aes.inv_mix_column
    (Aes.bxor (Aes.mul2 a0) (Aes.bxor (Aes.mul3 a1) (Aes.bxor a2 a3)))
    (Aes.bxor a0 (Aes.bxor (Aes.mul2 a1) (Aes.bxor (Aes.mul3 a2) a3)))
    (Aes.bxor a0 (Aes.bxor a1 (Aes.bxor (Aes.mul2 a2) (Aes.mul3 a3))))
    (Aes.bxor (Aes.mul3 a0) (Aes.bxor a1 (Aes.bxor a2 (Aes.mul2 a3))))
  = [a0; a1; a2; a3].
Proof. exact (inv_mix_column_mix_column a0 a1 a2 a3). Qed.

Lemma inv_mix_columns_mix_columns s : Aes.inv_mix_columns (Aes.mix_columns s) = s.
Proof.
  do 16 (destruct s as [|? s]; [reflexivity|]).
  destruct s as [|? s]; [|reflexivity].
  cbv [Aes.mix_columns Aes.mix_column app Aes.inv_mix_columns].
  rewrite !inv_mix_column_explicit. reflexivity.
Qed.

Lemma mix_columns_length s : length (Aes.mix_columns s) = length s.
Proof.
  do 17 (destruct s as [|? s]; [reflexivity|]). reflexivity.
Qed.

Lemma inv_round_round rk s : Aes.inv_round rk (Aes.round rk s) = s.
Proof.
  unfold Aes.inv_round, Aes.round, Aes.add_round_key.
  rewrite xor_bytes_involutive, inv_mix_columns_mix_columns,
    inv_shift_rows_shift_rows, inv_sub_bytes_sub_bytes. reflexivity.
Qed.

Lemma inv_final_round_final_round rk s :
  Aes.inv_final_round rk (Aes.final_round rk s) = s.
Proof.
  unfold Aes.inv_final_round, Aes.final_round, Aes.add_round_key.
  rewrite xor_bytes_involutive, inv_shift_rows_shift_rows, inv_sub_bytes_sub_bytes.
  reflexivity.
Qed.

Lemma inv_rounds_rounds rks : forall s, Aes.inv_rounds rks (Aes.rounds rks s) = s.
Proof.
  induction rks as [|k rks IH]; intros s; [reflexivity|].
  destruct rks as [|k' rks].
  - apply inv_final_round_final_round.
  - change (Aes.inv_round k
              (Aes.inv_rounds (k' :: rks) (Aes.rounds (k' :: rks) (Aes.round k s))) = s).
    rewrite IH. apply inv_round_round.
Qed.

(** The inverse cipher undoes the cipher, for every list of round keys. *)
Lemma inv_cipher_cipher rks s : Aes.inv_cipher rks (Aes.cipher rks s) = s.
Proof.
  destruct rks as [|k0 rks]; [reflexivity|]. simpl.
  rewrite inv_rounds_rounds. apply xor_bytes_involutive.
Qed.

Lemma decrypt_block_encrypt_block key b :
  Aes.decrypt_block key (Aes.encrypt_block key b) = b.
Proof. apply inv_cipher_cipher. Qed.

Lemma rounds_length rks : forall s, length (Aes.rounds rks s) = length s.
Proof.
  induction rks as [|k rks IH]; intros s; [reflexivity|].
  destruct rks as [|k' rks].
  - unfold Aes.rounds, Aes.final_round, Aes.add_round_key, Aes.sub_bytes.
    rewrite xor_bytes_length, shift_rows_length, length_map. reflexivity.
  - change (length (Aes.rounds (k' :: rks) (Aes.round k s)) = length s).
    rewrite IH. unfold Aes.round, Aes.add_round_key, Aes.sub_bytes.
    rewrite xor_bytes_length, mix_columns_length, shift_rows_length, length_map.
    reflexivity.
Qed.

Lemma encrypt_block_length key b : length (Aes.encrypt_block key b) = length b.
Proof.
  unfold Aes.encrypt_block, Aes.cipher.
  destruct (Aes.key_schedule key) as [|k0 rks]; [reflexivity|].
  rewrite rounds_length. apply xor_bytes_length.
Qed.

(** ** The codec: chaining, padding and hex *)

Section Chaining.
Variables E D : Aes.block -> Aes.block.
Hypothesis D_E : forall b, D (E b) = b.
Hypothesis E_length : forall b, length (E b) = length b.

Lemma cbc_dec_cbc_enc bs : forall iv,
  Codec.cbc_dec D iv (Codec.cbc_enc E iv bs) = bs.
Proof.
  induction bs as [|b bs IH]; intros iv; simpl; [reflexivity|].
  rewrite D_E, xor_bytes_involutive, IH. reflexivity.
Qed.

Lemma cbc_enc_blocks bs : forall iv,
  Forall (fun b => length b = 16%nat) bs ->
  Forall (fun b => length b = 16%nat) (Codec.cbc_enc E iv bs).
Proof.
  induction bs as [|b bs IH]; intros iv Hall; simpl; [constructor|].
  inversion Hall; subst. constructor.
  - rewrite E_length, xor_bytes_length. assumption.
  - apply IH. assumption.
Qed.

Lemma cbc_enc_length bs : forall iv,
  length (Codec.cbc_enc E iv bs) = length bs.
Proof.
  induction bs as [|b bs IH]; intros iv; simpl; [reflexivity|].
  rewrite IH. reflexivity.
Qed.
End Chaining.

Lemma split16_concat bs :
  Forall (fun b => length b = 16%nat) bs -> Codec.split16 (concat bs) = bs.
Proof.
  induction 1 as [|b bs Hb _ IH]; [reflexivity|].
  do 16 (destruct b as [|? b]; [discriminate Hb|]).
  destruct b; [|discriminate Hb]. simpl. rewrite IH. reflexivity.
Qed.

Lemma concat_blocks_length (bs : list Aes.block) :
  Forall (fun b => length b = 16%nat) bs -> length (concat bs) = (16 * length bs)%nat.
Proof.
  induction 1 as [|b bs Hb _ IH]; [reflexivity|].
  simpl concat. rewrite length_app, IH, Hb. simpl length. lia.
Qed.

(** Splitting a buffer of [16 * n] bytes gives [n] whole blocks that
    concatenate to the buffer. *)
Lemma split16_whole n : forall l,
  length l = (16 * n)%nat ->
  Forall (fun b => length b = 16%nat) (Codec.split16 l)
  /\ concat (Codec.split16 l) = l /\ length (Codec.split16 l) = n.
Proof.
  induction n as [|n IH]; intros l Hlen.
  - destruct l; [simpl; auto|discriminate Hlen].
  - do 16 (destruct l as [|? l]; [simpl in Hlen; lia|]).
    destruct (IH l) as (Hall & Hcat & Hn); [simpl in Hlen; lia|].
    change (Codec.split16 (a :: a0 :: a1 :: a2 :: a3 :: a4 :: a5 :: a6 :: a7 :: a8
                             :: a9 :: a10 :: a11 :: a12 :: a13 :: a14 :: l))
      with ([a; a0; a1; a2; a3; a4; a5; a6; a7; a8; a9; a10; a11; a12; a13; a14]
              :: Codec.split16 l).
    repeat split.
    + constructor; [reflexivity|exact Hall].
    + simpl. rewrite Hcat. reflexivity.
    + simpl. rewrite Hn. reflexivity.
Qed.

Lemma pkcs7_pad_length p :
  exists n, length (Codec.pkcs7_pad p) = (16 * S n)%nat.
Proof.
  unfold Codec.pkcs7_pad. rewrite length_app, repeat_length.
  exists (length p / 16)%nat.
  pose proof (Nat.div_mod_eq (length p) 16).
  pose proof (Nat.mod_upper_bound (length p) 16). lia.
Qed.

Lemma pkcs7_unpad_repeat p c n :
  nat_of_ascii c = S n -> (S n <= 16)%nat ->
  Codec.pkcs7_unpad (p ++ repeat c (S n)) = Some p.
Proof.
  intros Hc Hn.
  assert (Hrev : rev (p ++ repeat c (S n)) = c :: (repeat c n ++ rev p)).
  { rewrite rev_app_distr, rev_repeat. reflexivity. }
  unfold Codec.pkcs7_unpad. rewrite Hrev. cbv beta iota.
  rewrite Hc, length_app, repeat_length.
  replace (length p + S n - S n)%nat with (length p) by lia.
  replace ((1 <=? S n)%nat && (S n <=? 16)%nat && (S n <=? length p + S n)%nat)%bool
    with true.
  2:{ symmetry. rewrite !andb_true_iff, !Nat.leb_le. lia. }
  rewrite skipn_app, skipn_all, Nat.sub_diag.
  rewrite firstn_app, firstn_all, Nat.sub_diag.
  change (skipn 0 (repeat c (S n))) with (repeat c (S n)).
  change (firstn 0 (repeat c (S n))) with (@nil ascii).
  rewrite app_nil_r. change ([] ++ repeat c (S n)) with (repeat c (S n)).
  replace (forallb (Ascii.eqb c) (repeat c (S n))) with true; [reflexivity|].
  symmetry. apply forallb_forall. intros x Hx.
  apply repeat_spec in Hx. subst x. apply Ascii.eqb_refl.
Qed.

Lemma pkcs7_unpad_pad p : Codec.pkcs7_unpad (Codec.pkcs7_pad p) = Some p.
Proof.
  unfold Codec.pkcs7_pad.
  pose proof (Nat.mod_upper_bound (length p) 16 ltac:(lia)) as Hm.
  destruct (16 - length p mod 16)%nat as [|n] eqn:En; [lia|].
  apply pkcs7_unpad_repeat; [|lia].
  apply nat_ascii_embedding. lia.
Qed.

Lemma hex_decode_byte c s :
  hex_decode (hex_digit (N_of_ascii c / 16) :: hex_digit (N_of_ascii c mod 16) :: s)
  = c :: hex_decode s.
Proof.
  destruct c as [b0 b1 b2 b3 b4 b5 b6 b7].
  destruct b0, b1, b2, b3, b4, b5, b6, b7; reflexivity.
Qed.

Lemma hex_decode_encode l : hex_decode (hex_encode l) = l.
Proof.
  induction l as [|c l IH]; [reflexivity|].
  simpl hex_encode. rewrite hex_decode_byte, IH. reflexivity.
Qed.

(** The ciphertext of [n] padded blocks is [16 * n] bytes long. *)
Lemma encrypt_bytes_length key iv pt :
  exists n, length (Codec.encrypt_bytes key iv pt) = (16 * S n)%nat.
Proof.
  destruct (pkcs7_pad_length pt) as [n Hlen]. exists n.
  destruct (split16_whole (S n) _ Hlen) as (Hall & _ & Hn).
  unfold Codec.encrypt_bytes.
  rewrite concat_blocks_length.
  - rewrite cbc_enc_length, Hn. reflexivity.
  - apply cbc_enc_blocks; [apply encrypt_block_length|exact Hall].
Qed.

Lemma decrypt_bytes_encrypt_bytes key iv pt :
  Codec.decrypt_bytes key iv (Codec.encrypt_bytes key iv pt) = Some pt.
Proof.
  destruct (encrypt_bytes_length key iv pt) as [n Hct].
  destruct (pkcs7_pad_length pt) as [n' Hlen].
  destruct (split16_whole (S n') _ Hlen) as (Hall & Hcat & _).
  unfold Codec.decrypt_bytes. rewrite Hct.
  replace (Nat.eqb (16 * S n) 0) with false by (symmetry; apply Nat.eqb_neq; lia).
  rewrite (Nat.mul_comm 16), Nat.Div0.mod_mul. simpl orb. cbv iota.
  unfold Codec.encrypt_bytes. rewrite split16_concat.
  - rewrite cbc_dec_cbc_enc by apply decrypt_block_encrypt_block.
    rewrite Hcat. apply pkcs7_unpad_pad.
  - apply cbc_enc_blocks; [apply encrypt_block_length|exact Hall].
Qed.

(** Data that is empty or not a whole number of blocks is refused. *)
Lemma decrypt_bytes_partial key iv ct :
  length ct = 0%nat \/ (length ct mod 16)%nat <> 0%nat ->
  Codec.decrypt_bytes key iv ct = None.
Proof.
  intros H. unfold Codec.decrypt_bytes.
  destruct H as [H|H].
  - rewrite H. reflexivity.
  - apply Nat.eqb_neq in H. rewrite H, orb_true_r. reflexivity.
Qed.

(** *** Chaining without authentication: the first block can be replaced *)

Lemma xorb_cancel a x y : xorb (xorb a x) y = a -> x = y.
Proof. destruct a, x, y; simpl; congruence. Qed.

Lemma bxor_cancel a x y : Aes.bxor (Aes.bxor a x) y = a -> x = y.
Proof.
  destruct a as [a0 a1 a2 a3 a4 a5 a6 a7], x as [x0 x1 x2 x3 x4 x5 x6 x7],
           y as [y0 y1 y2 y3 y4 y5 y6 y7].
  simpl. intros H. injection H as H0 H1 H2 H3 H4 H5 H6 H7.
  f_equal; eapply xorb_cancel; eassumption.
Qed.

Lemma xor_bytes_cancel b : forall x y,
  length x = length b -> length y = length b ->
  Aes.xor_bytes (Aes.xor_bytes b x) y = b -> x = y.
Proof.
  induction b as [|a b IH]; intros [|x0 x] [|y0 y] Hx Hy H;
    try discriminate; [reflexivity|].
  simpl in H. injection H as Ha Hb.
  f_equal; [exact (bxor_cancel _ _ _ Ha)|].
  apply IH; simpl in Hx, Hy; congruence.
Qed.

Lemma split16_app b l :
  length b = 16%nat -> Codec.split16 (b ++ l) = b :: Codec.split16 l.
Proof.
  intros Hb. do 16 (destruct b as [|? b]; [discriminate Hb|]).
  destruct b; [reflexivity|discriminate Hb].
Qed.

Lemma pkcs7_pad_shape p :
  exists c n, Codec.pkcs7_pad p = p ++ repeat c (S n)
              /\ nat_of_ascii c = S n /\ (S n <= 16)%nat.
Proof.
  unfold Codec.pkcs7_pad.
  pose proof (Nat.mod_upper_bound (length p) 16 ltac:(lia)) as Hm.
  destruct (16 - length p mod 16)%nat as [|n] eqn:En; [lia|].
  exists (ascii_of_nat (S n)), n. repeat split; [|lia].
  apply nat_ascii_embedding. lia.
Qed.

(** A buffer of at least 32 bytes starts with two whole blocks. *)
Lemma two_blocks (p : bytes) :
  (32 <= length p)%nat ->
  exists b0 b1 rest, p = b0 ++ b1 ++ rest
                     /\ length b0 = 16%nat /\ length b1 = 16%nat.
Proof.
  intros Hlen.
  exists (firstn 16 p), (firstn 16 (skipn 16 p)), (skipn 16 (skipn 16 p)).
  rewrite !firstn_skipn. repeat split.
  - rewrite length_firstn. lia.
  - rewrite length_firstn, length_skipn. lia.
Qed.

(** Replacing the first ciphertext block of a text of at least 32 bytes
    by any other block gives data that decrypts, and to another text. *)
Lemma first_block_is_malleable key iv pt c0' :
  (32 <= length pt)%nat ->
  length c0' = 16%nat ->
  c0' <> firstn 16 (Codec.encrypt_bytes key iv pt) ->
  exists pt',
    Codec.decrypt_bytes key iv (c0' ++ skipn 16 (Codec.encrypt_bytes key iv pt))
    = Some pt'
    /\ pt' <> pt.
Proof.
  intros Hlen Hc0' Hne.
  destruct (two_blocks pt Hlen) as (b0 & b1 & pt2 & Hpt & Hb0 & Hb1).
  destruct (pkcs7_pad_shape pt) as (c & n & Hpad & Hc & Hn).
  destruct (pkcs7_pad_length pt) as [k Hk].
  set (tail := pt2 ++ repeat c (S n)).
  assert (Hpadded : Codec.pkcs7_pad pt = b0 ++ b1 ++ tail).
  { rewrite Hpad, Hpt at 1. unfold tail. rewrite <- !app_assoc. reflexivity. }
  assert (Htail : exists j, length tail = (16 * j)%nat).
  { rewrite Hpadded, !length_app, Hb0, Hb1 in Hk. exists (k - 1)%nat. lia. }
  destruct Htail as [j Hj].
  destruct (split16_whole j tail Hj) as (Hall & Hcat & _).
  set (c0 := Aes.encrypt_block key (Aes.xor_bytes b0 iv)).
  set (c1 := Aes.encrypt_block key (Aes.xor_bytes b1 c0)).
  set (rest := Codec.cbc_enc (Aes.encrypt_block key) c1 (Codec.split16 tail)).
  assert (Hct : Codec.encrypt_bytes key iv pt = c0 ++ c1 ++ concat rest).
  { unfold Codec.encrypt_bytes. rewrite Hpadded.
    rewrite (split16_app b0 _ Hb0), (split16_app b1 _ Hb1). reflexivity. }
  assert (Hc0 : length c0 = 16%nat).
  { unfold c0. rewrite encrypt_block_length, xor_bytes_length. exact Hb0. }
  assert (Hc1 : length c1 = 16%nat).
  { unfold c1. rewrite encrypt_block_length, xor_bytes_length. exact Hb1. }
  assert (Hrest : Forall (fun b => length b = 16%nat) rest).
  { apply cbc_enc_blocks; [apply encrypt_block_length|exact Hall]. }
  assert (HD1 : Aes.decrypt_block key c1 = Aes.xor_bytes b1 c0)
    by (unfold c1; apply decrypt_block_encrypt_block).
  assert (Hdec : Codec.cbc_dec (Aes.decrypt_block key) c1 rest = Codec.split16 tail)
    by (unfold rest; apply cbc_dec_cbc_enc; apply decrypt_block_encrypt_block).
  clearbody rest. clearbody c1. clearbody c0.
  rewrite Hct in Hne |- *. clear Hct.
  rewrite firstn_app, Hc0, Nat.sub_diag, firstn_all2, app_nil_r in Hne by lia.
  rewrite skipn_app, Hc0, Nat.sub_diag, skipn_all2 by lia.
  change (skipn 0 (c1 ++ concat rest)) with (c1 ++ concat rest).
  rewrite app_nil_l.
  exists (Aes.xor_bytes (Aes.decrypt_block key c0') iv ++ Aes.xor_bytes (Aes.xor_bytes b1 c0) c0' ++ pt2).
  split.
  - unfold Codec.decrypt_bytes.
    rewrite !length_app, Hc0', Hc1, (concat_blocks_length rest Hrest).
    replace (16 + (16 + 16 * length rest))%nat with ((2 + length rest) * 16)%nat by lia.
    rewrite Nat.Div0.mod_mul.
    replace (Nat.eqb ((2 + length rest) * 16) 0) with false
      by (symmetry; apply Nat.eqb_neq; lia).
    cbv beta iota delta [orb negb Nat.eqb].
    rewrite (split16_app c0' _ Hc0'), (split16_app c1 _ Hc1), (split16_concat rest Hrest).
    cbn [Codec.cbc_dec]. rewrite Hdec, HD1.
    cbn [concat]. rewrite Hcat. unfold tail.
    rewrite !app_assoc. apply pkcs7_unpad_repeat; assumption.
  - intros Heq. apply Hne. symmetry.
    rewrite Hpt in Heq. rewrite !app_assoc in Heq.
    apply app_inv_tail in Heq.
    apply app_inj_2 in Heq; [|rewrite !xor_bytes_length; congruence].
    destruct Heq as [_ Heq].
    apply (xor_bytes_cancel b1); congruence.
Qed.

(** ** Reasoning about computations *)

Lemma returns_into_bind {A B} (c : M A) (k : A -> M B) P :
  (forall a, returns_into (k a) P) -> returns_into (bind c k) P.
Proof.
  intros Hk m r m' Hrun Hok. unfold bind in Hrun.
  destruct (c m) as [[a|e] m1].
  - exact (Hk a m1 r m' Hrun Hok).
  - inversion Hrun; subst. discriminate.
Qed.


Lemma returns_into_clear uid : returns_into (clearUserState uid) (cleared uid).
Proof.
  intros m r m' Hrun _. unfold clearUserState in Hrun. inversion Hrun; subst.
  unfold cleared; simpl. apply lookup_delete_eq.
Qed.

Lemma returns_into_then_clear {A} (c : M A) uid :
  returns_into (c ;;; clearUserState uid) (cleared uid).
Proof. apply returns_into_bind. intros _. apply returns_into_clear. Qed.

Create HintDb flow.
#[local] Hint Resolve returns_into_clear returns_into_then_clear : flow.



Lemma ctx_reply_delivered w text m :
  replies_delivered w -> exists id m', ctx_reply w text m = (Ok id, m').
Proof.
  intros Hd. unfold ctx_reply. specialize (Hd (reply_count m) text).
  destruct (reply_result w (reply_count m) text); [eauto | discriminate].
Qed.

(** A handler of the shape [reply; clearUserState] returns once the
    reply is delivered. *)
Lemma reply_then_clear_ok w text uid m :
  replies_delivered w ->
  exists m', (ctx_reply w text ;;; clearUserState uid) m = (Ok tt, m').
Proof.
  intros Hd. destruct (ctx_reply_delivered w text m Hd) as (id & m1 & H1).
  unfold bind. rewrite H1. unfold clearUserState. eauto.
Qed.

Lemma on_message_returns w uid text m :
  replies_delivered w -> fst (on_message w uid text m) = Ok tt.
Proof.
  intros Hd. unfold on_message, bind at 1, getUserState, try_catch.
  destruct (run_route _ _ _ _ _) as [[[]|e] m1]; [reflexivity|].
  destruct (reply_then_clear_ok w msg_handler_error uid m1 Hd) as (m2 & H2).
  rewrite H2. reflexivity.
Qed.

(** With a flow active the handler is [executeTrade] on the state it
    read, whatever the text. *)
Lemma on_message_flow w uid text st m :
  userStates m !! uid = Some st ->
  flow_active st = true ->
  on_message w uid text m
  = try_catch (executeTrade w uid text (flow_type st) st) (handler_catch w uid) m.
Proof.
  intros Hst Hflow.
  unfold on_message, bind at 1, getUserState. rewrite Hst. simpl.
  unfold try_catch, route, flow_type. rewrite Hflow.
  destruct (truthy_flag (buyRequested st)); simpl;
    unfold handleBuy, handleSell, bind at 1, getUserState; rewrite Hst; reflexivity.
Qed.


(** An update whose handler returns is not seen by [bot.catch]. *)
Lemma handle_update_returned w uid u m :
  is_ok (fst (dispatch w uid u m)) = true ->
  handle_update w uid u m = dispatch w uid u m.
Proof.
  intros Hok. unfold handle_update, try_catch.
  destruct (dispatch w uid u m) as [[[]|e] m']; [reflexivity|discriminate Hok].
Qed.

(** ** Running the amount step *)

Lemma ctx_reply_run w text m :
  replies_delivered w ->
  exists id, ctx_reply w text m = (Ok id, log (EvReply text true) m).
Proof.
  intros Hd. unfold ctx_reply. specialize (Hd (reply_count m) text).
  destruct (reply_result w (reply_count m) text); [eauto | discriminate].
Qed.

Lemma sendReply_run w uid text m :
  replies_delivered w ->
  exists id m', sendReply w uid text m = (Ok id, m')
    /\ trace m' = trace m ++ [EvReply text true] /\ db m' = db m.
Proof.
  intros Hd. destruct (ctx_reply_run w text m Hd) as [id Hr].
  unfold sendReply, try_catch, bind at 1. rewrite Hr.
  unfold bind, updateUserState, ret. simpl. eauto.
Qed.

Lemma submit_trade_run w uid t addr amount a m :
  replies_delivered w ->
  exists m', submit_trade w uid t addr amount a m = (Ok tt, m')
    /\ trace m' = trace m
         ++ EvCreateTrade addr amount (fst (tradeType t a)) (snd (tradeType t a))
         :: after_submission w t addr amount (fst (tradeType t a)) (snd (tradeType t a))
    /\ db m' = db m.
Proof.
  intros Hd. unfold submit_trade, after_submission, try_catch, bind at 1.
  unfold call_createTrade, bind at 1, emit, lift.
  set (m1 := log _ m).
  destruct (createTrade w addr amount _ _) as [trade|e].
  - unfold bind at 1, call_wait, bind at 1, emit, lift.
    set (m2 := log _ m1).
    destruct (trade_wait w trade) as [u|e].
    + destruct (sendReply_run w uid (msg_success t (tx_link trade)) m2 Hd)
        as (id & m3 & Hs & Ht & Hdb).
      unfold bind. rewrite Hs. unfold ret. eexists; split; [reflexivity|].
      rewrite Ht. subst m2 m1. simpl. rewrite <- !app_assoc. auto.
    + destruct (ctx_reply_run w (msg_trade_error t) m2 Hd) as [id Hr].
      unfold bind. rewrite Hr. unfold ret. eexists; split; [reflexivity|].
      subst m2 m1. simpl. rewrite <- !app_assoc. auto.
  - destruct (ctx_reply_run w (msg_trade_error t) m1 Hd) as [id Hr].
    unfold bind. rewrite Hr. unfold ret. eexists; split; [reflexivity|].
    subst m1. simpl. rewrite <- !app_assoc. auto.
Qed.

(** The amount step once the amount has parsed, the address is resolved
    and the balance is known. *)
Lemma amount_step_run w uid text t a m amount addr m1 bal :
  replies_delivered w ->
  new_Decimal w text = Ok amount ->
  getOrCreateAddress w uid m = (Ok addr, m1) ->
  getBalance w addr (spend_asset t a) = Ok bal ->
  exists m', amount_step w uid text t a m = (Ok tt, m')
    /\ userStates m' !! uid = None
    /\ db m' = db m1
    /\ trace m' = trace m1 ++ EvGetBalance addr (spend_asset t a) ::
         (if rejected amount bal then [EvReply msg_insufficient true]
          else EvReply (msg_initiating t) true
               :: EvCreateTrade addr amount (fst (tradeType t a)) (snd (tradeType t a))
               :: after_submission w t addr amount
                    (fst (tradeType t a)) (snd (tradeType t a))).
Proof.
  intros Hd Hamt Haddr Hbal.
  unfold amount_step, bind at 1, lift. rewrite Hamt.
  unfold bind at 1. rewrite Haddr.
  unfold bind at 1, call_getBalance, bind at 1, emit, lift. rewrite Hbal.
  set (m2 := log _ m1). fold (rejected amount bal).
  destruct (rejected amount bal).
  - destruct (ctx_reply_run w msg_insufficient m2 Hd) as [id Hr].
    unfold bind. rewrite Hr. unfold clearUserState. eexists; split; [reflexivity|].
    simpl. rewrite lookup_delete_eq, <- app_assoc. auto.
  - destruct (sendReply_run w uid (msg_initiating t) m2 Hd)
      as (id & m3 & Hs & Ht & Hdb).
    unfold bind at 1. rewrite Hs.
    destruct (submit_trade_run w uid t addr amount a m3 Hd) as (m4 & Hsub & Ht4 & Hdb4).
    unfold bind. rewrite Hsub. unfold clearUserState.
    eexists; split; [reflexivity|]. simpl.
    rewrite lookup_delete_eq, Ht4, Ht, Hdb4, Hdb. subst m2. simpl.
    rewrite <- !app_assoc. auto.
Qed.

Lemma events_since_app m0 m' l :
  trace m' = trace m0 ++ l -> events_since m0 m' = l.
Proof.
  intros H. unfold events_since. rewrite H.
  rewrite skipn_app, skipn_all, Nat.sub_diag. reflexivity.
Qed.

Lemma truthy_str_Some (a : str) : a <> "" -> truthy_str (Some a) = true.
Proof.
  intros Hne. simpl. destruct (Js.eqb a "") eqn:E; [|reflexivity].
  apply str_eqb_eq in E. contradiction.
Qed.

(** The handler in the amount step, once the amount has parsed, the
    address is resolved and the balance is known. *)
Lemma on_message_amount_run w uid text st a m amount addr m1 bal :
  userStates m !! uid = Some st ->
  flow_active st = true ->
  asset st = Some a -> a <> "" ->
  replies_delivered w ->
  new_Decimal w text = Ok amount ->
  getOrCreateAddress w uid m = (Ok addr, m1) ->
  getBalance w addr (spend_asset (flow_type st) a) = Ok bal ->
  let t := flow_type st in
  exists m', on_message w uid text m = (Ok tt, m')
    /\ userStates m' !! uid = None
    /\ db m' = db m1
    /\ events_since m1 m' = EvGetBalance addr (spend_asset t a) ::
         (if rejected amount bal then [EvReply msg_insufficient true]
          else EvReply (msg_initiating t) true
               :: EvCreateTrade addr amount (fst (tradeType t a)) (snd (tradeType t a))
               :: after_submission w t addr amount
                    (fst (tradeType t a)) (snd (tradeType t a))).
Proof.
  intros Hst Hflow Hasset Hne Hd Hamt Haddr Hbal t.
  rewrite (on_message_flow w uid text st m Hst Hflow).
  unfold try_catch at 1, executeTrade, try_catch at 1.
  rewrite Hasset, (truthy_str_Some a Hne). simpl.
  destruct (amount_step_run w uid text (flow_type st) a m amount addr m1 bal
              Hd Hamt Haddr Hbal) as (m' & Hrun & Hclr & Hdb & Htr).
  rewrite Hrun. exists m'. repeat split; try assumption.
  apply events_since_app. exact Htr.
Qed.

(** The same, with the whole trace. *)
Lemma on_message_amount_trace w uid text st a m amount addr m1 bal :
  userStates m !! uid = Some st ->
  flow_active st = true ->
  asset st = Some a -> a <> "" ->
  replies_delivered w ->
  new_Decimal w text = Ok amount ->
  getOrCreateAddress w uid m = (Ok addr, m1) ->
  getBalance w addr (spend_asset (flow_type st) a) = Ok bal ->
  let t := flow_type st in
  exists m', on_message w uid text m = (Ok tt, m')
    /\ trace m' = trace m1 ++ EvGetBalance addr (spend_asset t a) ::
         (if rejected amount bal then [EvReply msg_insufficient true]
          else EvReply (msg_initiating t) true
               :: EvCreateTrade addr amount (fst (tradeType t a)) (snd (tradeType t a))
               :: after_submission w t addr amount
                    (fst (tradeType t a)) (snd (tradeType t a))).
Proof.
  intros Hst Hflow Hasset Hne Hd Hamt Haddr Hbal t.
  rewrite (on_message_flow w uid text st m Hst Hflow).
  unfold try_catch at 1, executeTrade, try_catch at 1.
  rewrite Hasset, (truthy_str_Some a Hne). simpl.
  destruct (amount_step_run w uid text (flow_type st) a m amount addr m1 bal
              Hd Hamt Haddr Hbal) as (m' & Hrun & Hclr & Hdb & Htr).
  rewrite Hrun. exists m'. split; [reflexivity|exact Htr].
Qed.

Lemma insufficient_not_in_submission w t addr amount f a :
  ~ In (EvReply msg_insufficient true)
       (EvReply (msg_initiating t) true :: EvCreateTrade addr amount f a
          :: after_submission w t addr amount f a).
Proof.
  unfold after_submission.
  destruct (createTrade w addr amount f a) as [trade|e];
    [destruct (trade_wait w trade)|]; destruct t; simpl;
    intros H; repeat (destruct H as [H|H]; [discriminate H|]); exact H.
Qed.

(** C2. A buy flow in the amount step, with an amount that parses, a
    resolved address and a known ETH balance: the insufficient-balance
    reply is sent exactly when the amount is NaN or greater than the
    balance, and then nothing is submitted; the comparison is the order of
    the rationals the decimals denote.  Otherwise a trade of exactly that
    amount from ETH to the stored asset is submitted; when the provider
    accepts and settles it, the settlement is awaited and the success
    reply with the transaction link is sent.  The state is cleared in
    every case. *)
Theorem buy_amount_validation w uid text st a amount addr m m1 bal :
  userStates m !! uid = Some st ->
  truthy_flag (buyRequested st) = true ->
  asset st = Some a -> a <> "" ->
  replies_delivered w ->
  new_Decimal w text = Ok amount ->
  getOrCreateAddress w uid m = (Ok addr, m1) ->
  getBalance w addr Coinbase_assets_Eth = Ok bal ->
  let m' := snd (on_message w uid text m) in
  let new := events_since m1 m' in
  (In (EvReply msg_insufficient true) new <->
     isNaN amount = true \/ greaterThan amount bal = true)
  /\ (rejected amount bal = true ->
      new = [EvGetBalance addr Coinbase_assets_Eth; EvReply msg_insufficient true])
  /\ (rejected amount bal = false ->
      new = [EvGetBalance addr Coinbase_assets_Eth;
             EvReply (msg_initiating buy) true;
             EvCreateTrade addr amount Coinbase_assets_Eth a]
            ++ after_submission w buy addr amount Coinbase_assets_Eth a)
  /\ (forall trade,
        createTrade w addr amount Coinbase_assets_Eth a = Ok trade ->
        trade_wait w trade = Ok tt ->
        after_submission w buy addr amount Coinbase_assets_Eth a
        = [EvTradeWait trade; EvReply (msg_success buy (tx_link trade)) true])
  /\ (forall c1 e1 c2 e2, amount = DFin c1 e1 -> bal = DFin c2 e2 ->
        (rejected amount bal = true <-> (to_Q c2 e2 < to_Q c1 e1)%Q))
  /\ userStates m' !! uid = None.
Proof.
  intros Hst Hbuy Hasset Hne Hd Hamt Haddr Hbal m' new.
  assert (Hflow : flow_active st = true) by (unfold flow_active; rewrite Hbuy; reflexivity).
  assert (Ht : flow_type st = buy) by (unfold flow_type; rewrite Hbuy; reflexivity).
  destruct (on_message_amount_run w uid text st a m amount addr m1 bal
              Hst Hflow Hasset Hne Hd Hamt Haddr) as (m2 & Hrun & Hclr & _ & Hev).
  { rewrite Ht. exact Hbal. }
  rewrite Ht in Hev. simpl in Hev.
  assert (Hm' : m' = m2) by (unfold m'; rewrite Hrun; reflexivity).
  assert (Hnew : new = events_since m1 m2) by (unfold new; rewrite Hm'; reflexivity).
  rewrite Hm', Hnew, Hev. clear Hnew Hm' new m'.
  assert (Hrej : rejected amount bal = true <->
                 isNaN amount = true \/ greaterThan amount bal = true).
  { unfold rejected. rewrite orb_true_iff. reflexivity. }
  repeat split.
  - intros Hin. apply Hrej. destruct (rejected amount bal); [reflexivity|].
    destruct Hin as [Hin|Hin]; [discriminate Hin|].
    destruct (insufficient_not_in_submission _ _ _ _ _ _ Hin).
  - intros Hr. apply Hrej in Hr. rewrite Hr. simpl. auto.
  - intros ->. reflexivity.
  - intros ->. reflexivity.
  - intros trade Hc Hw. unfold after_submission. rewrite Hc, Hw. reflexivity.
  - intros Hr. subst amount bal. unfold rejected in Hr. simpl in Hr.
    apply greaterThan_exact. exact Hr.
  - intros Hlt. subst amount bal. unfold rejected. simpl.
    apply greaterThan_exact. exact Hlt.
  - exact Hclr.
Qed.

Lemma buy_amount_validation_witness :
  events_since
    (snd (getOrCreateAddress (Demo.demo_world (DFin 20 (-1))) 7 demo_amount_machine))
    (snd (on_message (Demo.demo_world (DFin 20 (-1))) 7 "1.0" demo_amount_machine))
  = [EvGetBalance (mkAddress "0xabc") "eth";
     EvReply "Initiating buy..." true;
     EvCreateTrade (mkAddress "0xabc") (DFin 10 (-1)) "eth" "usdc";
     EvTradeWait (mkTrade "https://basescan.org/tx/0x1");
     EvReply "Successfully completed buy: [Basescan Link](https://basescan.org/tx/0x1)"
       true].
Proof.
  pose proof (buy_amount_validation (Demo.demo_world (DFin 20 (-1))) 7 "1.0"
                demo_amount_state "usdc" (DFin 10 (-1)) (mkAddress "0xabc")
                demo_amount_machine
                (snd (getOrCreateAddress (Demo.demo_world (DFin 20 (-1))) 7
                        demo_amount_machine))
                (DFin 20 (-1))
                eq_refl eq_refl eq_refl ltac:(discriminate)
                ltac:(intros n text; reflexivity) eq_refl eq_refl eq_refl)
    as (_ & _ & Hsub & _).
  rewrite (Hsub eq_refl). reflexivity.
Defined.

(** C9. In the amount step of either flow, a negative amount passes the
    validation against any balance that is not negative: it is not NaN and
    not greater than the balance, so a trade carrying the negative amount
    is handed to the provider and no insufficient-balance reply is sent. *)
Theorem negative_amount_is_submitted w uid text st a amount addr m m1 bal :
  userStates m !! uid = Some st ->
  flow_active st = true ->
  asset st = Some a -> a <> "" ->
  replies_delivered w ->
  new_Decimal w text = Ok amount ->
  isNegative amount = true ->
  getOrCreateAddress w uid m = (Ok addr, m1) ->
  getBalance w addr (spend_asset (flow_type st) a) = Ok bal ->
  isNegative bal = false ->
  let new := events_since m1 (snd (on_message w uid text m)) in
  isNaN amount = false
  /\ greaterThan amount bal = false
  /\ In (EvCreateTrade addr amount (fst (tradeType (flow_type st) a))
           (snd (tradeType (flow_type st) a))) new
  /\ ~ In (EvReply msg_insufficient true) new.
Proof.
  intros Hst Hflow Hasset Hne Hd Hamt Hneg Haddr Hbal Hbneg new.
  pose proof (negative_not_rejected amount bal Hneg Hbneg) as Hrej.
  destruct (on_message_amount_run w uid text st a m amount addr m1 bal
              Hst Hflow Hasset Hne Hd Hamt Haddr Hbal) as (m2 & Hrun & _ & _ & Hev).
  assert (Hnew : new = events_since m1 m2) by (unfold new; rewrite Hrun; reflexivity).
  rewrite Hnew, Hev, Hrej. clear Hnew new.
  unfold rejected in Hrej. apply orb_false_iff in Hrej. destruct Hrej as [Hnan Hgt].
  repeat split; try assumption.
  - right. right. left. reflexivity.
  - intros [Hin|Hin]; [discriminate Hin|].
    exact (insufficient_not_in_submission _ _ _ _ _ _ Hin).
Qed.

Lemma negative_amount_is_submitted_witness :
  In (EvCreateTrade (mkAddress "0xabc") (DFin (-35) (-1)) "eth" "usdc")
     (events_since
        (snd (getOrCreateAddress (Demo.demo_world (DFin 5 (-1))) 7 demo_amount_machine))
        (snd (on_message (Demo.demo_world (DFin 5 (-1))) 7 "-3.5" demo_amount_machine))).
Proof.
  exact (proj1 (proj2 (proj2
    (negative_amount_is_submitted (Demo.demo_world (DFin 5 (-1))) 7 "-3.5"
       demo_amount_state "usdc" (DFin (-35) (-1)) (mkAddress "0xabc")
       demo_amount_machine
       (snd (getOrCreateAddress (Demo.demo_world (DFin 5 (-1))) 7 demo_amount_machine))
       (DFin 5 (-1))
       eq_refl eq_refl eq_refl ltac:(discriminate)
       ltac:(intros n text; reflexivity) eq_refl eq_refl eq_refl eq_refl eq_refl)))).
Defined.

(** ** The asset step and the routing of messages *)

Lemma sendReply_full w uid text m :
  replies_delivered w ->
  exists id, sendReply w uid text m
    = (Ok id, mkMachine (<[uid := spread (state_of m uid) (message_patch id)]>
                           (userStates m))
                        (db m) (trace m ++ [EvReply text true])).
Proof.
  intros Hd. destruct (ctx_reply_run w text m Hd) as [id Hr].
  exists id. unfold sendReply, try_catch, bind at 1. rewrite Hr. reflexivity.
Qed.

(** The asset step when the text is not a refused ["eth"]: the text,
    lower-cased, becomes the asset and the amount is asked for. *)
Lemma asset_step_run w uid text t m :
  replies_delivered w ->
  (Js.eqb (toLowerCase w text) "eth" && is_sell t)%bool = false ->
  exists id m', asset_step w uid text t m = (Ok tt, m')
    /\ userStates m' !! uid
       = Some (spread (spread (state_of m uid) (asset_patch (toLowerCase w text)))
                 (message_patch id))
    /\ db m' = db m
    /\ trace m' = trace m ++ [EvReply (amount_prompt t) true].
Proof.
  intros Hd Hne. unfold asset_step. rewrite Hne.
  unfold bind at 1, updateUserState. fold (state_of m uid).
  set (m1 := mkMachine _ _ _).
  destruct (sendReply_full w uid (amount_prompt t) m1 Hd) as [id Hs].
  unfold bind, ret. rewrite Hs. exists id. eexists. split; [reflexivity|].
  simpl. rewrite lookup_insert_eq. unfold state_of at 1. subst m1. simpl.
  rewrite lookup_insert_eq. auto.
Qed.

Lemma route_flow st text :
  flow_active st = true ->
  route st text = if truthy_flag (buyRequested st) then ToHandleBuy else ToHandleSell.
Proof. intros H. unfold route. rewrite H. reflexivity. Qed.

(** ** Selling the quote currency *)

Lemma on_message_sell_from_idle w uid m :
  replies_delivered w ->
  idle (state_of m uid) ->
  exists id,
    on_message w uid "Sell" m
    = (Ok tt,
       mkMachine
         (<[uid := spread (spread (state_of m uid) sell_patch) (message_patch id)]>
            (userStates m))
         (db m) (trace m ++ [EvReply msg_ask_sell true])).
Proof.
  intros Hd [Hflow _].
  unfold on_message, bind at 1, getUserState. fold (state_of m uid).
  unfold route. rewrite Hflow. simpl.
  unfold try_catch, handleInitialSell, bind at 1, updateUserState.
  fold (state_of m uid). set (m0 := mkMachine _ _ _).
  destruct (sendReply_full w uid msg_ask_sell m0 Hd) as [id Hs].
  unfold bind, ret. rewrite Hs. exists id. subst m0. simpl.
  unfold state_of at 1. simpl. rewrite lookup_insert_eq. simpl.
  rewrite insert_insert_eq. reflexivity.
Qed.

(** C7. From Idle, ["Sell"] followed by a text that lower-cases to
    ["eth"]: after the first message the flow waits for the asset (step
    ["asset"], no asset stored); the second message is answered with the
    quote-currency refusal and the state is deleted.  The step never
    becomes ["amount"] and no asset is ever stored. *)
Theorem sell_then_eth_is_refused w uid t m :
  replies_delivered w ->
  idle (state_of m uid) ->
  toLowerCase w t = "eth" ->
  let m1 := snd (on_message w uid "Sell" m) in
  let m2 := snd (on_message w uid t m1) in
  (exists st1, userStates m1 !! uid = Some st1
     /\ sellRequested st1 = Some true /\ step st1 = Some "asset" /\ asset st1 = None)
  /\ fst (on_message w uid t m1) = Ok tt
  /\ userStates m2 !! uid = None
  /\ events_since m m2
     = [EvReply msg_ask_sell true; EvReply msg_cannot_sell_eth true].
Proof.
  intros Hd Hidle Hlow m1 m2.
  destruct (on_message_sell_from_idle w uid m Hd Hidle) as [id Hsell].
  destruct Hidle as [Hflow Hasset].
  set (st1 := spread (spread (state_of m uid) sell_patch) (message_patch id)).
  assert (Hm1 : userStates m1 !! uid = Some st1).
  { unfold m1. rewrite Hsell. simpl. apply lookup_insert_eq. }
  assert (Hbuy : truthy_flag (buyRequested st1) = false).
  { unfold st1; simpl. unfold flow_active in Hflow.
    apply orb_false_iff in Hflow. apply Hflow. }
  assert (Hflow1 : flow_active st1 = true).
  { unfold flow_active. rewrite Hbuy. reflexivity. }
  assert (Hasset1 : asset st1 = None) by (unfold st1; simpl; exact Hasset).
  assert (Htype : flow_type st1 = sell) by (unfold flow_type; rewrite Hbuy; reflexivity).
  split; [exists st1; repeat split; auto|].
  assert (Hrun : on_message w uid t m1
          = (Ok tt, mkMachine (delete uid (userStates m1)) (db m1)
                      (trace m1 ++ [EvReply msg_cannot_sell_eth true]))).
  { rewrite (on_message_flow w uid t st1 m1 Hm1 Hflow1).
    unfold try_catch, executeTrade. rewrite Hasset1, Htype. simpl.
    unfold try_catch, asset_step. rewrite Hlow. simpl.
    destruct (ctx_reply_run w msg_cannot_sell_eth m1 Hd) as [id2 Hr].
    unfold bind. rewrite Hr. reflexivity. }
  unfold m2. rewrite Hrun. simpl.
  split; [reflexivity|]. split; [apply lookup_delete_eq|].
  apply events_since_app. simpl. unfold m1. rewrite Hsell. simpl.
  rewrite <- app_assoc. reflexivity.
Qed.

Lemma sell_then_eth_is_refused_witness :
  events_since init_machine
    (snd (on_message (Demo.demo_world DNaN) 7 "ETH"
            (snd (on_message (Demo.demo_world DNaN) 7 "Sell" init_machine))))
  = [EvReply msg_ask_sell true; EvReply msg_cannot_sell_eth true].
Proof.
  exact (proj2 (proj2 (proj2
    (sell_then_eth_is_refused (Demo.demo_world DNaN) 7 "ETH" init_machine
       ltac:(intros n text; reflexivity) (conj eq_refl eq_refl) eq_refl)))).
Defined.

(** The texts that lower-case to ["eth"] include every spelling of it. *)
Lemma eth_in_any_case w :
  Forall (fun t => toLowerCase w t = "eth")
    ["eth"; "Eth"; "eTh"; "etH"; "ETh"; "EtH"; "eTH"; "ETH"].
Proof. repeat constructor. Qed.

(** ** The credential store *)

(** The load attempt reads the store once, may call the provider's
    import, and changes neither the store nor the conversation states. *)
Lemma load_wallet_effects w uid m :
  exists tail,
    snd (load_wallet w uid m)
    = mkMachine (userStates m) (db m) (trace m ++ EvDbGet uid :: tail)
    /\ no_creation tail /\ forallb (fun ev => negb (is_db_get ev)) tail = true.
Proof.
  unfold load_wallet, bind at 1, db_get, bind at 1, emit. simpl.
  destruct (db_get_fault w uid) as [e|].
  { exists []. repeat split. }
  destruct (db m !! uid) as [doc|].
  2:{ exists []. repeat split. }
  unfold bind at 1, lift.
  destruct (Codec.decrypt _ _ _) as [text|e].
  2:{ exists []. repeat split. }
  unfold bind at 1, call_JSON_parse.
  destruct (JSON_parse w text) as [d|].
  2:{ exists []. repeat split. }
  unfold ret at 1.
  unfold call_Wallet_import, bind, emit, lift. simpl.
  exists [EvWalletImport d]. unfold log. simpl. rewrite <- app_assoc.
  destruct (Wallet_import w d); repeat split.
Qed.

Lemma getOrCreateAddress_miss w uid m :
  cache_miss m uid ->
  getOrCreateAddress w uid m
  = (wallet <- try_catch (load_wallet w uid) (load_catch w uid) ;;
     updateUserState uid (address_patch (w_default wallet)) ;;;
     ret (w_default wallet)) m.
Proof.
  intros Hmiss. unfold cache_miss, state_of in Hmiss.
  unfold getOrCreateAddress, try_catch at 1, bind at 1, getUserState.
  rewrite Hmiss.
  match goal with |- (let (_, _) := ?c in _) = ?d => change d with c; destruct c as [[a|e] m'] end;
    reflexivity.
Qed.

(** A failure of the load attempt that is not marked not-found leaves
    [getOrCreateAddress] by the same error, with only the calls of the
    load attempt made. *)
Lemma getOrCreateAddress_rethrows w uid m e :
  cache_miss m uid ->
  fst (load_wallet w uid m) = Throw e ->
  is_not_found e = false ->
  getOrCreateAddress w uid m = (Throw e, snd (load_wallet w uid m)).
Proof.
  intros Hmiss Hload Hnf. rewrite (getOrCreateAddress_miss w uid m Hmiss).
  unfold bind at 1, try_catch, load_catch.
  destruct (load_wallet w uid m) as [r ml]. simpl in Hload. subst r.
  rewrite Hnf. reflexivity.
Qed.

Lemma no_creation_spec l :
  no_creation l ->
  ~ In EvWalletCreate l /\ forall id doc, ~ In (EvDbPut id doc) l.
Proof.
  unfold no_creation. rewrite forallb_forall. intros H. split.
  - intros Hin. specialize (H _ Hin). discriminate H.
  - intros id doc Hin. specialize (H _ Hin). discriminate H.
Qed.

Lemma events_since_mk m us d l :
  events_since m (mkMachine us d (trace m ++ l)) = l.
Proof. apply events_since_app. reflexivity. Qed.

Lemma no_creation_cons_get uid tail :
  no_creation tail -> no_creation (EvDbGet uid :: tail).
Proof. intros H. exact H. Qed.

Lemma create_wallet_trace w uid m :
  exists tail, trace (snd (create_wallet w uid m)) = trace m ++ EvWalletCreate :: tail.
Proof.
  unfold create_wallet, bind at 1, call_Wallet_create, bind at 1, emit, lift.
  destruct (Wallet_create w) as [wallet|e]; [|exists []; reflexivity].
  unfold bind at 1.
  destruct (Codec.encrypt _ _ _) as [enc|e]; [|exists []; reflexivity].
  unfold db_put, emit, bind. simpl.
  destruct (db_put_fault w uid); [eexists; simpl; rewrite <- app_assoc; reflexivity|].
  destruct (db m !! uid); eexists; simpl; rewrite <- app_assoc; reflexivity.
Qed.

(** A successful creation found no record and stored the encrypted
    export of the new wallet. *)
Lemma create_wallet_ok w uid m wallet m' :
  create_wallet w uid m = (Ok wallet, m') ->
  exists enc,
    Wallet_create w = Ok wallet
    /\ Codec.encrypt (ENCRYPTION_KEY w) (JSON_stringify w (w_export wallet))
         (randomBytes16 w) = Ok enc
    /\ db m !! uid = None
    /\ db m' = <[uid := mkDoc (hex_encode (randomBytes16 w)) enc]> (db m).
Proof.
  unfold create_wallet, bind at 1, call_Wallet_create, bind at 1, emit, lift.
  destruct (Wallet_create w) as [x|e]; [|discriminate].
  unfold bind at 1.
  destruct (Codec.encrypt _ _ _) as [enc|e] eqn:Henc; [|discriminate].
  unfold db_put, emit, bind, ret. simpl.
  destruct (db_put_fault w uid); [discriminate|].
  destruct (db m !! uid) eqn:Hdb; [discriminate|].
  intros H. inversion H; subst. exists enc. simpl. repeat split; assumption.
Qed.

(** Creation never replaces a record that is there. *)
Lemma create_wallet_keeps_record w uid m doc :
  db m !! uid = Some doc -> db (snd (create_wallet w uid m)) = db m.
Proof.
  intros Hdoc.
  unfold create_wallet, bind at 1, call_Wallet_create, bind at 1, emit, lift.
  destruct (Wallet_create w) as [wallet|e]; [|reflexivity].
  unfold bind at 1.
  destruct (Codec.encrypt _ _ _) as [enc|e]; [|reflexivity].
  unfold db_put, emit, bind. simpl.
  destruct (db_put_fault w uid); [reflexivity|].
  rewrite Hdoc. reflexivity.
Qed.

(** Errors of the codec are never marked not-found. *)
Lemma decrypt_error_unmarked k c iv e :
  Codec.decrypt k c iv = Throw e -> is_not_found e = false.
Proof.
  unfold Codec.decrypt, Codec.cipher_init.
  destruct k as [k|]; [|intros H; inversion H; reflexivity].
  destruct (negb _); [intros H; inversion H; reflexivity|].
  destruct (negb _); [intros H; inversion H; reflexivity|].
  destruct (Nat.odd _); [intros H; inversion H; reflexivity|].
  destruct (Codec.decrypt_bytes _ _ _); intros H; inversion H; reflexivity.
Qed.

(** X21. On a cache miss, [getOrCreateAddress] creates a wallet or
    writes a record only when the attempt to load the stored wallet (the
    lookup, the decryption, the parsing or the provider's import) ended in
    an error marked not-found ([name] ["not_found"] or [status] 404), and
    then it does create one.  Every other failure of that attempt leaves by
    the same error, with no wallet created, no record written and the store
    unchanged; that covers every failed decryption, every stored text that
    does not parse, and a store error that is not marked.  A record that is
    there is never replaced. *)
Theorem wallet_created_only_on_not_found w uid m :
  cache_miss m uid ->
  let r := fst (getOrCreateAddress w uid m) in
  let m' := snd (getOrCreateAddress w uid m) in
  let new := events_since m m' in
  (In EvWalletCreate new \/ (exists doc, In (EvDbPut uid doc) new) \/ db m' <> db m ->
   exists e, fst (load_wallet w uid m) = Throw e /\ is_not_found e = true)
  /\ (forall e, fst (load_wallet w uid m) = Throw e -> is_not_found e = true ->
        In EvWalletCreate new)
  /\ (forall e, fst (load_wallet w uid m) = Throw e -> is_not_found e = false ->
        r = Throw e /\ no_creation new /\ db m' = db m
        /\ userStates m' = userStates m)
  /\ (forall doc e,
        db_get_fault w uid = None -> db m !! uid = Some doc ->
        Codec.decrypt (ENCRYPTION_KEY w) (encryptedWalletData doc)
          (hex_decode (ivString doc)) = Throw e ->
        r = Throw e /\ no_creation new /\ db m' = db m)
  /\ (forall doc text,
        db_get_fault w uid = None -> db m !! uid = Some doc ->
        Codec.decrypt (ENCRYPTION_KEY w) (encryptedWalletData doc)
          (hex_decode (ivString doc)) = Ok text ->
        JSON_parse w text = None ->
        r = Throw err_syntax /\ no_creation new /\ db m' = db m)
  /\ (forall e, db_get_fault w uid = Some e -> is_not_found e = false ->
        r = Throw e /\ no_creation new /\ db m' = db m)
  /\ (forall doc, db m !! uid = Some doc -> db m' = db m).
Proof.
  intros Hmiss r m' new.
  destruct (load_wallet_effects w uid m) as (tail & Hml & Hnc & _).
  assert (Hrethrow : forall e, fst (load_wallet w uid m) = Throw e ->
            is_not_found e = false ->
            r = Throw e /\ no_creation new /\ db m' = db m
            /\ userStates m' = userStates m).
  { intros e Hload Hnf. unfold new, m', r.
    rewrite (getOrCreateAddress_rethrows w uid m e Hmiss Hload Hnf). simpl.
    rewrite Hml. simpl. repeat split.
    rewrite events_since_mk. apply no_creation_cons_get, Hnc. }
  assert (Hloaded : forall wallet, fst (load_wallet w uid m) = Ok wallet ->
            no_creation new /\ db m' = db m).
  { intros wallet Hload. unfold new, m'.
    rewrite (getOrCreateAddress_miss w uid m Hmiss).
    unfold bind at 1 3, try_catch.
    destruct (load_wallet w uid m) as [lr ml]. simpl in Hload, Hml. subst lr ml.
    simpl. split; [|reflexivity].
    rewrite events_since_mk. apply no_creation_cons_get, Hnc. }
  assert (Hcreates : forall e, fst (load_wallet w uid m) = Throw e ->
            is_not_found e = true -> In EvWalletCreate new).
  { intros e Hload Hnf. unfold new, m'.
    rewrite (getOrCreateAddress_miss w uid m Hmiss).
    unfold bind at 1, try_catch, load_catch.
    destruct (load_wallet w uid m) as [lr ml]. simpl in Hload, Hml. subst lr.
    rewrite Hnf. destruct (create_wallet_trace w uid ml) as [t2 Ht2].
    destruct (create_wallet w uid ml) as [[wallet|e2] m2]; simpl in Ht2 |- *.
    - rewrite (events_since_app m _ ((EvDbGet uid :: tail) ++ EvWalletCreate :: t2)).
      + apply in_or_app. right. left. reflexivity.
      + rewrite Ht2, Hml. simpl. rewrite <- app_assoc. reflexivity.
    - rewrite (events_since_app m _ ((EvDbGet uid :: tail) ++ EvWalletCreate :: t2)).
      + apply in_or_app. right. left. reflexivity.
      + rewrite Ht2, Hml. simpl. rewrite <- app_assoc. reflexivity. }
  split.
  { intros Hch. destruct (fst (load_wallet w uid m)) as [wallet|e] eqn:Hload.
    - destruct (Hloaded wallet eq_refl) as [Hn Hdb].
      destruct (no_creation_spec _ Hn) as [Hc Hp].
      destruct Hch as [Hin|[[doc Hin]|Hne]];
        [destruct (Hc Hin) | destruct (Hp _ _ Hin) | destruct (Hne Hdb)].
    - destruct (is_not_found e) eqn:Hnf; [eauto|].
      destruct (Hrethrow e eq_refl Hnf) as (_ & Hn & Hdb & _).
      destruct (no_creation_spec _ Hn) as [Hc Hp].
      destruct Hch as [Hin|[[doc Hin]|Hne]];
        [destruct (Hc Hin) | destruct (Hp _ _ Hin) | destruct (Hne Hdb)]. }
  split; [exact Hcreates|]. split; [exact Hrethrow|].
  assert (Hshort : forall e, fst (load_wallet w uid m) = Throw e ->
            is_not_found e = false -> r = Throw e /\ no_creation new /\ db m' = db m).
  { intros e H1 H2. destruct (Hrethrow e H1 H2) as (? & ? & ? & _). auto. }
  repeat apply conj.
  - intros doc e Hf Hdoc Hdec. apply Hshort; [|exact (decrypt_error_unmarked _ _ _ _ Hdec)].
    unfold load_wallet, bind at 1, db_get, bind at 1, emit. simpl.
    rewrite Hf, Hdoc. unfold bind at 1, lift. rewrite Hdec. reflexivity.
  - intros doc text Hf Hdoc Hdec Hparse. apply Hshort; [|reflexivity].
    unfold load_wallet, bind at 1, db_get, bind at 1, emit. simpl.
    rewrite Hf, Hdoc. unfold bind at 1, lift. rewrite Hdec.
    unfold bind at 1, call_JSON_parse. rewrite Hparse. reflexivity.
  - intros e Hf Hnf. apply Hshort; [|exact Hnf].
    unfold load_wallet, bind at 1, db_get, bind at 1, emit. simpl.
    rewrite Hf. reflexivity.
  - intros doc Hdoc.
    destruct (fst (load_wallet w uid m)) as [wallet|e] eqn:Hload.
    + exact (proj2 (Hloaded wallet eq_refl)).
    + destruct (is_not_found e) eqn:Hnf.
      2:{ destruct (Hrethrow e eq_refl Hnf) as (_ & _ & Hdb & _). exact Hdb. }
      unfold m'. rewrite (getOrCreateAddress_miss w uid m Hmiss).
      unfold bind at 1, try_catch, load_catch.
      destruct (load_wallet w uid m) as [lr ml]. simpl in Hload, Hml. subst lr.
      rewrite Hnf.
      assert (Hdoc' : db ml !! uid = Some doc) by (rewrite Hml; exact Hdoc).
      pose proof (create_wallet_keeps_record w uid ml doc Hdoc') as Hkeep.
      destruct (create_wallet w uid ml) as [[wallet|e2] m2] eqn:Hcreate.
      * destruct (create_wallet_ok w uid ml wallet m2 Hcreate) as (_ & _ & _ & Hnone & _).
        rewrite Hdoc' in Hnone. discriminate.
      * simpl in Hkeep |- *. rewrite Hkeep, Hml. reflexivity.
Qed.

Lemma wallet_created_only_on_not_found_witness :
  fst (getOrCreateAddress (Demo.demo_world DNaN) 7 corrupt_machine)
  = Throw Codec.err_decrypt
  /\ no_creation (events_since corrupt_machine
                    (snd (getOrCreateAddress (Demo.demo_world DNaN) 7 corrupt_machine)))
  /\ db (snd (getOrCreateAddress (Demo.demo_world DNaN) 7 corrupt_machine))
     = db corrupt_machine.
Proof.
  destruct (wallet_created_only_on_not_found (Demo.demo_world DNaN) 7 corrupt_machine
              eq_refl) as (_ & _ & _ & Hdec & _).
  exact (Hdec (mkDoc "000102030405060708090a0b0c0d0e0f" "00") Codec.err_decrypt
           eq_refl eq_refl eq_refl).
Defined.

(** C4, as the code has it.  A lookup that fails with a store error
    other than not-found is not retried: the store is read exactly once,
    the error leaves [getOrCreateAddress] as it came, under its own name,
    and it is not taken for "not found": no wallet is created, nothing is
    written and nothing is cached. *)
Theorem store_error_is_rethrown w uid m e :
  cache_miss m uid ->
  db_get_fault w uid = Some e ->
  is_not_found e = false ->
  let m' := snd (getOrCreateAddress w uid m) in
  let new := events_since m m' in
  fst (getOrCreateAddress w uid m) = Throw e
  /\ new = [EvDbGet uid]
  /\ length (List.filter is_db_get new) = 1%nat
  /\ no_creation new
  /\ db m' = db m
  /\ userStates m' = userStates m.
Proof.
  intros Hmiss Hf Hnf m' new.
  assert (Hload : load_wallet w uid m = (Throw e, log (EvDbGet uid) m)).
  { unfold load_wallet, bind at 1, db_get, bind at 1, emit. simpl.
    rewrite Hf. reflexivity. }
  assert (Hrun : getOrCreateAddress w uid m = (Throw e, log (EvDbGet uid) m)).
  { rewrite (getOrCreateAddress_rethrows w uid m e Hmiss).
    - rewrite Hload. reflexivity.
    - rewrite Hload. reflexivity.
    - exact Hnf. }
  unfold new, m'. rewrite Hrun. simpl. unfold log.
  rewrite events_since_mk. simpl. repeat split.
Qed.

Lemma store_error_is_rethrown_witness :
  fst (getOrCreateAddress timeout_world 7 init_machine) = Throw err_timeout
  /\ events_since init_machine (snd (getOrCreateAddress timeout_world 7 init_machine))
     = [EvDbGet 7].
Proof.
  destruct (store_error_is_rethrown timeout_world 7 init_machine err_timeout
              eq_refl eq_refl eq_refl) as (Hr & Hev & _).
  split; [exact Hr | exact Hev].
Defined.

(** C4 as stated fails: the error of a lookup that timed out surfaces
    under the store's own name, after a single lookup; it is not turned
    into an error named [StoreUnavailableError]. *)
Lemma store_error_keeps_its_name :
  exists e,
    fst (getOrCreateAddress timeout_world 7 init_machine) = Throw e
    /\ err_name e = "timeout"
    /\ err_name e <> "StoreUnavailableError"
    /\ events_since init_machine (snd (getOrCreateAddress timeout_world 7 init_machine))
       = [EvDbGet 7].
Proof. exists err_timeout. repeat split. discriminate. Qed.

(** ** Start-up *)

Lemma check_env_ok names env :
  check_env names env = Ok tt <->
  (forall name, In name names -> truthy_str (env !! name) = true).
Proof.
  induction names as [|n names IH]; simpl.
  - split; [intros _ name []|reflexivity].
  - destruct (truthy_str (env !! n)) eqn:E; simpl.
    + rewrite IH. split.
      * intros H name [<-|Hin]; [exact E|exact (H name Hin)].
      * intros H name Hin. apply H. right. exact Hin.
    + split; [discriminate|].
      intros H. specialize (H n (or_introl eq_refl)). congruence.
Qed.

Lemma cipher_init_wrong_length k iv :
  length iv = 16%nat ->
  length (hex_decode k) <> 32%nat ->
  Codec.cipher_init (Some k) iv = Throw Codec.err_range.
Proof.
  intros Hiv Hlen. unfold Codec.cipher_init. rewrite Hiv.
  destruct (Nat.eqb (length (hex_decode k)) 32) eqn:E; [|reflexivity].
  apply Nat.eqb_eq in E. contradiction.
Qed.

Lemma cipher_init_right_length k iv :
  length iv = 16%nat ->
  length (hex_decode k) = 32%nat ->
  Codec.cipher_init (Some k) iv = Ok (hex_decode k).
Proof. intros Hiv Hlen. unfold Codec.cipher_init. rewrite Hiv, Hlen. reflexivity. Qed.

Lemma cipher_init_wrong_iv k iv :
  length iv <> 16%nat -> Codec.cipher_init (Some k) iv = Throw Codec.err_type.
Proof.
  intros Hiv. unfold Codec.cipher_init.
  destruct (Nat.eqb (length iv) 16) eqn:E; [|reflexivity].
  apply Nat.eqb_eq in E. contradiction.
Qed.

(** Reading hex goes through what was written as hex and on into what
    follows. *)
Lemma hex_decode_app l s : hex_decode (hex_encode l ++ s) = l ++ hex_decode s.
Proof.
  induction l as [|c l IH]; [reflexivity|].
  cbn [hex_encode app]. rewrite hex_decode_byte, IH. reflexivity.
Qed.

(** C6, as the code has it.  Start-up succeeds exactly when each of the
    four variables is present and not empty; nothing else about the key is
    looked at.  The key is read as hex each time [encrypt] or [decrypt] is
    called, up to the first pair of characters that is not two hex digits,
    and with an IV of 16 bytes the call is refused with a [RangeError]
    exactly when the bytes read are not 32.  So a key of 32 bytes in hex
    followed by characters that are no hex is accepted, and works as the
    key without them. *)
Theorem startup_checks_presence_only (env : gmap string str) :
  (startup env = Ok tt <->
   forall name, In name requiredEnvVars -> truthy_str (env !! name) = true)
  /\ (forall k text iv,
        env !! "ENCRYPTION_KEY"%string = Some k ->
        length iv = 16%nat ->
        (length (hex_decode k) <> 32%nat ->
         Codec.encrypt (env !! "ENCRYPTION_KEY"%string) text iv = Throw Codec.err_range
         /\ Codec.decrypt (env !! "ENCRYPTION_KEY"%string) text iv
            = Throw Codec.err_range)
        /\ (length (hex_decode k) = 32%nat ->
            is_ok (Codec.encrypt (env !! "ENCRYPTION_KEY"%string) text iv) = true))
  /\ (forall key rest text iv,
        env !! "ENCRYPTION_KEY"%string = Some (hex_encode key ++ rest) ->
        length key = 32%nat ->
        hex_decode rest = [] ->
        Codec.encrypt (env !! "ENCRYPTION_KEY"%string) text iv
        = Codec.encrypt (Some (hex_encode key)) text iv
        /\ Codec.decrypt (env !! "ENCRYPTION_KEY"%string) text iv
           = Codec.decrypt (Some (hex_encode key)) text iv).
Proof.
  split; [apply check_env_ok|]. split.
  - intros k text iv Hk Hiv. rewrite Hk. unfold Codec.encrypt, Codec.decrypt. split.
    + intros Hlen. rewrite (cipher_init_wrong_length k iv Hiv Hlen). split; reflexivity.
    + intros Hlen. rewrite (cipher_init_right_length k iv Hiv Hlen). reflexivity.
  - intros key rest text iv Hk Hlen Hrest. rewrite Hk.
    unfold Codec.encrypt, Codec.decrypt, Codec.cipher_init.
    rewrite hex_decode_app, Hrest, app_nil_r, hex_decode_encode. split; reflexivity.
Qed.

(** C6 as stated fails: with a key that is not hex, start-up succeeds,
    and the key is refused only when [encrypt] is called. *)
Lemma startup_accepts_malformed_key :
  startup malformed_key_env = Ok tt
  /\ hex_decode "not-a-hex-key" = []
  /\ Codec.encrypt (malformed_key_env !! "ENCRYPTION_KEY"%string) "secret" Demo.demo_iv
     = Throw Codec.err_range.
Proof. repeat split. Qed.

(** A key of the right size followed by text that is no hex passes
    start-up and encrypts as the key alone does. *)
Lemma startup_checks_presence_only_witness :
  startup trailing_key_env = Ok tt
  /\ Codec.encrypt (trailing_key_env !! "ENCRYPTION_KEY"%string) "secret" Demo.demo_iv
     = Codec.encrypt (Some Demo.demo_key) "secret" Demo.demo_iv.
Proof.
  split; [reflexivity|].
  exact (proj1 (proj2 (proj2 (startup_checks_presence_only trailing_key_env))
           (hex_decode Demo.demo_key) " (old key)" "secret" Demo.demo_iv
           eq_refl eq_refl eq_refl)).
Defined.

(** ** The secret codec *)

Lemma hex_encode_length l : length (hex_encode l) = (2 * length l)%nat.
Proof. induction l as [|c l IH]; simpl; [reflexivity|]. rewrite IH. lia. Qed.

Lemma hex_encode_even l : Nat.odd (length (hex_encode l)) = false.
Proof. rewrite hex_encode_length, Nat.odd_mul. reflexivity. Qed.

(** What [decrypt] returns for what [encrypt] returned: the text as it
    reads after its passage through UTF-8. *)
Lemma decrypt_of_encrypt k text iv c :
  Codec.encrypt k text iv = Ok c ->
  Codec.decrypt k c iv = Ok (utf8_decode (utf8_encode text)).
Proof.
  unfold Codec.encrypt, Codec.decrypt.
  destruct (Codec.cipher_init k iv) as [key|e]; [|discriminate].
  intros H. inversion H; subst.
  rewrite hex_encode_even, hex_decode_encode, decrypt_bytes_encrypt_bytes.
  reflexivity.
Qed.

Lemma encrypt_then_decrypt k text iv c :
  is_well_formed text = true ->
  Codec.encrypt k text iv = Ok c -> Codec.decrypt k c iv = Ok text.
Proof.
  intros Hwf H. rewrite (decrypt_of_encrypt _ _ _ _ H), (utf8_decode_encode _ Hwf).
  reflexivity.
Qed.

(** C5, as the code has it.  With a key of 32 bytes and an IV of 16
    bytes, [encrypt] succeeds and [decrypt] gives back the text as it reads
    after its passage through UTF-8, which is the text itself when it is
    well formed.  Data of odd length is refused with a [TypeError]; data
    that is empty or not a whole number of 16-byte blocks is refused with
    the decryption error.  Nothing authenticates the data: for a text of at
    least 32 bytes, the ciphertext with its first block replaced by any
    other block decrypts without an error, and to another text when the
    text holds no U+FFFD. *)
Theorem decrypt_encrypt_roundtrip (key : str) (iv : bytes) (text : str) :
  length (hex_decode key) = 32%nat ->
  length iv = 16%nat ->
  (exists c, Codec.encrypt (Some key) text iv = Ok c
             /\ Codec.decrypt (Some key) c iv = Ok (utf8_decode (utf8_encode text))
             /\ (is_well_formed text = true ->
                 Codec.decrypt (Some key) c iv = Ok text))
  /\ (forall c', Nat.odd (length c') = true ->
        Codec.decrypt (Some key) c' iv = Throw Codec.err_type)
  /\ (forall c',
        Nat.odd (length c') = false ->
        length (hex_decode c') = 0%nat \/ (length (hex_decode c') mod 16)%nat <> 0%nat ->
        Codec.decrypt (Some key) c' iv = Throw Codec.err_decrypt)
  /\ (forall c0',
        (32 <= length (utf8_encode text))%nat ->
        length c0' = 16%nat ->
        let ct := Codec.encrypt_bytes (hex_decode key) iv (utf8_encode text) in
        c0' <> firstn 16 ct ->
        exists text',
          Codec.decrypt (Some key) (hex_encode (c0' ++ skipn 16 ct)) iv = Ok text'
          /\ (~ In replacement text -> text' <> text)).
Proof.
  intros Hkey Hiv.
  pose proof (cipher_init_right_length key iv Hiv Hkey) as Hinit.
  split; [|split; [|split]].
  - assert (Henc : Codec.encrypt (Some key) text iv
                   = Ok (hex_encode (Codec.encrypt_bytes (hex_decode key) iv
                                       (utf8_encode text)))).
    { unfold Codec.encrypt. rewrite Hinit. reflexivity. }
    eexists. split; [exact Henc|]. split.
    + exact (decrypt_of_encrypt _ _ _ _ Henc).
    + intros Hwf. exact (encrypt_then_decrypt _ _ _ _ Hwf Henc).
  - intros c' Hodd. unfold Codec.decrypt. rewrite Hinit, Hodd. reflexivity.
  - intros c' Heven Hc. unfold Codec.decrypt. rewrite Hinit, Heven.
    rewrite (decrypt_bytes_partial _ _ _ Hc). reflexivity.
  - intros c0' Hlen Hc0' ct Hne.
    destruct (first_block_is_malleable (hex_decode key) iv (utf8_encode text) c0'
                Hlen Hc0' Hne) as (pt' & Hdec & Hdiff).
    exists (utf8_decode pt'). unfold Codec.decrypt.
    rewrite Hinit, hex_encode_even, hex_decode_encode. fold ct in Hdec. rewrite Hdec.
    split; [reflexivity|].
    intros Hclean Heq. apply Hdiff. rewrite <- Heq in Hclean.
    rewrite <- (utf8_encode_decode pt' Hclean), Heq. reflexivity.
Qed.

Lemma decrypt_encrypt_roundtrip_witness :
  exists c, Codec.encrypt (Some Demo.demo_key) "secret" Demo.demo_iv = Ok c
            /\ Codec.decrypt (Some Demo.demo_key) c Demo.demo_iv = Ok "secret".
Proof.
  destruct (proj1 (decrypt_encrypt_roundtrip Demo.demo_key Demo.demo_iv "secret"
                     eq_refl eq_refl)) as (c & Henc & _ & Hdec).
  exists c. split; [exact Henc | exact (Hdec eq_refl)].
Defined.

(** C5 as stated fails: AES-CBC is not authenticated.  A ciphertext with
    one byte changed, and a ciphertext under another key, both decrypt
    without an error, to a text that is not the one encrypted. *)
Lemma altered_ciphertext_decrypts :
  Codec.encrypt (Some Demo.demo_key) secret_text Demo.demo_iv = Ok secret_cipher
  /\ Codec.decrypt (Some Demo.demo_key) altered_cipher Demo.demo_iv = Ok altered_text
  /\ altered_text <> secret_text
  /\ Codec.encrypt (Some Demo.demo_key) "secret" Demo.demo_iv = Ok short_cipher
  /\ Codec.decrypt (Some wrong_key) short_cipher Demo.demo_iv = Ok wrong_text
  /\ wrong_text <> "secret".
Proof. repeat split; try discriminate; vm_compute; reflexivity. Qed.

(** ** Idempotence of [getOrCreateAddress] *)

Lemma getOrCreateAddress_hit w uid m a :
  address (state_of m uid) = Some a ->
  getOrCreateAddress w uid m = (Ok a, m).
Proof.
  intros Hhit. unfold state_of in Hhit.
  unfold getOrCreateAddress, try_catch, bind at 1, getUserState.
  rewrite Hhit. reflexivity.
Qed.

(** A successful load went through every stage. *)
Lemma load_wallet_ok w uid m wallet :
  fst (load_wallet w uid m) = Ok wallet ->
  exists doc text d,
    db m !! uid = Some doc
    /\ Codec.decrypt (ENCRYPTION_KEY w) (encryptedWalletData doc)
         (hex_decode (ivString doc)) = Ok text
    /\ JSON_parse w text = Some d
    /\ Wallet_import w d = Ok wallet.
Proof.
  unfold load_wallet, bind at 1, db_get, bind at 1, emit. simpl.
  destruct (db_get_fault w uid); [discriminate|].
  destruct (db m !! uid) as [doc|]; [|discriminate].
  unfold bind at 1, lift.
  destruct (Codec.decrypt _ _ _) as [text|e] eqn:Hdec; [|discriminate].
  unfold bind at 1, call_JSON_parse.
  destruct (JSON_parse w text) as [d|] eqn:Hparse; [|discriminate].
  unfold ret at 1, call_Wallet_import, bind, emit, lift. simpl.
  destruct (Wallet_import w d) as [x|e] eqn:Himp; [|discriminate].
  intros H. inversion H; subst. eauto 10.
Qed.

(** The two ways a call that went to the store can have succeeded. *)
Lemma getOrCreateAddress_ok w uid m a m' :
  cache_miss m uid ->
  getOrCreateAddress w uid m = (Ok a, m') ->
  address (state_of m' uid) = Some a
  /\ ((exists wallet, fst (load_wallet w uid m) = Ok wallet
         /\ a = w_default wallet /\ db m' = db m)
      \/ (exists wallet enc,
            Wallet_create w = Ok wallet /\ a = w_default wallet
            /\ Codec.encrypt (ENCRYPTION_KEY w) (JSON_stringify w (w_export wallet))
                 (randomBytes16 w) = Ok enc
            /\ db m !! uid = None
            /\ db m' = <[uid := mkDoc (hex_encode (randomBytes16 w)) enc]> (db m))).
Proof.
  intros Hmiss. rewrite (getOrCreateAddress_miss w uid m Hmiss).
  destruct (load_wallet_effects w uid m) as (tail & Hml & _).
  unfold bind at 1, try_catch, load_catch.
  destruct (load_wallet w uid m) as [[wallet|e] ml] eqn:Hload; simpl in Hml.
  - unfold bind, updateUserState, ret. intros H. inversion H; subst. simpl.
    split.
    + unfold state_of. simpl. rewrite lookup_insert_eq. reflexivity.
    + left. exists wallet. auto.
  - destruct (is_not_found e); [|discriminate].
    destruct (create_wallet w uid ml) as [[wallet|e2] m2] eqn:Hcreate; [|discriminate].
    destruct (create_wallet_ok w uid ml wallet m2 Hcreate)
      as (enc & Hc & Henc & Hnone & Hdb).
    unfold bind, updateUserState, ret. intros H. inversion H; subst. simpl.
    split.
    + unfold state_of. simpl. rewrite lookup_insert_eq. reflexivity.
    + right. exists wallet, enc. simpl in Hnone, Hdb. auto.
Qed.

Lemma forget_cache_miss uid m : cache_miss (forget uid m) uid.
Proof.
  unfold cache_miss, state_of, forget, clearUserState. simpl.
  rewrite lookup_delete_eq. reflexivity.
Qed.

(** After a call that went to the store has succeeded, the store holds
    a record for the user; whatever later loads it, under the same key and
    the same provider, gets the same address. *)
Lemma stored_wallet_reloads w w2 uid m a1 m1 wallet2 :
  cache_miss m uid ->
  getOrCreateAddress w uid m = (Ok a1, m1) ->
  same_wallets w w2 ->
  fst (load_wallet w2 uid (forget uid m1)) = Ok wallet2 ->
  w_default wallet2 = a1.
Proof.
  intros Hmiss Hfirst (Hkey & Hparse & Hjson & Himport & Hcreate) Hload2.
  destruct (load_wallet_ok w2 uid _ wallet2 Hload2)
    as (doc2 & text2 & d2 & Hdoc2 & Hdec2 & Hp2 & Hi2).
  change (db (forget uid m1)) with (db m1) in Hdoc2.
  rewrite Hkey in Hdec2.
  destruct (getOrCreateAddress_ok w uid m a1 m1 Hmiss Hfirst) as [_ [Hl|Hc]].
  - destruct Hl as (wallet & Hload & -> & Hdb).
    destruct (load_wallet_ok w uid m wallet Hload)
      as (doc & text & d & Hdoc & Hdec & Hp & Hi).
    rewrite Hdb, Hdoc in Hdoc2. inversion Hdoc2; subst doc2.
    rewrite Hdec in Hdec2. inversion Hdec2; subst text2.
    rewrite Hparse, Hp in Hp2. inversion Hp2; subst d2.
    exact (Himport d wallet wallet2 Hi Hi2).
  - destruct Hc as (wallet & enc & Hcr & -> & Henc & _ & Hdb).
    rewrite Hdb, lookup_insert_eq in Hdoc2. inversion Hdoc2; subst doc2.
    simpl in Hdec2. rewrite hex_decode_encode in Hdec2.
    rewrite (encrypt_then_decrypt _ _ _ _ (JSON_stringify_well_formed w _) Henc) in Hdec2.
    inversion Hdec2; subst text2.
    rewrite (Hjson wallet Hcr) in Hp2. inversion Hp2; subst d2.
    exact (Hcreate wallet wallet2 Hcr Hi2).
Qed.

(** C8. Once a call of [getOrCreateAddress] for a user has succeeded,
    the next call returns the same address without touching anything, in
    whatever world it runs.  And when the first call went to the store
    (created or loaded the wallet), a successful call made after the cached
    state was deleted returns that address again, given the same key and a
    provider that imports what it exported. *)
Theorem getOrCreateAddress_idempotent w uid m a1 m1 :
  getOrCreateAddress w uid m = (Ok a1, m1) ->
  (forall w2, getOrCreateAddress w2 uid m1 = (Ok a1, m1))
  /\ (cache_miss m uid ->
      forall w2 a2 m2,
        same_wallets w w2 ->
        getOrCreateAddress w2 uid (forget uid m1) = (Ok a2, m2) ->
        a2 = a1).
Proof.
  intros Hfirst. split.
  - intros w2. apply getOrCreateAddress_hit.
    destruct (address (state_of m uid)) as [a|] eqn:Hc.
    + rewrite (getOrCreateAddress_hit w uid m a Hc) in Hfirst.
      inversion Hfirst; subst. exact Hc.
    + exact (proj1 (getOrCreateAddress_ok w uid m a1 m1 Hc Hfirst)).
  - intros Hmiss w2 a2 m2 Hsame Hsecond.
    destruct (getOrCreateAddress_ok w2 uid _ a2 m2 (forget_cache_miss uid m1) Hsecond)
      as [_ [Hl|Hc]].
    + destruct Hl as (wallet2 & Hload2 & -> & _).
      exact (stored_wallet_reloads w w2 uid m a1 m1 wallet2 Hmiss Hfirst Hsame Hload2).
    + destruct Hc as (wallet2 & enc2 & _ & _ & _ & Hnone & _).
      change (db (forget uid m1)) with (db m1) in Hnone.
      destruct (getOrCreateAddress_ok w uid m a1 m1 Hmiss Hfirst) as [_ [Hl|Hc]].
      * destruct Hl as (wallet & Hload & _ & Hdb).
        destruct (load_wallet_ok w uid m wallet Hload) as (doc & _ & _ & Hdoc & _).
        rewrite Hdb, Hdoc in Hnone. discriminate.
      * destruct Hc as (wallet & enc & _ & _ & _ & _ & Hdb).
        rewrite Hdb, lookup_insert_eq in Hnone. discriminate.
Qed.

Lemma demo_same_wallets : same_wallets (Demo.demo_world DNaN) (Demo.demo_world DNaN).
Proof.
  repeat split.
  - intros x H. inversion H; subst. reflexivity.
  - intros d x y Hx Hy. inversion Hx; inversion Hy; subst. reflexivity.
  - intros x y Hx Hy. inversion Hx; inversion Hy; subst. reflexivity.
Defined.

Lemma getOrCreateAddress_idempotent_witness :
  cache_miss init_machine 7
  /\ same_wallets (Demo.demo_world DNaN) (Demo.demo_world DNaN)
  /\ getOrCreateAddress (Demo.demo_world DNaN) 7
       (snd (getOrCreateAddress (Demo.demo_world DNaN) 7 init_machine))
     = (Ok (mkAddress "0xabc"),
        snd (getOrCreateAddress (Demo.demo_world DNaN) 7 init_machine))
  /\ fst (getOrCreateAddress (Demo.demo_world DNaN) 7
            (forget 7 (snd (getOrCreateAddress (Demo.demo_world DNaN) 7 init_machine))))
     = Ok (mkAddress "0xabc").
Proof.
  destruct (getOrCreateAddress_idempotent (Demo.demo_world DNaN) 7 init_machine
              (mkAddress "0xabc")
              (snd (getOrCreateAddress (Demo.demo_world DNaN) 7 init_machine))
              eq_refl) as [Hnext Hlater].
  split; [reflexivity|]. split; [exact demo_same_wallets|].
  split; [exact (Hnext (Demo.demo_world DNaN))|].
  destruct (getOrCreateAddress (Demo.demo_world DNaN) 7
              (forget 7 (snd (getOrCreateAddress (Demo.demo_world DNaN) 7 init_machine))))
    as [[a2|e] m2] eqn:Hsecond.
  - simpl. f_equal.
    exact (Hlater eq_refl (Demo.demo_world DNaN) a2 m2 demo_same_wallets Hsecond).
  - vm_compute in Hsecond. discriminate Hsecond.
Defined.

(** * Further properties *)

Import Process Frame.

(** ** What every computation of a handler preserves

    [R] is any relation between machines that is reflexive and
    transitive and that the elementary changes respect; the lemmas below
    carry it through the handlers. *)

Section Preserved.
Variable uid : Z.
Variable R : Machine -> Machine -> Prop.
Variable okev : Event -> bool.
Variable okpatch : UState -> bool.
Hypothesis R_refl : forall m, R m m.
Hypothesis R_trans : forall m1 m2 m3, R m1 m2 -> R m2 m3 -> R m1 m3.
Hypothesis R_log : forall ev m, okev ev = true -> R m (log ev m).
Hypothesis R_update : forall p m,
  okpatch p = true -> R m (snd (updateUserState uid p m)).
Hypothesis R_clear : forall m, R m (snd (clearUserState uid m)).
Hypothesis R_put : forall doc m,
  db m !! uid = None ->
  R m (mkMachine (userStates m) (<[uid := doc]> (db m)) (trace m)).

Lemma always_ret {A} (a : A) : always (ret a) R.
Proof. intros m r m' H. inversion H; subst. apply R_refl. Qed.

Lemma always_throw {A} (e : Err) : always (@throw A e) R.
Proof. intros m r m' H. inversion H; subst. apply R_refl. Qed.

Lemma always_lift {A} (x : res A) : always (lift x) R.
Proof. intros m r m' H. inversion H; subst. apply R_refl. Qed.

Lemma always_bind {A B} (c : M A) (k : A -> M B) :
  always c R -> (forall a, always (k a) R) -> always (bind c k) R.
Proof.
  intros Hc Hk m r m' H. unfold bind in H.
  destruct (c m) as [[a|e] m1] eqn:Hcm.
  - exact (R_trans _ _ _ (Hc _ _ _ Hcm) (Hk a _ _ _ H)).
  - inversion H; subst. exact (Hc _ _ _ Hcm).
Qed.

Lemma always_catch {A} (c : M A) (h : Err -> M A) :
  always c R -> (forall e, always (h e) R) -> always (try_catch c h) R.
Proof.
  intros Hc Hh m r m' H. unfold try_catch in H.
  destruct (c m) as [[a|e] m1] eqn:Hcm.
  - inversion H; subst. exact (Hc _ _ _ Hcm).
  - exact (R_trans _ _ _ (Hc _ _ _ Hcm) (Hh e _ _ _ H)).
Qed.

Lemma always_emit ev : okev ev = true -> always (emit ev) R.
Proof. intros Hok m r m' H. inversion H; subst. apply R_log, Hok. Qed.

Lemma always_getUserState : always (getUserState uid) R.
Proof. intros m r m' H. inversion H; subst. apply R_refl. Qed.

Lemma always_update p : okpatch p = true -> always (updateUserState uid p) R.
Proof.
  intros Hok m r m' H. pose proof (R_update p m Hok) as HR.
  rewrite H in HR. exact HR.
Qed.

Lemma always_clear : always (clearUserState uid) R.
Proof.
  intros m r m' H. pose proof (R_clear m) as HR. rewrite H in HR. exact HR.
Qed.

Lemma always_reply w text :
  (forall b, okev (EvReply text b) = true) -> always (ctx_reply w text) R.
Proof.
  intros Hok m r m' H. unfold ctx_reply in H.
  destruct (reply_result w (reply_count m) text); inversion H; subst;
    apply R_log, Hok.
Qed.

Lemma always_sendReply w text :
  (forall b, okev (EvReply text b) = true) ->
  (forall id, okpatch (message_patch id) = true) ->
  always (sendReply w uid text) R.
Proof.
  intros Hev Hp. unfold sendReply.
  apply always_catch; [|intros e; apply always_throw].
  apply always_bind; [apply always_reply, Hev|]. intros id.
  apply always_bind; [apply always_update, Hp|]. intros _. apply always_ret.
Qed.

Lemma always_reply_only w text :
  (forall b, okev (EvReply text b) = true) -> always (ctx_reply w text ;;; ret tt) R.
Proof.
  intros Hok. apply always_bind; [apply always_reply, Hok|]. intros _. apply always_ret.
Qed.

Lemma always_reply_then_clear w text :
  (forall b, okev (EvReply text b) = true) ->
  always (ctx_reply w text ;;; clearUserState uid) R.
Proof.
  intros Hok. apply always_bind; [apply always_reply, Hok|]. intros _. apply always_clear.
Qed.

Lemma always_bot_catch w e :
  (forall b, okev (EvReply msg_handler_error b) = true) -> always (bot_catch w e) R.
Proof.
  intros Hok. unfold bot_catch. apply always_catch; [apply always_reply_only, Hok|].
  intros e'. apply always_ret.
Qed.

Hypothesis ok_db_get : forall k, okev (EvDbGet k) = true.
Hypothesis ok_db_put : forall k doc, okev (EvDbPut k doc) = true.
Hypothesis ok_create : okev EvWalletCreate = true.
Hypothesis ok_import : forall d, okev (EvWalletImport d) = true.
Hypothesis ok_message : forall id, okpatch (message_patch id) = true.
Hypothesis ok_address : forall a, okpatch (address_patch a) = true.

Lemma always_db_get w : always (db_get w uid) R.
Proof.
  unfold db_get. apply always_bind; [apply always_emit, ok_db_get|].
  intros _ m r m' H.
  destruct (db_get_fault w uid); [inversion H; subst; apply R_refl|].
  destruct (db m !! uid); inversion H; subst; apply R_refl.
Qed.

Lemma always_db_put w doc : always (db_put w uid doc) R.
Proof.
  unfold db_put. apply always_bind; [apply always_emit, ok_db_put|].
  intros _ m r m' H.
  destruct (db_put_fault w uid); [inversion H; subst; apply R_refl|].
  destruct (db m !! uid) eqn:Hdb; inversion H; subst; [apply R_refl|].
  apply R_put, Hdb.
Qed.

Lemma always_load_wallet w : always (load_wallet w uid) R.
Proof.
  unfold load_wallet.
  apply always_bind; [apply always_db_get|]. intros result.
  apply always_bind; [apply always_lift|]. intros text.
  apply always_bind.
  - unfold call_JSON_parse. destruct (JSON_parse w text);
      [apply always_ret|apply always_throw].
  - intros d. unfold call_Wallet_import.
    apply always_bind; [apply always_emit, ok_import|]. intros _. apply always_lift.
Qed.

Lemma always_create_wallet w : always (create_wallet w uid) R.
Proof.
  unfold create_wallet.
  apply always_bind.
  { unfold call_Wallet_create.
    apply always_bind; [apply always_emit, ok_create|]. intros _. apply always_lift. }
  intros wallet. apply always_bind; [apply always_lift|]. intros enc.
  apply always_bind; [apply always_db_put|]. intros _. apply always_ret.
Qed.

Lemma always_getOrCreateAddress w : always (getOrCreateAddress w uid) R.
Proof.
  unfold getOrCreateAddress.
  apply always_catch; [|intros e; apply always_throw].
  apply always_bind; [apply always_getUserState|]. intros cachedState.
  destruct (address cachedState); [apply always_ret|].
  apply always_bind.
  - apply always_catch; [apply always_load_wallet|].
    intros e. destruct (is_not_found e); [apply always_create_wallet|apply always_throw].
  - intros wallet.
    apply always_bind; [apply (always_update (address_patch _)), ok_address|].
    intros _. apply always_ret.
Qed.

(** The amount step, given that its replies and the trade calls respect
    [R] too. *)
Lemma always_amount_step w text t a :
  (forall b, okev (EvReply msg_insufficient b) = true) ->
  (forall b, okev (EvReply (msg_initiating t) b) = true) ->
  (forall link b, okev (EvReply (msg_success t link) b) = true) ->
  (forall b, okev (EvReply (msg_trade_error t) b) = true) ->
  (forall x y, okev (EvGetBalance x y) = true) ->
  (forall x y z u, okev (EvCreateTrade x y z u) = true) ->
  (forall x, okev (EvTradeWait x) = true) ->
  always (amount_step w uid text t a) R.
Proof.
  intros R1 R2 R3 R4 Hb Hc Hw. unfold amount_step.
  apply always_bind; [apply always_lift|]. intros amount.
  apply always_bind; [apply always_getOrCreateAddress|]. intros addr.
  apply always_bind.
  { unfold call_getBalance.
    apply always_bind; [apply always_emit, Hb|]. intros _. apply always_lift. }
  intros bal. destruct (isNaN amount || greaterThan amount bal)%bool.
  - apply always_reply_then_clear, R1.
  - apply always_bind; [apply always_sendReply; assumption|]. intros _.
    apply always_bind; [|intros _; apply always_clear].
    unfold submit_trade. apply always_catch; [|intros e; apply always_reply_only, R4].
    apply always_bind.
    { unfold call_createTrade.
      apply always_bind; [apply always_emit, Hc|]. intros _. apply always_lift. }
    intros trade. apply always_bind.
    { unfold call_wait.
      apply always_bind; [apply always_emit, Hw|]. intros _. apply always_lift. }
    intros _. apply always_bind; [apply always_sendReply; [apply R3|assumption]|].
    intros _. apply always_ret.
Qed.

Lemma always_asset_step w text t :
  (forall b, okev (EvReply msg_cannot_sell_eth b) = true) ->
  (forall b, okev (EvReply (amount_prompt t) b) = true) ->
  okpatch (asset_patch (toLowerCase w text)) = true -> always (asset_step w uid text t) R.
Proof.
  intros R1 R2 Hp. unfold asset_step.
  destruct (Js.eqb (toLowerCase w text) "eth" && is_sell t)%bool.
  - apply always_reply_then_clear, R1.
  - apply always_bind; [apply always_update, Hp|]. intros _.
    apply always_bind; [apply always_sendReply; assumption|]. intros _.
    apply always_ret.
Qed.

(** [executeTrade] and what catches its errors. *)
Lemma always_executeTrade w text t st :
  (forall text' b, is_flow_reply text' = true -> okev (EvReply text' b) = true) ->
  (forall a, okpatch (asset_patch a) = true) ->
  (forall x y, okev (EvGetBalance x y) = true) ->
  (forall x y z u, okev (EvCreateTrade x y z u) = true) ->
  (forall x, okev (EvTradeWait x) = true) ->
  always (executeTrade w uid text t st) R.
Proof.
  intros Hr Hp Hb Hc Hw. unfold executeTrade.
  apply always_catch;
    [|intros e; apply always_reply_then_clear; intros b; apply Hr; reflexivity].
  destruct (negb (truthy_str (asset st))).
  - apply always_asset_step; [| |apply Hp]; intros b; apply Hr;
      destruct t; reflexivity.
  - apply always_amount_step; try assumption; intros; apply Hr;
      destruct t; reflexivity.
Qed.

(** A text that arrives while a flow is active, from the middleware to
    the error handler. *)
Lemma always_flow_update w text m :
  flow_active (state_of m uid) = true ->
  (forall text' b, is_flow_reply text' = true -> okev (EvReply text' b) = true) ->
  (forall a, okpatch (asset_patch a) = true) ->
  (forall x y, okev (EvGetBalance x y) = true) ->
  (forall x y z u, okev (EvCreateTrade x y z u) = true) ->
  (forall x, okev (EvTradeWait x) = true) ->
  R m (snd (handle_update w uid (TextMessage text) m)).
Proof.
  intros Hflow Hr Hp Hb Hc Hw.
  assert (Hall : always
            (try_catch
               (try_catch (run_route w uid text (route (state_of m uid) text))
                  (fun _ => ctx_reply w msg_handler_error ;;; clearUserState uid))
               (bot_catch w)) R).
  { apply always_catch;
      [|intros e; apply always_bot_catch; intros b; apply Hr; reflexivity].
    apply always_catch;
      [|intros e; apply always_reply_then_clear; intros b; apply Hr; reflexivity].
    unfold route. rewrite Hflow.
    destruct (truthy_flag (buyRequested (state_of m uid))); simpl;
      unfold handleBuy, handleSell;
      (apply always_bind; [apply always_getUserState|]); intros st';
      apply always_executeTrade; assumption. }
  destruct (handle_update w uid (TextMessage text) m) as [r m'] eqn:Hrun.
  exact (Hall m r m' Hrun).
Qed.

Hypothesis ok_reply : forall t b, okev (EvReply t b) = true.
Hypothesis ok_list : forall a, okev (EvListBalances a) = true.

Lemma always_handleCheckBalance w : always (handleCheckBalance w uid) R.
Proof.
  unfold handleCheckBalance. apply always_catch.
  - apply always_bind; [apply always_getOrCreateAddress|]. intros a.
    apply always_bind.
    { unfold call_listBalances.
      apply always_bind; [apply always_emit, ok_list|]. intros _. apply always_lift. }
    intros bm. apply always_bind; [apply always_sendReply; [intros b; apply ok_reply|assumption]|].
    intros _. apply always_ret.
  - intros e. apply always_reply_only. intros b. apply ok_reply.
Qed.

Lemma always_handleDeposit w : always (handleDeposit w uid) R.
Proof.
  unfold handleDeposit. apply always_catch.
  - apply always_bind; [apply always_getOrCreateAddress|]. intros a.
    do 3 (apply always_bind;
          [apply always_sendReply; [intros b; apply ok_reply|assumption]|]; intros _).
    apply always_ret.
  - intros e. apply always_reply_only. intros b. apply ok_reply.
Qed.

Lemma always_on_start w : always (on_start w uid) R.
Proof.
  unfold on_start. apply always_catch.
  - apply always_bind; [apply always_getOrCreateAddress|]. intros a.
    apply always_reply_only. intros b. apply ok_reply.
  - intros e. apply always_reply_only. intros b. apply ok_reply.
Qed.

Lemma always_handleInitialBuy w :
  okpatch buy_patch = true -> always (handleInitialBuy w uid) R.
Proof.
  intros Hp. unfold handleInitialBuy.
  apply always_bind; [apply always_update, Hp|]. intros _.
  apply always_bind; [apply always_sendReply; [intros b; apply ok_reply|assumption]|].
  intros _. apply always_ret.
Qed.

Lemma always_handleInitialSell w :
  okpatch sell_patch = true -> always (handleInitialSell w uid) R.
Proof.
  intros Hp. unfold handleInitialSell.
  apply always_bind; [apply always_update, Hp|]. intros _.
  apply always_bind; [apply always_sendReply; [intros b; apply ok_reply|assumption]|].
  intros _. apply always_ret.
Qed.

(** The whole of an update, when every patch and every call respects [R]. *)
Lemma always_handle_update w u :
  (forall p, okpatch p = true) -> (forall ev, okev ev = true) ->
  always (handle_update w uid u) R.
Proof.
  intros Hp He. unfold handle_update.
  apply always_catch; [|intros e; apply always_bot_catch; intros; apply He].
  destruct u as [|text]; simpl; [apply always_on_start|].
  unfold on_message.
  apply always_bind; [apply always_getUserState|]. intros st.
  apply always_catch; [|intros e; apply always_reply_then_clear; intros; apply He].
  assert (Hexec : forall t st', always (executeTrade w uid text t st') R).
  { intros t st'. apply always_executeTrade; intros; first [apply He|apply Hp]. }
  destruct (route st text); simpl.
  - unfold handleBuy. apply always_bind; [apply always_getUserState|].
    intros st'. apply Hexec.
  - unfold handleSell. apply always_bind; [apply always_getUserState|].
    intros st'. apply Hexec.
  - apply always_handleCheckBalance.
  - apply always_handleDeposit.
  - apply always_handleInitialBuy, Hp.
  - apply always_handleInitialSell, Hp.
  - apply always_reply_only. intros; apply He.
  - apply always_reply_only. intros; apply He.
  - apply always_reply_only. intros; apply He.
Qed.

End Preserved.

(** ** Users do not interfere, records are never lost *)

Lemma framed_refl uid m : framed uid m m.
Proof. repeat split; auto. intros k doc H. exact H. Qed.

Lemma framed_trans uid m1 m2 m3 :
  framed uid m1 m2 -> framed uid m2 m3 -> framed uid m1 m3.
Proof.
  intros [[Hs1 Hd1] Hk1] [[Hs2 Hd2] Hk2]. repeat split.
  - intros u Hu. rewrite (Hs2 u Hu). exact (Hs1 u Hu).
  - intros k Hk. rewrite (Hd2 k Hk). exact (Hd1 k Hk).
  - intros k doc H. exact (Hk2 k doc (Hk1 k doc H)).
Qed.

Lemma handle_update_framed w uid u :
  always (handle_update w uid u) (framed uid).
Proof.
  apply (always_handle_update uid (framed uid) (fun _ => true) (fun _ => true));
    try reflexivity.
  - apply framed_refl.
  - apply framed_trans.
  - intros ev m _. unfold framed, others_untouched, records_kept. simpl. auto.
  - intros p m _. unfold framed, others_untouched, records_kept. simpl.
    repeat split; auto.
    intros v Hv. apply lookup_insert_ne. congruence.
  - intros m. unfold framed, others_untouched, records_kept. simpl.
    repeat split; auto.
    intros v Hv. apply lookup_delete_ne. congruence.
  - intros doc m Hnone. unfold framed, others_untouched, records_kept. simpl.
    repeat split; auto.
    + intros k Hk. apply lookup_insert_ne. congruence.
    + intros k d Hd. destruct (decide (uid = k)) as [->|Hne].
      * rewrite Hnone in Hd. discriminate.
      * rewrite lookup_insert_ne by exact Hne. exact Hd.
Qed.

(** X1. Updates sent by other users, however many and whatever their
    outcome, leave a user's conversation state and stored record exactly
    as they were. *)
Theorem other_users_updates_do_not_interfere (l : list Arrival) (v : Z) (m : Machine) :
  Forall (fun a => arr_from a <> v) l ->
  userStates (run_updates l m) !! v = userStates m !! v
  /\ db (run_updates l m) !! v = db m !! v.
Proof.
  intros Hl. revert m. induction Hl as [|a l Ha _ IH]; intros m; [split; reflexivity|].
  simpl. destruct (IH (snd (handle_update (arr_world a) (arr_from a) (arr_update a) m)))
    as [Hs Hd].
  rewrite Hs, Hd.
  destruct (handle_update _ _ _ m) as [r m'] eqn:Hrun.
  destruct (handle_update_framed _ _ _ _ _ _ Hrun) as [[Hst Hdb] _].
  simpl. split; [apply Hst|apply Hdb]; congruence.
Qed.

(** X2. No sequence of updates deletes or replaces a stored credential
    record: a record that is in the store stays there unchanged.  (The
    code removes no document, and its only write is a [put] without a
    revision, which the store refuses when a document with that id
    exists.) *)
Theorem stored_records_are_never_lost (l : list Arrival) (m : Machine) (k : Z) (doc : DbDoc) :
  db m !! k = Some doc -> db (run_updates l m) !! k = Some doc.
Proof.
  revert m. induction l as [|a l IH]; intros m Hdoc; [exact Hdoc|].
  simpl. apply IH.
  destruct (handle_update _ _ _ m) as [r m'] eqn:Hrun.
  destruct (handle_update_framed _ _ _ _ _ _ Hrun) as [_ Hkept].
  simpl. exact (Hkept k doc Hdoc).
Qed.

(** ** Which calls an update can make *)

Lemma none_of_app f l1 l2 : none_of f l1 -> none_of f l2 -> none_of f (l1 ++ l2).
Proof.
  unfold none_of. intros H1 H2. rewrite forallb_app, H1, H2. reflexivity.
Qed.

Lemma none_of_not_in f l ev : none_of f l -> f ev = true -> ~ In ev l.
Proof.
  unfold none_of. rewrite forallb_forall. intros H Hf Hin.
  specialize (H ev Hin). rewrite Hf in H. discriminate.
Qed.

Lemma quiet_refl f m : extended_by (none_of f) m m.
Proof. exists []. split; [symmetry; apply app_nil_r|reflexivity]. Qed.

Lemma quiet_trans f m1 m2 m3 :
  extended_by (none_of f) m1 m2 -> extended_by (none_of f) m2 m3 ->
  extended_by (none_of f) m1 m3.
Proof.
  intros (l1 & H1 & Hq1) (l2 & H2 & Hq2). exists (l1 ++ l2).
  split; [rewrite H2, H1, app_assoc; reflexivity|apply none_of_app; assumption].
Qed.

Lemma quiet_log f ev m : negb (f ev) = true -> extended_by (none_of f) m (log ev m).
Proof.
  intros Hev. exists [ev]. split; [reflexivity|].
  unfold none_of. simpl. rewrite Hev. reflexivity.
Qed.

Lemma quiet_same_trace f (m m' : Machine) :
  trace m' = trace m -> extended_by (none_of f) m m'.
Proof. intros H. exists []. split; [rewrite H, app_nil_r; reflexivity|reflexivity]. Qed.

Lemma quiet_events f m m' :
  extended_by (none_of f) m m' -> none_of f (events_since m m').
Proof. intros (l & Hl & Hq). rewrite (events_since_app m m' l Hl). exact Hq. Qed.

Ltac by_preservation f L :=
  first [ eapply L with (okev := fun ev => negb (f ev)) (okpatch := fun _ : UState => true)
        | eapply L with (okev := fun ev => negb (f ev))
        | eapply L with (okpatch := fun _ : UState => true)
        | eapply L ];
  try assumption; try (intros; reflexivity).

(** A text that arrives outside the amount step is handled without any
    call to the provider's balance and trade operations. *)
Lemma route_outside_amount_step_quiet w uid text m :
  in_amount_step (state_of m uid) = false ->
  always (fun m0 => run_route w uid text (route (state_of m uid) text) m)
         (fun _ m' => extended_by (none_of is_provider_trade_call) m m').
Proof.
  intros Hstep m0 r m' Hrun.
  set (Q := extended_by (none_of is_provider_trade_call)).
  assert (Hrefl : forall x, Q x x) by (intros; apply quiet_refl).
  assert (Htrans : forall x y z, Q x y -> Q y z -> Q x z) by (intros x y z; apply quiet_trans).
  assert (Hlog : forall ev x, negb (is_provider_trade_call ev) = true -> Q x (log ev x))
    by (intros; apply quiet_log; assumption).
  assert (Hupd : forall p x, (fun _ : UState => true) p = true ->
                             Q x (snd (updateUserState uid p x)))
    by (intros; apply quiet_same_trace; reflexivity).
  assert (Hclr : forall x, Q x (snd (clearUserState uid x)))
    by (intros; apply quiet_same_trace; reflexivity).
  assert (Hput : forall doc x, db x !! uid = None ->
            Q x (mkMachine (userStates x) (<[uid := doc]> (db x)) (trace x)))
    by (intros; apply quiet_same_trace; reflexivity).
  assert (Hcatch : always (ctx_reply w msg_error ;;; clearUserState uid) Q)
    by (by_preservation is_provider_trade_call always_reply_then_clear).
  unfold route in Hrun.
  destruct (flow_active (state_of m uid)) eqn:Hflow.
  - unfold in_amount_step in Hstep. rewrite Hflow in Hstep. simpl in Hstep.
    assert (Hexec : forall t, always (executeTrade w uid text t (state_of m uid)) Q).
    { intros t. unfold executeTrade. rewrite Hstep. simpl.
      eapply always_catch; [exact Htrans| |intros e; exact Hcatch].
      by_preservation is_provider_trade_call always_asset_step. }
    destruct (truthy_flag (buyRequested (state_of m uid))); simpl in Hrun;
      unfold handleBuy, handleSell, bind at 1, getUserState in Hrun;
      fold (state_of m uid) in Hrun; exact (Hexec _ _ _ _ Hrun).
  - repeat match type of Hrun with
           | context [if ?b then _ else _] => destruct b
           end; simpl in Hrun; revert Hrun;
      match goal with |- ?c m = _ -> _ =>
        assert (Hc : always c Q); [|exact (Hc m r m')] end.
    + by_preservation is_provider_trade_call always_handleCheckBalance.
    + by_preservation is_provider_trade_call always_handleDeposit.
    + by_preservation is_provider_trade_call always_handleInitialBuy.
    + by_preservation is_provider_trade_call always_handleInitialSell.
    + by_preservation is_provider_trade_call always_reply_only.
    + by_preservation is_provider_trade_call always_reply_only.
    + by_preservation is_provider_trade_call always_reply_only.
Qed.

Tactic Notation "quiet_setup" constr(f) constr(uid) ident(Q) :=
  set (Q := extended_by (none_of f));
  assert (Hrefl : forall x, Q x x) by (intros; apply quiet_refl);
  assert (Htrans : forall x y z, Q x y -> Q y z -> Q x z)
    by (intros x y z; apply quiet_trans);
  assert (Hlog : forall ev x, negb (f ev) = true -> Q x (log ev x))
    by (intros; apply quiet_log; assumption);
  assert (Hupd : forall p x, (fun _ : UState => true) p = true ->
                             Q x (snd (updateUserState uid p x)))
    by (intros; apply quiet_same_trace; reflexivity);
  assert (Hclr : forall x, Q x (snd (clearUserState uid x)))
    by (intros; apply quiet_same_trace; reflexivity);
  assert (Hput : forall doc x, db x !! uid = None ->
            Q x (mkMachine (userStates x) (<[uid := doc]> (db x)) (trace x)))
    by (intros; apply quiet_same_trace; reflexivity).

Lemma handle_update_outside_amount_step w uid u m :
  u = StartCommand \/ in_amount_step (state_of m uid) = false ->
  extended_by (none_of is_provider_trade_call) m (snd (handle_update w uid u m)).
Proof.
  intros Hcase.
  quiet_setup is_provider_trade_call uid Q.
  assert (Hbot : forall e, always (bot_catch w e) Q)
    by (intros e; by_preservation is_provider_trade_call always_bot_catch).
  assert (Hdisp : forall r m1, dispatch w uid u m = (r, m1) -> Q m m1).
  { intros r m1 Hrun. destruct u as [|text].
    - simpl in Hrun. revert Hrun.
      assert (Hc : always (on_start w uid) Q)
        by (by_preservation is_provider_trade_call always_on_start).
      apply Hc.
    - destruct Hcase as [Hu|Hstep]; [discriminate Hu|].
      simpl in Hrun. unfold on_message, bind at 1, getUserState in Hrun.
      fold (state_of m uid) in Hrun. unfold try_catch in Hrun.
      destruct (run_route w uid text (route (state_of m uid) text) m)
        as [[[]|e] m2] eqn:Hroute.
      + inversion Hrun; subst.
        exact (route_outside_amount_step_quiet w uid text m Hstep m _ _ Hroute).
      + apply (Htrans _ m2);
          [exact (route_outside_amount_step_quiet w uid text m Hstep m _ _ Hroute)|].
        revert Hrun.
        assert (Hc : always (ctx_reply w msg_handler_error ;;; clearUserState uid) Q)
          by (by_preservation is_provider_trade_call always_reply_then_clear).
        apply Hc. }
  unfold handle_update, try_catch.
  destruct (dispatch w uid u m) as [[[]|e] m1] eqn:Hrun; simpl.
  - exact (Hdisp _ _ eq_refl).
  - destruct (bot_catch w e m1) as [r2 m2] eqn:Hb. simpl.
    exact (Htrans _ _ _ (Hdisp _ _ eq_refl) (Hbot e _ _ _ Hb)).
Qed.

(** X3. Only a text that arrives in the amount step reaches the
    provider's balance and trade operations: a [/start] command, and any
    text arriving in another state, is handled without a call to
    [getBalance], [createTrade] or [wait], whatever fails on the way. *)
Theorem only_amount_step_reaches_trading w uid u m :
  u = StartCommand \/ in_amount_step (state_of m uid) = false ->
  none_of is_provider_trade_call (events_since m (snd (handle_update w uid u m))).
Proof.
  intros Hcase. apply quiet_events, handle_update_outside_amount_step, Hcase.
Qed.

(** ** A trade is submitted at most once, and only after validation *)

Lemma sendReply_trace w uid text m r m' :
  sendReply w uid text m = (r, m') ->
  trace m' = trace m ++ [EvReply text (is_ok r)].
Proof.
  unfold sendReply, try_catch, bind at 1, ctx_reply.
  destruct (reply_result w (reply_count m) text) as [id|e];
    intros H; inversion H; subst; reflexivity.
Qed.

Lemma submit_trade_shape w uid t addr amount a m r m' :
  submit_trade w uid t addr amount a m = (r, m') ->
  exists l2,
    trace m' = trace m
      ++ EvCreateTrade addr amount (fst (tradeType t a)) (snd (tradeType t a)) :: l2
    /\ none_of is_createTrade l2.
Proof.
  intros Hrun. quiet_setup is_createTrade uid Q.
  assert (Hrest : forall trade,
            always (call_wait w trade ;;;
                    sendReply w uid (msg_success t (tx_link trade)) ;;; ret tt) Q).
  { intros trade. eapply always_bind; [exact Htrans| |intros _].
    - unfold call_wait. eapply always_bind; [exact Htrans| |intros _].
      + intros x r0 x' H0. inversion H0; subst. apply Hlog. reflexivity.
      + intros x r0 x' H0. inversion H0; subst. apply Hrefl.
    - eapply always_bind; [exact Htrans| |intros _].
      + by_preservation is_createTrade always_sendReply.
      + intros x r0 x' H0. inversion H0; subst. apply Hrefl. }
  assert (Hcatch : always (ctx_reply w (msg_trade_error t) ;;; ret tt) Q)
    by (by_preservation is_createTrade always_reply_only).
  unfold submit_trade, try_catch, bind at 1, call_createTrade, bind at 1, emit, lift
    in Hrun.
  set (m1 := log _ m) in Hrun.
  assert (Hgoal : Q m1 m' -> exists l2,
            trace m' = trace m
              ++ EvCreateTrade addr amount (fst (tradeType t a)) (snd (tradeType t a)) :: l2
            /\ none_of is_createTrade l2).
  { intros (l2 & Hl2 & Hq). exists l2. split; [|exact Hq].
    rewrite Hl2. subst m1. simpl. rewrite <- app_assoc. reflexivity. }
  apply Hgoal.
  destruct (createTrade w addr amount _ _) as [trade|e].
  - destruct ((call_wait w trade ;;;
               sendReply w uid (msg_success t (tx_link trade)) ;;; ret tt) m1)
      as [[u|e] m2] eqn:Hr.
    + inversion Hrun; subst. exact (Hrest trade _ _ _ Hr).
    + exact (Htrans _ _ _ (Hrest trade _ _ _ Hr) (Hcatch _ _ _ Hrun)).
  - exact (Hcatch _ _ _ Hrun).
Qed.

Lemma validated_then_quiet w text t a m m1 m2 :
  at_most_one_validated_trade w text t a m m1 ->
  extended_by (none_of is_createTrade) m1 m2 ->
  at_most_one_validated_trade w text t a m m2.
Proof.
  intros (l & Hl & Hcase) (l' & Hl' & Hq). exists (l ++ l').
  split; [rewrite Hl', Hl, app_assoc; reflexivity|].
  destruct Hcase as [Hnone|(l1 & l2 & amount & addr & bal & -> & H1 & H2 & Hrest)].
  - left. apply none_of_app; assumption.
  - right. exists l1, (l2 ++ l'), amount, addr, bal.
    rewrite <- app_assoc. simpl. split; [reflexivity|].
    split; [exact H1|]. split; [apply none_of_app; assumption|exact Hrest].
Qed.

Lemma quiet_is_at_most_one w text t a m m' :
  extended_by (none_of is_createTrade) m m' ->
  at_most_one_validated_trade w text t a m m'.
Proof. intros (l & Hl & Hq). exists l. auto. Qed.

(** Whatever happens in the amount step, it submits no trade or one
    validated trade. *)
Lemma amount_step_trades w uid text t a m r m' :
  amount_step w uid text t a m = (r, m') ->
  at_most_one_validated_trade w text t a m m'.
Proof.
  intros Hrun. quiet_setup is_createTrade uid Q.
  unfold amount_step, bind at 1, lift in Hrun.
  destruct (new_Decimal w text) as [amount|e] eqn:Hamt.
  2:{ inversion Hrun; subst. apply quiet_is_at_most_one, Hrefl. }
  unfold bind at 1 in Hrun.
  destruct (getOrCreateAddress w uid m) as [[addr|e] m1] eqn:Haddr.
  2:{ inversion Hrun; subst. apply quiet_is_at_most_one. revert Haddr.
      assert (Hc : always (getOrCreateAddress w uid) Q)
        by (by_preservation is_createTrade always_getOrCreateAddress).
      apply Hc. }
  assert (Hq1 : Q m m1).
  { revert Haddr.
    assert (Hc : always (getOrCreateAddress w uid) Q)
      by (by_preservation is_createTrade always_getOrCreateAddress).
    apply Hc. }
  unfold bind at 1, call_getBalance, bind at 1, emit, lift in Hrun.
  set (m2 := log _ m1) in Hrun.
  assert (Hq2 : Q m m2).
  { apply (Htrans _ m1); [exact Hq1|]. apply Hlog. reflexivity. }
  destruct (getBalance w addr (spend_asset t a)) as [bal|e] eqn:Hbal.
  2:{ inversion Hrun; subst. apply quiet_is_at_most_one, Hq2. }
  fold (rejected amount bal) in Hrun.
  destruct (rejected amount bal) eqn:Hrej.
  { apply quiet_is_at_most_one. apply (Htrans _ m2); [exact Hq2|].
    revert Hrun.
    assert (Hc : always (ctx_reply w msg_insufficient ;;; clearUserState uid) Q)
      by (by_preservation is_createTrade always_reply_then_clear).
    apply Hc. }
  unfold bind at 1 in Hrun.
  destruct (sendReply w uid (msg_initiating t) m2) as [[id|e] m3] eqn:Hsend.
  2:{ inversion Hrun; subst. apply quiet_is_at_most_one.
      apply (Htrans _ m2); [exact Hq2|]. revert Hsend.
      assert (Hc : always (sendReply w uid (msg_initiating t)) Q)
        by (by_preservation is_createTrade always_sendReply).
      apply Hc. }
  pose proof (sendReply_trace _ _ _ _ _ _ Hsend) as Ht3.
  change (is_ok (Ok id)) with true in Ht3.
  destruct Hq2 as (la & Hla & Hqa).
  unfold bind at 1 in Hrun.
  destruct (submit_trade w uid t addr amount a m3) as [[u|e] m4] eqn:Hsub.
  - destruct (submit_trade_shape _ _ _ _ _ _ _ _ _ Hsub) as (l2 & Hl2 & Hq2').
    unfold clearUserState in Hrun. inversion Hrun; subst. simpl.
    exists ((la ++ [EvReply (msg_initiating t) true])
              ++ EvCreateTrade addr amount (fst (tradeType t a)) (snd (tradeType t a))
              :: l2).
    split; [rewrite Hl2, Ht3, Hla, <- !app_assoc; reflexivity|].
    right. exists (la ++ [EvReply (msg_initiating t) true]), l2, amount, addr, bal.
    repeat split; try assumption.
    + apply none_of_app; [exact Hqa|reflexivity].
    + apply in_or_app. right. left. reflexivity.
  - destruct (submit_trade_shape _ _ _ _ _ _ _ _ _ Hsub) as (l2 & Hl2 & Hq2').
    inversion Hrun; subst.
    exists ((la ++ [EvReply (msg_initiating t) true])
              ++ EvCreateTrade addr amount (fst (tradeType t a)) (snd (tradeType t a))
              :: l2).
    split; [rewrite Hl2, Ht3, Hla, <- !app_assoc; reflexivity|].
    right. exists (la ++ [EvReply (msg_initiating t) true]), l2, amount, addr, bal.
    repeat split; try assumption.
    + apply none_of_app; [exact Hqa|reflexivity].
    + apply in_or_app. right. left. reflexivity.
Qed.

Lemma none_of_weaken (f g : Event -> bool) l :
  (forall ev, g ev = true -> f ev = true) -> none_of f l -> none_of g l.
Proof.
  unfold none_of. rewrite !forallb_forall. intros Himp H ev Hin.
  specialize (H ev Hin). destruct (g ev) eqn:Hg; [|reflexivity].
  rewrite (Himp ev Hg) in H. exact H.
Qed.

Lemma flow_active_has_state m uid :
  flow_active (state_of m uid) = true ->
  userStates m !! uid = Some (state_of m uid).
Proof.
  unfold state_of. destruct (userStates m !! uid); [reflexivity|discriminate].
Qed.

(** What an update does about trades, in every state and world. *)
Lemma handle_update_trades w uid u m :
  extended_by (none_of is_createTrade) m (snd (handle_update w uid u m))
  \/ (exists text a,
        u = TextMessage text
        /\ in_amount_step (state_of m uid) = true
        /\ asset (state_of m uid) = Some a
        /\ at_most_one_validated_trade w text (flow_type (state_of m uid)) a m
             (snd (handle_update w uid u m))).
Proof.
  assert (Hweak : forall x y,
            extended_by (none_of is_provider_trade_call) x y ->
            extended_by (none_of is_createTrade) x y).
  { intros x y (l & Hl & Hq). exists l. split; [exact Hl|].
    apply (none_of_weaken is_provider_trade_call); [|exact Hq].
    intros [] H; try discriminate H; reflexivity. }
  destruct u as [|text].
  { left. apply Hweak, handle_update_outside_amount_step. left. reflexivity. }
  destruct (in_amount_step (state_of m uid)) eqn:Hstep.
  2:{ left. apply Hweak, handle_update_outside_amount_step. right. exact Hstep. }
  right. unfold in_amount_step in Hstep. apply andb_true_iff in Hstep.
  destruct Hstep as [Hflow Hasset].
  destruct (asset (state_of m uid)) as [a|] eqn:Ha; [|discriminate Hasset].
  exists text, a. split; [reflexivity|].
  split; [reflexivity|]. split; [reflexivity|].
  quiet_setup is_createTrade uid Q.
  assert (Hc1 : always (ctx_reply w msg_error ;;; clearUserState uid) Q)
    by (by_preservation is_createTrade always_reply_then_clear).
  assert (Hc2 : always (ctx_reply w msg_handler_error ;;; clearUserState uid) Q)
    by (by_preservation is_createTrade always_reply_then_clear).
  assert (Hc3 : forall e, always (bot_catch w e) Q)
    by (intros e; by_preservation is_createTrade always_bot_catch).
  unfold handle_update, try_catch at 1. simpl dispatch.
  rewrite (on_message_flow w uid text _ m (flow_active_has_state m uid Hflow) Hflow).
  unfold try_catch at 1, executeTrade, try_catch at 1.
  rewrite Ha, Hasset. simpl.
  destruct (amount_step w uid text (flow_type (state_of m uid)) a m)
    as [[[]|e1] m1] eqn:Hrun;
    pose proof (amount_step_trades _ _ _ _ _ _ _ _ Hrun) as H1; simpl.
  - exact H1.
  - destruct ((ctx_reply w msg_error ;;; clearUserState uid) m1)
      as [[[]|e2] m2] eqn:Hr2;
      pose proof (validated_then_quiet _ _ _ _ _ _ _ H1 (Hc1 _ _ _ Hr2)) as H2; simpl.
    + exact H2.
    + unfold handler_catch.
      destruct ((ctx_reply w msg_handler_error ;;; clearUserState uid) m2)
        as [[[]|e3] m3] eqn:Hr3;
        pose proof (validated_then_quiet _ _ _ _ _ _ _ H2 (Hc2 _ _ _ Hr3)) as H3; simpl.
      * exact H3.
      * destruct (bot_catch w e3 m3) as [r4 m4] eqn:Hr4. simpl.
        exact (validated_then_quiet _ _ _ _ _ _ _ H3 (Hc3 _ _ _ _ Hr4)).
Qed.

Lemma none_of_filter f l : none_of f l -> List.filter f l = [].
Proof.
  unfold none_of. induction l as [|ev l IH]; simpl; [reflexivity|].
  intros H. apply andb_true_iff in H. destruct H as [Hev Hl].
  destruct (f ev); [discriminate Hev|]. apply IH, Hl.
Qed.

(** X4. Whatever the world does, one update submits at most one trade. *)
Theorem at_most_one_trade_per_update w uid u m :
  (trades (events_since m (snd (handle_update w uid u m))) <= 1)%nat.
Proof.
  assert (Hcount : forall text t a m',
            at_most_one_validated_trade w text t a m m' ->
            (trades (events_since m m') <= 1)%nat).
  { intros text t a m' (l & Hl & Hcase). rewrite (events_since_app m m' l Hl).
    unfold trades.
    destruct Hcase as [Hq|(l1 & l2 & amount & addr & bal & -> & H1 & H2 & _)].
    - rewrite (none_of_filter _ _ Hq). simpl. lia.
    - rewrite List.filter_app. simpl.
      rewrite (none_of_filter _ _ H1), (none_of_filter _ _ H2). simpl. lia. }
  destruct (handle_update_trades w uid u m) as [Hq|(text & a & _ & _ & _ & H)].
  - apply (Hcount "" buy ""). apply quiet_is_at_most_one, Hq.
  - exact (Hcount _ _ _ _ H).
Qed.

(** X5. A trade reaches the provider only from a text that arrives in
    the amount step, only with the amount that text reads as, only for
    the address whose balance was asked for, and only when that amount is
    a number not greater than the balance the provider reported; the
    assets are the stored asset and ETH in the order of the flow. *)
Theorem trade_only_after_validation w uid u m addr amount f t :
  In (EvCreateTrade addr amount f t) (events_since m (snd (handle_update w uid u m))) ->
  exists text a bal,
    u = TextMessage text
    /\ in_amount_step (state_of m uid) = true
    /\ asset (state_of m uid) = Some a
    /\ new_Decimal w text = Ok amount
    /\ getBalance w addr (spend_asset (flow_type (state_of m uid)) a) = Ok bal
    /\ isNaN amount = false /\ greaterThan amount bal = false
    /\ (f, t) = tradeType (flow_type (state_of m uid)) a.
Proof.
  intros Hin.
  destruct (handle_update_trades w uid u m) as [Hq|(text & a & Hu & Hstep & Ha & H)].
  { apply quiet_events in Hq.
    destruct (none_of_not_in _ _ _ Hq (eq_refl : is_createTrade
                (EvCreateTrade addr amount f t) = true) Hin). }
  destruct H as (l & Hl & Hcase). rewrite (events_since_app _ _ l Hl) in Hin.
  destruct Hcase as [Hq|(l1 & l2 & amount' & addr' & bal & -> & H1 & H2 & Hamt & Hbal & Hrej & _)].
  { destruct (none_of_not_in _ _ _ Hq (eq_refl : is_createTrade
                (EvCreateTrade addr amount f t) = true) Hin). }
  apply in_app_or in Hin. destruct Hin as [Hin|[Heq|Hin]].
  - destruct (none_of_not_in _ _ _ H1 (eq_refl : is_createTrade
                (EvCreateTrade addr amount f t) = true) Hin).
  - inversion Heq; subst. exists text, a, bal.
    unfold rejected in Hrej. apply orb_false_iff in Hrej. destruct Hrej as [Hn Hg].
    repeat split; try assumption.
    destruct (tradeType (flow_type (state_of m uid)) a); reflexivity.
  - destruct (none_of_not_in _ _ _ H2 (eq_refl : is_createTrade
                (EvCreateTrade addr amount f t) = true) Hin).
Qed.

(** ** What commands and menu texts leave alone *)

Lemma state_of_update uid p m :
  state_of (snd (updateUserState uid p m)) uid = spread (state_of m uid) p.
Proof. unfold state_of. simpl. rewrite lookup_insert_eq. reflexivity. Qed.

Lemma state_of_clear uid m : state_of (snd (clearUserState uid m)) uid = empty_state.
Proof. unfold state_of. simpl. rewrite lookup_delete_eq. reflexivity. Qed.

Lemma benign_patch_same_flow st p :
  benign_patch p = true -> same_flow st (spread st p).
Proof.
  unfold benign_patch, same_flow.
  destruct p as [b s stp a ad l]; simpl.
  destruct b, s, stp, a; try discriminate. intros _. repeat split.
Qed.

(** The [/start] command changes nothing of the sender's state but the
    cached address, whatever fails. *)
Lemma start_same_but_address w uid :
  always (handle_update w uid StartCommand) (same_but_address uid).
Proof.
  set (Q := same_but_address uid).
  assert (Hrefl : forall x, Q x x) by (intros x; repeat split).
  assert (Htrans : forall x y z, Q x y -> Q y z -> Q x z).
  { intros x y z [(A1 & A2 & A3 & A4) A5] [(B1 & B2 & B3 & B4) B5].
    repeat split; congruence. }
  assert (Hlog : forall ev x, (fun _ : Event => true) ev = true -> Q x (log ev x))
    by (intros ev x _; repeat split).
  assert (Hupd : forall p x, address_only p = true -> Q x (snd (updateUserState uid p x))).
  { intros p x Hp. unfold address_only in Hp. apply andb_true_iff in Hp.
    destruct Hp as [Hb Hl]. unfold Q, same_but_address. rewrite state_of_update.
    split; [apply benign_patch_same_flow, Hb|].
    destruct p as [b s stp a ad l]; simpl in *. destruct l; [discriminate|reflexivity]. }
  assert (Hput : forall doc x, db x !! uid = None ->
            Q x (mkMachine (userStates x) (<[uid := doc]> (db x)) (trace x)))
    by (intros; repeat split).
  unfold handle_update. eapply always_catch; [exact Htrans| |intros e].
  - simpl. eapply always_on_start with (okev := fun _ => true) (okpatch := address_only);
      try assumption; try (intros; reflexivity).
  - eapply always_bot_catch with (okev := fun _ => true);
      try assumption; try (intros; reflexivity).
Qed.

(** X6. A [/start] command in the middle of a flow neither cancels nor
    advances it: the flow flags, the step, the asset and the id of the
    last reply of the sender are the same afterwards, whatever fails; only
    the cached address may have been added. *)
Theorem start_command_keeps_the_flow w uid m :
  let st := state_of m uid in
  let st' := state_of (snd (handle_update w uid StartCommand m)) uid in
  buyRequested st' = buyRequested st
  /\ sellRequested st' = sellRequested st
  /\ step st' = step st
  /\ asset st' = asset st
  /\ lastMessageId st' = lastMessageId st.
Proof.
  intros st st'.
  destruct (handle_update w uid StartCommand m) as [r m'] eqn:Hrun.
  destruct (start_same_but_address w uid _ _ _ Hrun) as [(H1 & H2 & H3 & H4) H5].
  subst st st'. simpl. auto.
Qed.

Lemma same_flow_idle st st' : same_flow st st' -> idle st -> idle st'.
Proof.
  intros (H1 & H2 & _ & H4) [Hf Ha]. unfold idle, flow_active in *.
  rewrite H1, H2, H4. auto.
Qed.

(** X7. From Idle, a text that is neither ["Buy"] nor ["Sell"] starts
    nothing: whichever menu command it is, or none, and whatever fails
    while it is handled, the sender is Idle afterwards. *)
Theorem only_buy_and_sell_start_a_flow w uid text m :
  idle (state_of m uid) ->
  text <> "Buy" -> text <> "Sell" ->
  idle (state_of (snd (handle_update w uid (TextMessage text) m)) uid).
Proof.
  intros Hidle Hbuy Hsell.
  set (Q := keeps_idle uid).
  assert (Hrefl : forall x, Q x x) by (intros x H; exact H).
  assert (Htrans : forall x y z, Q x y -> Q y z -> Q x z)
    by (intros x y z H1 H2 H; exact (H2 (H1 H))).
  assert (Hlog : forall ev x, (fun _ : Event => true) ev = true -> Q x (log ev x))
    by (intros ev x _ H; exact H).
  assert (Hupd : forall p x, benign_patch p = true -> Q x (snd (updateUserState uid p x))).
  { intros p x Hp H. rewrite state_of_update.
    exact (same_flow_idle _ _ (benign_patch_same_flow _ p Hp) H). }
  assert (Hclr : forall x, Q x (snd (clearUserState uid x))).
  { intros x _. rewrite state_of_clear. split; reflexivity. }
  assert (Hput : forall doc x, db x !! uid = None ->
            Q x (mkMachine (userStates x) (<[uid := doc]> (db x)) (trace x)))
    by (intros doc x _ H; exact H).
  assert (Hroute : always (fun m0 => run_route w uid text (route (state_of m uid) text) m0) Q).
  { unfold route. destruct Hidle as [Hflow _]. rewrite Hflow.
    destruct (str_eqb_spec text "Check Balance");
      [eapply always_handleCheckBalance with (okev := fun _ => true)
         (okpatch := benign_patch); try assumption; try (intros; reflexivity)|].
    destruct (str_eqb_spec text "Deposit");
      [eapply always_handleDeposit with (okev := fun _ => true)
         (okpatch := benign_patch); try assumption; try (intros; reflexivity)|].
    destruct (str_eqb_spec text "Buy"); [contradiction|].
    destruct (str_eqb_spec text "Sell"); [contradiction|].
    destruct (Js.eqb text "Help"), (Js.eqb text "Settings"); simpl;
      eapply always_reply_only with (okev := fun _ => true);
      try assumption; try (intros; reflexivity). }
  assert (Hall : always
            (try_catch
               (try_catch (run_route w uid text (route (state_of m uid) text))
                  (fun _ => ctx_reply w msg_handler_error ;;; clearUserState uid))
               (bot_catch w)) Q).
  { apply always_catch; [exact Htrans| |intros e].
    - apply always_catch; [exact Htrans|exact Hroute|intros e].
      eapply always_reply_then_clear with (okev := fun _ => true);
        try assumption; try (intros; reflexivity).
    - eapply always_bot_catch with (okev := fun _ => true);
        try assumption; try (intros; reflexivity). }
  destruct (handle_update w uid (TextMessage text) m) as [r m'] eqn:Hrun.
  exact (Hall m r m' Hrun Hidle).
Qed.

(** ** The shape of every conversation state *)

Lemma well_formed_empty : well_formed empty_state.
Proof. repeat split; simpl; intros H; congruence. Qed.

Lemma well_formed_state_of m uid :
  states_well_formed m -> well_formed (state_of m uid).
Proof.
  intros HW. unfold state_of. destruct (userStates m !! uid) as [st|] eqn:E.
  - exact (HW uid st E).
  - apply well_formed_empty.
Qed.

Lemma same_flow_well_formed st st' : same_flow st st' -> well_formed st -> well_formed st'.
Proof.
  intros (H1 & H2 & H3 & H4) (W1 & W2 & W3). unfold well_formed, flow_active in *.
  rewrite H1, H2, H3, H4. auto.
Qed.

Lemma well_formed_insert uid st m d t :
  states_well_formed m -> well_formed st ->
  states_well_formed (mkMachine (<[uid := st]> (userStates m)) d t).
Proof.
  intros HW Hst u s. simpl. destruct (decide (uid = u)) as [->|Hne].
  - rewrite lookup_insert_eq. intros H. inversion H; subst. exact Hst.
  - rewrite lookup_insert_ne by exact Hne. apply HW.
Qed.

Lemma well_formed_asset_patch st text :
  well_formed st -> flow_active st = true -> well_formed (spread st (asset_patch text)).
Proof.
  intros (W1 & W2 & W3) Hflow. unfold well_formed, flow_active in *. simpl.
  repeat split; auto.
Qed.

Lemma well_formed_flow_patch st p :
  well_formed st -> flow_active st = false ->
  p = buy_patch \/ p = sell_patch ->
  well_formed (spread st p).
Proof.
  intros (W1 & W2 & W3) Hflow Hp.
  assert (Hstep : step st = None).
  { destruct (step st) eqn:E; [|reflexivity].
    rewrite W1 in Hflow by discriminate. discriminate. }
  assert (Hasset : asset st = None).
  { destruct (asset st) eqn:E; [|reflexivity].
    rewrite W2 in Hstep by discriminate. discriminate. }
  unfold flow_active in Hflow. apply orb_false_iff in Hflow. destruct Hflow as [Hb Hs].
  unfold well_formed, flow_active.
  destruct Hp as [-> | ->]; simpl; rewrite ?Hasset, ?Hb, ?Hs; repeat split;
    try reflexivity; try (intros H; congruence).
Qed.

(** One update keeps every state object well formed. *)
Lemma handle_update_well_formed w uid u m :
  states_well_formed m -> states_well_formed (snd (handle_update w uid u m)).
Proof.
  intros HW.
  set (Q := fun x y : Machine => states_well_formed x -> states_well_formed y).
  assert (Hrefl : forall x, Q x x) by (intros x H; exact H).
  assert (Htrans : forall x y z, Q x y -> Q y z -> Q x z)
    by (intros x y z H1 H2 H; exact (H2 (H1 H))).
  assert (Hlog : forall ev x, (fun _ : Event => true) ev = true -> Q x (log ev x))
    by (intros ev x _ H; exact H).
  assert (Hupd : forall p x, benign_patch p = true -> Q x (snd (updateUserState uid p x))).
  { intros p x Hp H. apply well_formed_insert; [exact H|].
    fold (state_of x uid).
    exact (same_flow_well_formed _ _ (benign_patch_same_flow _ p Hp)
             (well_formed_state_of x uid H)). }
  assert (Hclr : forall x, Q x (snd (clearUserState uid x))).
  { intros x H u0 s. simpl. intros Hl. apply lookup_delete_Some in Hl.
    exact (H u0 s (proj2 Hl)). }
  assert (Hput : forall doc x, db x !! uid = None ->
            Q x (mkMachine (userStates x) (<[uid := doc]> (db x)) (trace x)))
    by (intros doc x _ H; exact H).
  assert (Hreply : forall t, always (sendReply w uid t ;;; ret tt) Q).
  { intros t. apply always_bind; [exact Htrans| |intros _].
    - eapply always_sendReply with (okev := fun _ => true) (okpatch := benign_patch);
        try assumption; try (intros; reflexivity).
    - intros x r y H. inversion H; subst. apply Hrefl. }
  assert (Hrc : forall t, always (ctx_reply w t ;;; clearUserState uid) Q).
  { intros t. eapply always_reply_then_clear with (okev := fun _ => true);
      try assumption; try (intros; reflexivity). }
  assert (Hro : forall t, always (ctx_reply w t ;;; ret tt) Q).
  { intros t. eapply always_reply_only with (okev := fun _ => true);
      try assumption; try (intros; reflexivity). }
  assert (Hpatch : forall p k r y,
            well_formed (spread (state_of m uid) p) ->
            (updateUserState uid p ;;; sendReply w uid k ;;; ret tt) m = (r, y) ->
            states_well_formed y).
  { intros p k r y Hwf Hrun. unfold bind at 1, updateUserState in Hrun.
    fold (state_of m uid) in Hrun.
    refine (Hreply k _ _ _ Hrun _). apply well_formed_insert; assumption. }
  pose proof (well_formed_state_of m uid HW) as Hst.
  assert (Hroute : forall text r y,
            run_route w uid text (route (state_of m uid) text) m = (r, y) ->
            states_well_formed y).
  { intros text r y Hrun. unfold route in Hrun.
    destruct (flow_active (state_of m uid)) eqn:Hflow.
    - assert (Hexec : forall t, executeTrade w uid text t (state_of m uid) m = (r, y) ->
                states_well_formed y).
      { intros t He. unfold executeTrade, try_catch in He.
        destruct (truthy_str (asset (state_of m uid))); simpl in He.
        - destruct (amount_step w uid text t _ m) as [[[]|e] m1] eqn:Hr.
          + inversion He; subst. revert Hr.
            assert (Hc : always (amount_step w uid text t
                                   (default "" (asset (state_of m uid)))) Q).
            { eapply always_amount_step with (okev := fun _ => true)
                (okpatch := benign_patch); try assumption; try (intros; reflexivity). }
            intros Hr. exact (Hc _ _ _ Hr HW).
          + refine (Hrc _ _ _ _ He _). revert Hr.
            assert (Hc : always (amount_step w uid text t
                                   (default "" (asset (state_of m uid)))) Q).
            { eapply always_amount_step with (okev := fun _ => true)
                (okpatch := benign_patch); try assumption; try (intros; reflexivity). }
            intros Hr. exact (Hc _ _ _ Hr HW).
        - assert (Hstep : forall r1 m1, asset_step w uid text t m = (r1, m1) ->
                    states_well_formed m1).
          { intros r1 m1 Hr. unfold asset_step in Hr.
            destruct (Js.eqb (toLowerCase w text) "eth" && is_sell t)%bool.
            - exact (Hrc _ _ _ _ Hr HW).
            - refine (Hpatch _ _ _ _ _ Hr).
              apply well_formed_asset_patch; assumption. }
          destruct (asset_step w uid text t m) as [[[]|e] m1] eqn:Hr.
          + inversion He; subst. exact (Hstep _ _ eq_refl).
          + exact (Hrc _ _ _ _ He (Hstep _ _ eq_refl)). }
      destruct (truthy_flag (buyRequested (state_of m uid))); simpl in Hrun;
        unfold handleBuy, handleSell, bind at 1, getUserState in Hrun;
        fold (state_of m uid) in Hrun; exact (Hexec _ Hrun).
    - repeat match type of Hrun with
             | context [if ?b then _ else _] => destruct b
             end; simpl in Hrun.
      + revert Hrun.
        assert (Hc : always (handleCheckBalance w uid) Q).
        { eapply always_handleCheckBalance with (okev := fun _ => true)
            (okpatch := benign_patch); try assumption; try (intros; reflexivity). }
        intros Hrun. exact (Hc _ _ _ Hrun HW).
      + revert Hrun.
        assert (Hc : always (handleDeposit w uid) Q).
        { eapply always_handleDeposit with (okev := fun _ => true)
            (okpatch := benign_patch); try assumption; try (intros; reflexivity). }
        intros Hrun. exact (Hc _ _ _ Hrun HW).
      + refine (Hpatch _ _ _ _ _ Hrun).
        apply well_formed_flow_patch; auto.
      + refine (Hpatch _ _ _ _ _ Hrun).
        apply well_formed_flow_patch; auto.
      + exact (Hro _ _ _ _ Hrun HW).
      + exact (Hro _ _ _ _ Hrun HW).
      + exact (Hro _ _ _ _ Hrun HW). }
  assert (Hbot : forall e, always (bot_catch w e) Q).
  { intros e. eapply always_bot_catch with (okev := fun _ => true);
      try assumption; try (intros; reflexivity). }
  assert (Hdisp : forall r y, dispatch w uid u m = (r, y) -> states_well_formed y).
  { intros r y Hrun. destruct u as [|text]; simpl in Hrun.
    - revert Hrun.
      assert (Hc : always (on_start w uid) Q).
      { eapply always_on_start with (okev := fun _ => true) (okpatch := benign_patch);
          try assumption; try (intros; reflexivity). }
      intros Hrun. exact (Hc _ _ _ Hrun HW).
    - unfold on_message, bind at 1, getUserState in Hrun.
      fold (state_of m uid) in Hrun. unfold try_catch in Hrun.
      destruct (run_route w uid text (route (state_of m uid) text) m)
        as [[[]|e] m1] eqn:Hr.
      + inversion Hrun; subst. exact (Hroute _ _ _ Hr).
      + exact (Hrc _ _ _ _ Hrun (Hroute _ _ _ Hr)). }
  unfold handle_update, try_catch.
  destruct (dispatch w uid u m) as [[[]|e] m1] eqn:Hrun; simpl.
  - exact (Hdisp _ _ eq_refl).
  - destruct (bot_catch w e m1) as [r2 m2] eqn:Hb. simpl.
    exact (Hbot e _ _ _ Hb (Hdisp _ _ eq_refl)).
Qed.

(** X8. Every state object the process ever holds is well formed: a step
    is set only while a flow is requested, an asset is stored only in
    step ["amount"], and the buy and the sell flow are never both
    requested.  This holds after any sequence of updates, from any users,
    whatever fails. *)
Theorem conversation_states_stay_well_formed (l : list Arrival) (m : Machine) :
  states_well_formed m -> states_well_formed (run_updates l m).
Proof.
  revert m. induction l as [|a l IH]; intros m HW; [exact HW|].
  simpl. apply IH, handle_update_well_formed, HW.
Qed.

(** ** When the transport is down *)

Lemma same_flow_refl st : same_flow st st.
Proof. repeat split. Qed.

Lemma same_flow_trans s1 s2 s3 : same_flow s1 s2 -> same_flow s2 s3 -> same_flow s1 s3.
Proof.
  intros (A1 & A2 & A3 & A4) (B1 & B2 & B3 & B4). repeat split; congruence.
Qed.

Lemma failed_reply_skips {A} w text (k : Z -> M A) m :
  replies_fail w ->
  exists e, (x <- ctx_reply w text ;; k x) m = (Throw e, log (EvReply text false) m).
Proof.
  intros Hf. unfold bind, ctx_reply. specialize (Hf (reply_count m) text).
  destruct (reply_result w (reply_count m) text) as [id|e]; [discriminate|].
  exists e. reflexivity.
Qed.

Lemma failed_sendReply_skips {A} w uid text (k : Z -> M A) m :
  replies_fail w ->
  exists e, (x <- sendReply w uid text ;; k x) m = (Throw e, log (EvReply text false) m).
Proof.
  intros Hf. unfold bind at 1, sendReply, try_catch.
  destruct (failed_reply_skips w text
              (fun message_id => updateUserState uid (message_patch message_id) ;;;
                                 ret message_id) m Hf) as [e He].
  rewrite He. exists e. reflexivity.
Qed.

(** X9. With the chat transport down, a text that arrives in the amount
    step changes nothing of the flow and submits no trade: the sender is
    still in the amount step afterwards, with the same asset.  (Every
    [clearUserState] of that path comes after a reply.) *)
Theorem transport_down_keeps_the_amount_step w uid text m :
  replies_fail w ->
  in_amount_step (state_of m uid) = true ->
  let m' := snd (handle_update w uid (TextMessage text) m) in
  same_flow (state_of m uid) (state_of m' uid)
  /\ in_amount_step (state_of m' uid) = true
  /\ trades (events_since m m') = 0%nat.
Proof.
  intros Hfail Hstep m'.
  set (Q := flow_kept_no_trade uid).
  assert (Hrefl : forall x, Q x x).
  { intros x. split; [apply same_flow_refl|apply quiet_refl]. }
  assert (Htrans : forall x y z, Q x y -> Q y z -> Q x z).
  { intros x y z [A1 A2] [B1 B2].
    split; [exact (same_flow_trans _ _ _ A1 B1)|exact (quiet_trans _ _ _ _ A2 B2)]. }
  assert (Hlog : forall ev x, negb (is_createTrade ev) = true -> Q x (log ev x)).
  { intros ev x Hev. split; [apply same_flow_refl|apply quiet_log, Hev]. }
  assert (Hupd : forall p x, benign_patch p = true -> Q x (snd (updateUserState uid p x))).
  { intros p x Hp. split; [|apply quiet_same_trace; reflexivity].
    rewrite state_of_update. apply benign_patch_same_flow, Hp. }
  assert (Hput : forall doc x, db x !! uid = None ->
            Q x (mkMachine (userStates x) (<[uid := doc]> (db x)) (trace x))).
  { intros doc x _. split; [apply same_flow_refl|apply quiet_same_trace; reflexivity]. }
  assert (Hskip : forall t (k : Z -> M unit), always (x <- ctx_reply w t ;; k x) Q).
  { intros t k x r y Hrun. destruct (failed_reply_skips w t k x Hfail) as [e He].
    rewrite He in Hrun. inversion Hrun; subst. apply Hlog. reflexivity. }
  assert (Hskip' : forall t (k : Z -> M unit), always (x <- sendReply w uid t ;; k x) Q).
  { intros t k x r y Hrun. destruct (failed_sendReply_skips w uid t k x Hfail) as [e He].
    rewrite He in Hrun. inversion Hrun; subst. apply Hlog. reflexivity. }
  assert (Hamount : forall t a, always (amount_step w uid text t a) Q).
  { intros t a. unfold amount_step.
    apply always_bind; [exact Htrans| |intros amount].
    { intros x r y H. inversion H; subst. apply Hrefl. }
    apply always_bind; [exact Htrans| |intros addr].
    { eapply always_getOrCreateAddress with (okev := fun ev => negb (is_createTrade ev))
        (okpatch := benign_patch); try assumption; try (intros; reflexivity). }
    apply always_bind; [exact Htrans| |intros bal].
    { unfold call_getBalance. apply always_bind; [exact Htrans| |intros _].
      - intros x r y H. inversion H; subst. apply Hlog. reflexivity.
      - intros x r y H. inversion H; subst. apply Hrefl. }
    destruct (isNaN amount || greaterThan amount bal)%bool; [apply Hskip|apply Hskip']. }
  assert (Hbot : forall e, always (bot_catch w e) Q).
  { intros e. eapply always_bot_catch with (okev := fun ev => negb (is_createTrade ev));
      try assumption; try (intros; reflexivity). }
  assert (Hall : Q m m').
  { unfold in_amount_step in Hstep. apply andb_true_iff in Hstep.
    destruct Hstep as [Hflow Hasset].
    unfold m'.
    assert (Hc : always
              (try_catch
                 (try_catch
                    (try_catch
                       (amount_step w uid text (flow_type (state_of m uid))
                          (default "" (asset (state_of m uid))))
                       (fun _ => ctx_reply w msg_error ;;; clearUserState uid))
                    (handler_catch w uid))
                 (bot_catch w)) Q).
    { apply always_catch; [exact Htrans| |exact Hbot].
      apply always_catch; [exact Htrans| |intros e; apply Hskip].
      apply always_catch; [exact Htrans|apply Hamount|intros e; apply Hskip]. }
    assert (Heq : handle_update w uid (TextMessage text) m
            = try_catch
                (try_catch
                   (try_catch
                      (amount_step w uid text (flow_type (state_of m uid))
                         (default "" (asset (state_of m uid))))
                      (fun _ => ctx_reply w msg_error ;;; clearUserState uid))
                   (handler_catch w uid))
                (bot_catch w) m).
    { unfold handle_update. simpl dispatch. unfold try_catch at 1 4.
      rewrite (on_message_flow w uid text _ m (flow_active_has_state m uid Hflow) Hflow).
      unfold executeTrade. rewrite Hasset. reflexivity. }
    rewrite Heq.
    match goal with |- Q m (snd ?c) => destruct c as [r y] eqn:Hrun end.
    exact (Hc _ _ _ Hrun). }
  destruct Hall as [Hsame Hq]. split; [exact Hsame|]. split.
  - destruct Hsame as (H1 & H2 & _ & H4).
    unfold in_amount_step, flow_active in *. rewrite H1, H2, H4. exact Hstep.
  - unfold trades. rewrite (none_of_filter _ _ (quiet_events _ _ _ Hq)). reflexivity.
Qed.

(** ** The two flows, step by step *)

(** X10. A sell flow in the amount step, with an amount that parses, a
    resolved address and a known balance: the balance asked for is that of
    the stored asset itself; an amount that is NaN or greater than it gets
    the insufficient-balance reply and nothing is submitted; otherwise the
    trade goes from the stored asset to ETH with exactly that amount.  The
    state is cleared in both cases. *)
Theorem sell_amount_validation w uid text st a amount addr m m1 bal :
  userStates m !! uid = Some st ->
  truthy_flag (buyRequested st) = false ->
  truthy_flag (sellRequested st) = true ->
  asset st = Some a -> a <> "" ->
  replies_delivered w ->
  new_Decimal w text = Ok amount ->
  getOrCreateAddress w uid m = (Ok addr, m1) ->
  getBalance w addr a = Ok bal ->
  let m' := snd (on_message w uid text m) in
  let new := events_since m1 m' in
  (rejected amount bal = true ->
   new = [EvGetBalance addr a; EvReply msg_insufficient true])
  /\ (rejected amount bal = false ->
      new = [EvGetBalance addr a; EvReply (msg_initiating sell) true;
             EvCreateTrade addr amount a Coinbase_assets_Eth]
            ++ after_submission w sell addr amount a Coinbase_assets_Eth)
  /\ userStates m' !! uid = None.
Proof.
  intros Hst Hbuy Hsell Hasset Hne Hd Hamt Haddr Hbal m' new.
  assert (Hflow : flow_active st = true)
    by (unfold flow_active; rewrite Hbuy, Hsell; reflexivity).
  assert (Ht : flow_type st = sell) by (unfold flow_type; rewrite Hbuy; reflexivity).
  destruct (on_message_amount_run w uid text st a m amount addr m1 bal
              Hst Hflow Hasset Hne Hd Hamt Haddr) as (m2 & Hrun & Hclr & _ & Hev).
  { rewrite Ht. exact Hbal. }
  rewrite Ht in Hev. simpl in Hev.
  assert (Hm' : m' = m2) by (unfold m'; rewrite Hrun; reflexivity).
  unfold new. rewrite Hm', Hev. repeat split.
  - intros ->. reflexivity.
  - intros ->. reflexivity.
  - exact Hclr.
Qed.

Lemma on_message_buy_from_idle w uid m :
  replies_delivered w ->
  idle (state_of m uid) ->
  exists id,
    on_message w uid "Buy" m
    = (Ok tt,
       mkMachine
         (<[uid := spread (spread (state_of m uid) buy_patch) (message_patch id)]>
            (userStates m))
         (db m) (trace m ++ [EvReply msg_ask_buy true])).
Proof.
  intros Hd [Hflow _].
  unfold on_message, bind at 1, getUserState. fold (state_of m uid).
  unfold route. rewrite Hflow. simpl.
  unfold try_catch, handleInitialBuy, bind at 1, updateUserState.
  fold (state_of m uid). set (m0 := mkMachine _ _ _).
  destruct (sendReply_full w uid msg_ask_buy m0 Hd) as [id Hs].
  unfold bind, ret. rewrite Hs. exists id. subst m0. simpl.
  unfold state_of at 1. simpl. rewrite lookup_insert_eq. simpl.
  rewrite insert_insert_eq. reflexivity.
Qed.

(** X11. From Idle, ["Buy"] followed by any text: the text, lower-cased,
    is stored as the asset and the flow waits for the amount.  The buy
    flow refuses no asset, ["eth"] included; the two replies are the two
    prompts. *)
Theorem buy_then_asset_awaits_amount w uid t m :
  replies_delivered w ->
  idle (state_of m uid) ->
  let m1 := snd (on_message w uid "Buy" m) in
  let m2 := snd (on_message w uid t m1) in
  let st2 := state_of m2 uid in
  buyRequested st2 = Some true
  /\ truthy_flag (sellRequested st2) = false
  /\ step st2 = Some "amount"
  /\ asset st2 = Some (toLowerCase w t)
  /\ address st2 = address (state_of m uid)
  /\ events_since m m2 = [EvReply msg_ask_buy true; EvReply msg_amount_buy true].
Proof.
  intros Hd Hidle m1 m2 st2.
  destruct (on_message_buy_from_idle w uid m Hd Hidle) as [id Hbuy].
  destruct Hidle as [Hflow Hasset].
  set (st1 := spread (spread (state_of m uid) buy_patch) (message_patch id)).
  assert (Hm1 : userStates m1 !! uid = Some st1).
  { unfold m1. rewrite Hbuy. simpl. apply lookup_insert_eq. }
  assert (Hflow1 : flow_active st1 = true) by reflexivity.
  assert (Htype : flow_type st1 = buy) by reflexivity.
  assert (Hasset1 : asset st1 = None) by (unfold st1; simpl; exact Hasset).
  assert (Hrun : exists id2 m2',
            on_message w uid t m1 = (Ok tt, m2')
            /\ userStates m2' !! uid
               = Some (spread (spread st1 (asset_patch (toLowerCase w t))) (message_patch id2))
            /\ trace m2' = trace m1 ++ [EvReply msg_amount_buy true]).
  { rewrite (on_message_flow w uid t st1 m1 Hm1 Hflow1).
    unfold try_catch, executeTrade. rewrite Hasset1, Htype. simpl.
    unfold try_catch.
    destruct (asset_step_run w uid t buy m1 Hd (andb_false_r _))
      as (id2 & m2' & Hr & Hu & _ & Ht).
    rewrite Hr. exists id2, m2'. repeat split; [|exact Ht].
    rewrite Hu. unfold state_of. rewrite Hm1. reflexivity. }
  destruct Hrun as (id2 & m2' & Hr & Hu & Ht).
  assert (Hm2 : m2 = m2') by (unfold m2; rewrite Hr; reflexivity).
  unfold st2, state_of. rewrite Hm2, Hu. simpl.
  unfold flow_active in Hflow. apply orb_false_iff in Hflow.
  repeat split; try apply Hflow.
  apply events_since_app. rewrite Ht. unfold m1. rewrite Hbuy. simpl.
  rewrite <- app_assoc. reflexivity.
Qed.

Lemma decrypt_encrypt_roundtrip_parts (key : str) (iv : bytes) (text : str) :
  length (hex_decode key) = 32%nat ->
  length iv = 16%nat ->
  is_well_formed text = true ->
  exists c, Codec.encrypt (Some key) text iv = Ok c
            /\ Codec.decrypt (Some key) c iv = Ok text.
Proof.
  intros Hkey Hiv Hwf.
  pose proof (cipher_init_right_length key iv Hiv Hkey) as Hinit.
  eexists. unfold Codec.encrypt. rewrite Hinit. split; [reflexivity|].
  apply encrypt_then_decrypt; [exact Hwf|].
  unfold Codec.encrypt. rewrite Hinit. reflexivity.
Qed.

(** ** The trade flow and the updates it does not see *)

Lemma state_of_lookup m uid st : userStates m !! uid = Some st -> state_of m uid = st.
Proof. intros H. unfold state_of. rewrite H. reflexivity. Qed.


(** Resolving the address only adds to the trace. *)
Lemma getOrCreateAddress_extends w uid m :
  exists l, trace (snd (getOrCreateAddress w uid m)) = trace m ++ l.
Proof.
  quiet_setup (fun _ : Event => false) uid Q.
  assert (Hc : always (getOrCreateAddress w uid) Q).
  { eapply always_getOrCreateAddress with (okev := fun _ => true)
      (okpatch := fun _ : UState => true); try assumption; try (intros; reflexivity). }
  destruct (getOrCreateAddress w uid m) as [r m'] eqn:Hrun.
  destruct (Hc _ _ _ Hrun) as (l & Hl & _). exists l. exact Hl.
Qed.

(** What the flow replies is never what a menu command replies. *)
Lemma flow_reply_is_no_menu_reply text :
  is_flow_reply text = true -> is_menu_reply text = false.
Proof.
  unfold is_flow_reply. rewrite !orb_true_iff. intros [[H|H]|H].
  - apply existsb_exists in H. destruct H as (x & Hin & Heq).
    apply str_eqb_eq in Heq. subst x.
    simpl in Hin. repeat (destruct Hin as [<-|Hin]; [reflexivity|]). destruct Hin.
  - destruct text as [|a [|b rest]]; try discriminate H;
      cbn [starts_with] in H; rewrite !andb_true_iff, !N.eqb_eq in H;
      [destruct H as [_ H]; discriminate H|].
    destruct H as (<- & <- & _). reflexivity.
  - destruct text as [|a [|b rest]]; try discriminate H;
      cbn [starts_with] in H; rewrite !andb_true_iff, !N.eqb_eq in H;
      [destruct H as [_ H]; discriminate H|].
    destruct H as (<- & <- & _). reflexivity.
Qed.

(** With a flow active, nothing a menu command does is done, whatever
    the text and whatever fails. *)
Lemma flow_update_runs_no_menu_command w uid text m :
  flow_active (state_of m uid) = true ->
  extended_by (none_of is_menu_event) m (snd (handle_update w uid (TextMessage text) m)).
Proof.
  intros Hflow.
  quiet_setup is_menu_event uid Q.
  eapply always_flow_update with (okev := fun ev => negb (is_menu_event ev))
    (okpatch := fun _ : UState => true);
    try assumption; try (intros; reflexivity).
  intros text' b Hr. simpl. rewrite (flow_reply_is_no_menu_reply text' Hr). reflexivity.
Qed.

(** C10, as the code has it.  With a buy or sell flow active, a text,
    the six menu labels included, is the input of the flow and no menu
    command runs: no balances are listed and no reply of a menu command is
    sent, whatever fails.  In the asset step the text, lower-cased, is
    stored as the asset and the amount is asked for; in the amount step the
    text is what is read as the amount: a text that is no decimal ends the
    flow with the error reply, and one that reads as an amount the balance
    covers is the amount of the trade.  A [/start] command is no such
    text: it leaves the flow as it is. *)
Theorem active_flow_consumes_every_text w uid text st m :
  userStates m !! uid = Some st ->
  flow_active st = true ->
  let m' := snd (handle_update w uid (TextMessage text) m) in
  let new := events_since m m' in
  none_of is_menu_event new
  /\ (replies_delivered w ->
      truthy_str (asset st) = false ->
      (Js.eqb (toLowerCase w text) "eth" && is_sell (flow_type st))%bool = false ->
      exists id,
        userStates m' !! uid
        = Some (mkUState (buyRequested st) (sellRequested st) (Some "amount")
                  (Some (toLowerCase w text)) (address st) (Some id))
        /\ new = [EvReply (amount_prompt (flow_type st)) true])
  /\ (replies_delivered w ->
      truthy_str (asset st) = true ->
      forall e, new_Decimal w text = Throw e ->
        cleared uid m' /\ new = [EvReply msg_error true])
  /\ (replies_delivered w ->
      forall a amount addr m1 bal,
        asset st = Some a -> a <> "" ->
        new_Decimal w text = Ok amount ->
        getOrCreateAddress w uid m = (Ok addr, m1) ->
        getBalance w addr (spend_asset (flow_type st) a) = Ok bal ->
        rejected amount bal = false ->
        In (EvCreateTrade addr amount (fst (tradeType (flow_type st) a))
              (snd (tradeType (flow_type st) a))) new)
  /\ same_flow st (state_of (snd (handle_update w uid StartCommand m)) uid).
Proof.
  intros Hst Hflow m' new.
  pose proof (state_of_lookup m uid st Hst) as Hstate.
  assert (Hdel : replies_delivered w ->
            handle_update w uid (TextMessage text) m = on_message w uid text m).
  { intros Hd. apply handle_update_returned. simpl.
    rewrite (on_message_returns w uid text m Hd). reflexivity. }
  split; [|split; [|split; [|split]]].
  - apply quiet_events, flow_update_runs_no_menu_command. rewrite Hstate. exact Hflow.
  - intros Hd Hasset Hne. unfold new, m'. rewrite (Hdel Hd).
    rewrite (on_message_flow w uid text st m Hst Hflow).
    unfold try_catch at 1, executeTrade. rewrite Hasset. simpl.
    destruct (asset_step_run w uid text (flow_type st) m Hd Hne)
      as (id & m2 & Hrun & Hu & _ & Ht).
    unfold try_catch. rewrite Hrun. simpl. exists id. split.
    + rewrite Hu, Hstate. unfold spread, asset_patch, message_patch, over. simpl.
      destruct st as [b s stp a ad l]. simpl in *.
      destruct a as [a|]; [|reflexivity].
      destruct a; [reflexivity|discriminate Hasset].
    + apply events_since_app. exact Ht.
  - intros Hd Hasset e He. unfold new, m', cleared. rewrite (Hdel Hd).
    rewrite (on_message_flow w uid text st m Hst Hflow).
    unfold try_catch at 1, executeTrade. rewrite Hasset. simpl.
    unfold try_catch, amount_step, bind at 1, lift. rewrite He.
    destruct (ctx_reply_run w msg_error m Hd) as [id Hr].
    unfold bind. rewrite Hr. simpl. split.
    + apply lookup_delete_eq.
    + apply events_since_app. reflexivity.
  - intros Hd a amount addr m1 bal Hasset Hne Hamt Haddr Hbal Hrej.
    destruct (on_message_amount_trace w uid text st a m amount addr m1 bal
                Hst Hflow Hasset Hne Hd Hamt Haddr Hbal) as (m2 & Hrun & Htr).
    rewrite Hrej in Htr.
    destruct (getOrCreateAddress_extends w uid m) as [l Hl].
    rewrite Haddr in Hl. simpl in Hl.
    unfold new, m'. rewrite (Hdel Hd), Hrun. simpl.
    rewrite (events_since_app m m2 (l ++ EvGetBalance addr (spend_asset (flow_type st) a)
               :: EvReply (msg_initiating (flow_type st)) true
               :: EvCreateTrade addr amount (fst (tradeType (flow_type st) a))
                    (snd (tradeType (flow_type st) a))
               :: after_submission w (flow_type st) addr amount
                    (fst (tradeType (flow_type st) a))
                    (snd (tradeType (flow_type st) a)))).
    + apply in_or_app. right. right. right. left. reflexivity.
    + rewrite Htr, Hl, <- app_assoc. reflexivity.
  - destruct (handle_update w uid StartCommand m) as [r ms] eqn:Hrun.
    destruct (start_same_but_address w uid _ _ _ Hrun) as [Hsame _].
    simpl. rewrite Hstate in Hsame. exact Hsame.
Qed.

(** ** The credential store, at its edges *)

Lemma create_wallet_throw w uid m e m' :
  create_wallet w uid m = (Throw e, m') ->
  userStates m' = userStates m /\ db m' = db m.
Proof.
  unfold create_wallet, bind at 1, call_Wallet_create, bind at 1, emit, lift.
  destruct (Wallet_create w) as [wallet|e0];
    [|intros H; inversion H; subst; split; reflexivity].
  unfold bind at 1.
  destruct (Codec.encrypt _ _ _) as [enc|e0];
    [|intros H; inversion H; subst; split; reflexivity].
  unfold db_put, emit, bind, ret. simpl.
  destruct (db_put_fault w uid); [intros H; inversion H; subst; split; reflexivity|].
  destruct (db m !! uid); intros H; inversion H; subst. split; reflexivity.
Qed.

Lemma getOrCreateAddress_throw_frame w uid m e m' :
  getOrCreateAddress w uid m = (Throw e, m') ->
  userStates m' = userStates m /\ db m' = db m.
Proof.
  intros Hrun.
  destruct (address (state_of m uid)) as [a|] eqn:Hc.
  { rewrite (getOrCreateAddress_hit w uid m a Hc) in Hrun. discriminate. }
  rewrite (getOrCreateAddress_miss w uid m Hc) in Hrun.
  destruct (load_wallet_effects w uid m) as (tail & Hml & _).
  unfold bind at 1, try_catch, load_catch in Hrun.
  destruct (load_wallet w uid m) as [[wallet|e1] ml]; simpl in Hml; subst ml.
  - unfold bind, updateUserState, ret in Hrun. discriminate.
  - destruct (is_not_found e1).
    + destruct (create_wallet w uid _) as [[wallet|e2] m2] eqn:Hcr.
      * unfold bind, updateUserState, ret in Hrun. discriminate.
      * inversion Hrun; subst.
        destruct (create_wallet_throw _ _ _ _ _ Hcr) as [Hs Hd]. simpl in Hs, Hd. auto.
    + inversion Hrun; subst. split; reflexivity.
Qed.

(** X12. A call of [getOrCreateAddress] that fails leaves nothing behind
    in the process: the conversation states and the store are exactly as
    before (no address is cached, no record is written). *)
Theorem failed_resolution_changes_nothing w uid m e m' :
  getOrCreateAddress w uid m = (Throw e, m') ->
  userStates m' = userStates m /\ db m' = db m.
Proof. apply getOrCreateAddress_throw_frame. Qed.

Lemma load_wallet_missing w uid m :
  db_get_fault w uid = None -> db m !! uid = None ->
  load_wallet w uid m = (Throw err_missing, log (EvDbGet uid) m).
Proof.
  intros Hf Hn. unfold load_wallet, bind at 1, db_get, bind at 1, emit. simpl.
  rewrite Hf, Hn. reflexivity.
Qed.

Lemma getOrCreateAddress_creates w uid m :
  cache_miss m uid ->
  db_get_fault w uid = None -> db m !! uid = None ->
  getOrCreateAddress w uid m
  = (wallet <- create_wallet w uid ;;
     updateUserState uid (address_patch (w_default wallet)) ;;;
     ret (w_default wallet)) (log (EvDbGet uid) m).
Proof.
  intros Hmiss Hf Hn. rewrite (getOrCreateAddress_miss w uid m Hmiss).
  unfold bind at 1 3, try_catch. rewrite (load_wallet_missing w uid m Hf Hn).
  reflexivity.
Qed.

(** X13. With an encryption key that is present but does not decode to
    32 bytes, the first contact of a user without a record creates a
    wallet at the provider and then fails on [encrypt]: the wallet is
    stored nowhere and cached nowhere, so the next contact is in the same
    situation and creates another one. *)
Theorem malformed_key_orphans_a_wallet w uid m k wallet :
  cache_miss m uid ->
  db m !! uid = None ->
  db_get_fault w uid = None ->
  Wallet_create w = Ok wallet ->
  ENCRYPTION_KEY w = Some k ->
  length (hex_decode k) <> 32%nat ->
  let m' := snd (getOrCreateAddress w uid m) in
  fst (getOrCreateAddress w uid m) = Throw Codec.err_range
  /\ events_since m m' = [EvDbGet uid; EvWalletCreate]
  /\ cache_miss m' uid
  /\ db m' !! uid = None.
Proof.
  intros Hmiss Hnone Hfault Hcreate Hkey Hlen m'.
  assert (Hrun : getOrCreateAddress w uid m
                 = (Throw Codec.err_range,
                    mkMachine (userStates m) (db m)
                      (trace m ++ [EvDbGet uid; EvWalletCreate]))).
  { rewrite (getOrCreateAddress_creates w uid m Hmiss Hfault Hnone).
    unfold bind at 1, create_wallet, bind at 1, call_Wallet_create, bind at 1, emit, lift.
    rewrite Hcreate. unfold bind at 1. rewrite Hkey.
    unfold Codec.encrypt.
    rewrite (cipher_init_wrong_length k _ (randomBytes16_length w) Hlen).
    unfold log. simpl. rewrite <- app_assoc. reflexivity. }
  unfold m'. rewrite Hrun. simpl. repeat split.
  - apply events_since_mk.
  - exact Hmiss.
  - exact Hnone.
Qed.

(** X14. The first contact of a user without a record, when everything
    works: the store is read, a wallet is created, and one record is
    written under the user's id.  The record holds the IV in hex and data
    that decrypts, under that IV, to the JSON text of the wallet's export;
    the wallet's default address is returned and cached. *)
Theorem first_contact_creates_and_stores w uid m k wallet :
  cache_miss m uid ->
  db m !! uid = None ->
  db_get_fault w uid = None ->
  db_put_fault w uid = None ->
  Wallet_create w = Ok wallet ->
  ENCRYPTION_KEY w = Some k ->
  length (hex_decode k) = 32%nat ->
  let m' := snd (getOrCreateAddress w uid m) in
  exists doc,
    fst (getOrCreateAddress w uid m) = Ok (w_default wallet)
    /\ events_since m m' = [EvDbGet uid; EvWalletCreate; EvDbPut uid doc]
    /\ db m' = <[uid := doc]> (db m)
    /\ hex_decode (ivString doc) = randomBytes16 w
    /\ Codec.decrypt (Some k) (encryptedWalletData doc) (hex_decode (ivString doc))
       = Ok (JSON_stringify w (w_export wallet))
    /\ address (state_of m' uid) = Some (w_default wallet).
Proof.
  intros Hmiss Hnone Hfg Hfp Hcreate Hkey Hlen m'.
  destruct (decrypt_encrypt_roundtrip_parts k (randomBytes16 w)
              (JSON_stringify w (w_export wallet)) Hlen (randomBytes16_length w)
              (JSON_stringify_well_formed w _)) as (enc & Henc & Hdec).
  exists (mkDoc (hex_encode (randomBytes16 w)) enc).
  assert (Hrun : getOrCreateAddress w uid m
                 = (Ok (w_default wallet),
                    mkMachine
                      (<[uid := spread (state_of m uid) (address_patch (w_default wallet))]>
                         (userStates m))
                      (<[uid := mkDoc (hex_encode (randomBytes16 w)) enc]> (db m))
                      (trace m ++ [EvDbGet uid; EvWalletCreate;
                                   EvDbPut uid (mkDoc (hex_encode (randomBytes16 w)) enc)]))).
  { rewrite (getOrCreateAddress_creates w uid m Hmiss Hfg Hnone).
    unfold bind at 1, create_wallet, bind at 1, call_Wallet_create, bind at 1, emit, lift.
    rewrite Hcreate. unfold bind at 1. rewrite Hkey, Henc.
    unfold db_put, emit, bind, ret, updateUserState. simpl.
    rewrite Hfp, Hnone. unfold log, state_of. simpl.
    rewrite <- !app_assoc. reflexivity. }
  unfold m'. rewrite Hrun. simpl. repeat split.
  - apply events_since_mk.
  - apply hex_decode_encode.
  - rewrite hex_decode_encode. exact Hdec.
  - unfold state_of. simpl. rewrite lookup_insert_eq. reflexivity.
Qed.

(** ** The codec: size and injectivity *)

Lemma pkcs7_pad_length_exact p :
  length (Codec.pkcs7_pad p) = (16 * (length p / 16 + 1))%nat.
Proof.
  unfold Codec.pkcs7_pad. rewrite length_app, repeat_length.
  pose proof (Nat.div_mod_eq (length p) 16).
  pose proof (Nat.mod_upper_bound (length p) 16). lia.
Qed.

Lemma encrypt_bytes_length_exact key iv pt :
  length (Codec.encrypt_bytes key iv pt) = (16 * (length pt / 16 + 1))%nat.
Proof.
  pose proof (pkcs7_pad_length_exact pt) as Hlen.
  destruct (split16_whole _ _ Hlen) as (Hall & _ & Hn).
  unfold Codec.encrypt_bytes. rewrite concat_blocks_length.
  - rewrite cbc_enc_length, Hn. reflexivity.
  - apply cbc_enc_blocks; [apply encrypt_block_length|exact Hall].
Qed.

(** X15. What [encrypt] returns is hex for a whole number of 16-byte
    blocks, one more than the whole blocks of the text: [32 * (n / 16 + 1)]
    hex digits for a text of [n] bytes in UTF-8.  Padding is always added,
    so the result is never empty and a text of exactly 16 bytes takes two
    blocks. *)
Theorem ciphertext_length k text iv c :
  Codec.encrypt k text iv = Ok c ->
  length c = (32 * (length (utf8_encode text) / 16 + 1))%nat.
Proof.
  unfold Codec.encrypt. destruct (Codec.cipher_init k iv) as [key|e]; [|discriminate].
  intros H. inversion H; subst.
  rewrite hex_encode_length, encrypt_bytes_length_exact. lia.
Qed.

Lemma bxor_cancel_l a x y : Aes.bxor a x = Aes.bxor a y -> x = y.
Proof.
  destruct a as [a0 a1 a2 a3 a4 a5 a6 a7], x as [x0 x1 x2 x3 x4 x5 x6 x7],
           y as [y0 y1 y2 y3 y4 y5 y6 y7].
  simpl. intros H. injection H as H0 H1 H2 H3 H4 H5 H6 H7.
  f_equal; eapply xorb_move_l_r_1 in H0, H1, H2, H3, H4, H5, H6, H7;
    rewrite <- ?xorb_assoc, ?xorb_nilpotent, ?xorb_false_l in *; congruence.
Qed.

Lemma xor_bytes_cancel_l b : forall x y,
  length x = length b -> length y = length b ->
  Aes.xor_bytes b x = Aes.xor_bytes b y -> x = y.
Proof.
  induction b as [|a b IH]; intros [|x0 x] [|y0 y] Hx Hy H;
    try discriminate; [reflexivity|].
  simpl in H. injection H as Ha Hb.
  f_equal; [exact (bxor_cancel_l _ _ _ Ha)|].
  apply IH; simpl in Hx, Hy; congruence.
Qed.

Lemma cipher_init_ok k iv key :
  Codec.cipher_init k iv = Ok key ->
  length iv = 16%nat /\ exists s, k = Some s /\ key = hex_decode s.
Proof.
  unfold Codec.cipher_init. destruct k as [s|]; [|discriminate].
  destruct (Nat.eqb (length iv) 16) eqn:E; [|discriminate].
  destruct (negb (Nat.eqb (length (hex_decode s)) 32)); [discriminate|].
  intros H. inversion H; subst. split; [apply Nat.eqb_eq, E|]. eauto.
Qed.

Lemma same_ciphertext_same_iv key iv1 iv2 pt :
  length iv1 = 16%nat -> length iv2 = 16%nat ->
  Codec.encrypt_bytes key iv1 pt = Codec.encrypt_bytes key iv2 pt -> iv1 = iv2.
Proof.
  intros H1 H2 Heq. unfold Codec.encrypt_bytes in Heq.
  destruct (pkcs7_pad_length pt) as [n Hlen].
  destruct (split16_whole (S n) _ Hlen) as (Hall & _ & Hn).
  destruct (Codec.split16 (Codec.pkcs7_pad pt)) as [|b0 bs]; [discriminate Hn|].
  inversion Hall as [|? ? Hb0 _]; subst.
  change (Codec.cbc_enc (Aes.encrypt_block key) iv1 (b0 :: bs))
    with (Aes.encrypt_block key (Aes.xor_bytes b0 iv1)
          :: Codec.cbc_enc (Aes.encrypt_block key)
               (Aes.encrypt_block key (Aes.xor_bytes b0 iv1)) bs) in Heq.
  change (Codec.cbc_enc (Aes.encrypt_block key) iv2 (b0 :: bs))
    with (Aes.encrypt_block key (Aes.xor_bytes b0 iv2)
          :: Codec.cbc_enc (Aes.encrypt_block key)
               (Aes.encrypt_block key (Aes.xor_bytes b0 iv2)) bs) in Heq.
  rewrite !concat_cons in Heq. apply app_inj_1 in Heq.
  2:{ rewrite !encrypt_block_length, !xor_bytes_length. reflexivity. }
  destruct Heq as [Heq _].
  apply (f_equal (Aes.decrypt_block key)) in Heq.
  rewrite !decrypt_block_encrypt_block in Heq.
  apply (xor_bytes_cancel_l b0); congruence.
Qed.

(** A surrogate on its own is encoded as U+FFFD is. *)
Lemma lone_surrogate_encoding u :
  is_high_surrogate u = true \/ is_low_surrogate u = true ->
  utf8_encode [u] = utf8_encode [replacement].
Proof.
  intros H. cbn [utf8_encode].
  destruct (is_high_surrogate u); [reflexivity|].
  destruct H as [H|H]; [discriminate|]. rewrite H. reflexivity.
Qed.

(** X16. Under one key and one IV, two well-formed texts that differ
    have ciphertexts that differ; and one text under two IVs that differ
    has ciphertexts that differ, so a fresh IV per record gives records
    that differ even for identical wallets.  Texts that are not well
    formed can share a ciphertext: a surrogate on its own encrypts as
    U+FFFD does. *)
Theorem ciphertext_determines_text_and_iv k t1 t2 iv1 iv2 c1 c2 :
  Codec.encrypt k t1 iv1 = Ok c1 ->
  Codec.encrypt k t2 iv2 = Ok c2 ->
  (iv1 = iv2 -> is_well_formed t1 = true -> is_well_formed t2 = true ->
   t1 <> t2 -> c1 <> c2)
  /\ (t1 = t2 -> iv1 <> iv2 -> c1 <> c2)
  /\ (forall u, is_high_surrogate u = true \/ is_low_surrogate u = true ->
        Codec.encrypt k [u] iv1 = Codec.encrypt k [replacement] iv1).
Proof.
  intros H1 H2. split; [|split].
  - intros -> Hw1 Hw2 Hne Hc. subst c2. apply Hne.
    apply (encrypt_then_decrypt _ _ _ _ Hw1) in H1.
    apply (encrypt_then_decrypt _ _ _ _ Hw2) in H2. congruence.
  - intros -> Hne Hc. subst c2. apply Hne. unfold Codec.encrypt in H1, H2.
    destruct (Codec.cipher_init k iv1) as [key1|] eqn:E1; [|discriminate].
    destruct (Codec.cipher_init k iv2) as [key2|] eqn:E2; [|discriminate].
    destruct (cipher_init_ok _ _ _ E1) as (L1 & s1 & Hs1 & Hk1).
    destruct (cipher_init_ok _ _ _ E2) as (L2 & s2 & Hs2 & Hk2).
    assert (key1 = key2) by congruence.
    subst key2. inversion H1 as [Hc1]. inversion H2 as [Hc2].
    apply (same_ciphertext_same_iv key1 iv1 iv2 (utf8_encode t2) L1 L2).
    rewrite <- (hex_decode_encode (Codec.encrypt_bytes key1 iv1 _)).
    rewrite <- (hex_decode_encode (Codec.encrypt_bytes key1 iv2 _)).
    congruence.
  - intros u Hu. unfold Codec.encrypt. rewrite (lone_surrogate_encoding u Hu).
    reflexivity.
Qed.

(** ** The menu commands that resolve the address *)

(** [slice(11, -1)] drops the first 11 characters and the last one. *)
Lemma slice_11_m1_body (p body : str) (c : N) :
  length p = 11%nat ->
  slice_11_m1 (p ++ body ++ [c]) = body.
Proof.
  intros Hp. unfold slice_11_m1.
  rewrite !length_app, Hp. simpl length.
  replace (11 + (length body + 1) - 1 - 11)%nat with (length body) by lia.
  rewrite skipn_app, Hp, Nat.sub_diag, (skipn_all2 p) by lia.
  cbn [app]. rewrite skipn_O, firstn_app, firstn_all, Nat.sub_diag.
  cbn [firstn]. apply app_nil_r.
Qed.

(** X17. ["Check Balance"] from a state without a flow, when the address
    resolves and the provider lists the balances: the reply is the header
    followed by ["You have no balances."] for an empty map, and otherwise
    by the map's rendering without its first 11 characters and its last
    one, that is the body of ["BalanceMap{...}"]; a rendering of 12
    characters or fewer gives an empty body. *)
Theorem check_balance_reply w uid m addr m1 bm :
  flow_active (state_of m uid) = false ->
  replies_delivered w ->
  getOrCreateAddress w uid m = (Ok addr, m1) ->
  listBalances w addr = Ok bm ->
  let new := events_since m1 (snd (on_message w uid "Check Balance" m)) in
  (bm_size bm = 0%nat ->
   new = [EvListBalances addr;
          EvReply (msg_balances_header ++ "You have no balances.") true])
  /\ (forall body,
        bm_size bm <> 0%nat ->
        bm_toString bm = "BalanceMap{" ++ body ++ "}" ->
        new = [EvListBalances addr; EvReply (msg_balances_header ++ body) true])
  /\ (bm_size bm <> 0%nat ->
      (length (bm_toString bm) <= 12)%nat ->
      new = [EvListBalances addr; EvReply msg_balances_header true]).
Proof.
  intros Hflow Hd Haddr Hlist new.
  assert (Hrun : exists m',
            on_message w uid "Check Balance" m = (Ok tt, m')
            /\ trace m' = trace m1 ++
                 [EvListBalances addr;
                  EvReply (msg_balances_header ++
                             (if Nat.ltb 0 (bm_size bm)
                              then slice_11_m1 (bm_toString bm)
                              else "You have no balances.")) true]).
  { unfold on_message, bind at 1, getUserState. fold (state_of m uid).
    unfold route. rewrite Hflow. simpl.
    unfold try_catch, handleCheckBalance, try_catch, bind at 1. rewrite Haddr.
    unfold bind at 1, call_listBalances, bind at 1, emit, lift. rewrite Hlist.
    set (m2 := log _ m1).
    destruct (sendReply_run w uid
                (msg_balances_header ++
                   (if Nat.ltb 0 (bm_size bm) then slice_11_m1 (bm_toString bm)
                    else "You have no balances.")) m2 Hd)
      as (id & m3 & Hs & Ht & _).
    unfold msg_balances_header in Hs. unfold bind, ret. rewrite Hs.
    eexists. split; [reflexivity|]. rewrite Ht. subst m2. simpl.
    rewrite <- app_assoc. reflexivity. }
  destruct Hrun as (m' & Hrun & Ht).
  assert (Hnew : new = [EvListBalances addr;
                  EvReply (msg_balances_header ++
                             (if Nat.ltb 0 (bm_size bm)
                              then slice_11_m1 (bm_toString bm)
                              else "You have no balances.")) true]).
  { unfold new. rewrite Hrun. apply events_since_app. exact Ht. }
  rewrite Hnew. repeat split.
  - intros ->. reflexivity.
  - intros body Hsize Hstr.
    destruct (Nat.ltb_spec 0 (bm_size bm)); [|lia].
    rewrite Hstr. change "}" with [125%N].
    rewrite (slice_11_m1_body "BalanceMap{" body 125%N eq_refl). reflexivity.
  - intros Hsize Hlen.
    destruct (Nat.ltb_spec 0 (bm_size bm)); [|lia].
    unfold slice_11_m1.
    replace (length (bm_toString bm) - 1 - 11)%nat with 0%nat by lia.
    simpl firstn. rewrite app_nil_r. reflexivity.
Qed.

(** X18. ["Check Balance"] and ["Deposit"] when the address cannot be
    resolved: the handler answers with its own error text and returns; the
    error goes no further, and the conversation states and the store are
    exactly as before (nothing is reset, unlike in the trade flow). *)
Theorem menu_failure_is_answered w uid text err_text m e m1 :
  flow_active (state_of m uid) = false ->
  replies_delivered w ->
  menu_error_text text = Some err_text ->
  getOrCreateAddress w uid m = (Throw e, m1) ->
  let m' := snd (on_message w uid text m) in
  fst (on_message w uid text m) = Ok tt
  /\ events_since m1 m' = [EvReply err_text true]
  /\ userStates m' = userStates m
  /\ db m' = db m.
Proof.
  intros Hflow Hd Hmenu Haddr m'.
  destruct (getOrCreateAddress_throw_frame w uid m e m1 Haddr) as [Hs Hdb].
  destruct (ctx_reply_run w err_text m1 Hd) as [id Hr].
  assert (Hrun : on_message w uid text m = (Ok tt, log (EvReply err_text true) m1)).
  { unfold on_message, bind at 1, getUserState. fold (state_of m uid).
    unfold route. rewrite Hflow. unfold menu_error_text in Hmenu.
    destruct (Js.eqb text "Check Balance").
    - inversion Hmenu; subst. simpl.
      unfold try_catch, handleCheckBalance, try_catch, bind at 1. rewrite Haddr.
      unfold bind. rewrite Hr. reflexivity.
    - destruct (Js.eqb text "Deposit"); [|discriminate].
      inversion Hmenu; subst. simpl.
      unfold try_catch, handleDeposit, try_catch, bind at 1. rewrite Haddr.
      unfold bind. rewrite Hr. reflexivity. }
  unfold m'. rewrite Hrun. simpl. repeat split; try assumption.
  apply events_since_app. reflexivity.
Qed.

(** ** The state store *)

Lemma spread_assoc c p q : spread (spread c p) q = spread c (spread p q).
Proof.
  destruct c, p, q. unfold spread. simpl. f_equal;
    match goal with |- over ?x (over ?y ?z) = over (over ?x ?y) ?z =>
      destruct x, y; reflexivity end.
Qed.

(** X19. Updates of one user's state compose as shallow merges: two
    updates in a row are one update with the merged partial state, where a
    property of the later update wins and a property it does not mention
    is kept; and clearing after any update is the same as clearing. *)
Theorem updates_compose uid p q m :
  snd (updateUserState uid q (snd (updateUserState uid p m)))
  = snd (updateUserState uid (spread p q) m)
  /\ fst (getUserState uid (snd (updateUserState uid p m)))
     = Ok (spread (state_of m uid) p)
  /\ snd (clearUserState uid (snd (updateUserState uid p m)))
     = snd (clearUserState uid m)
  /\ fst (getUserState uid (snd (clearUserState uid m))) = Ok empty_state.
Proof.
  repeat split.
  - unfold updateUserState. simpl. rewrite lookup_insert_eq. simpl.
    rewrite insert_insert_eq, spread_assoc. reflexivity.
  - unfold getUserState, updateUserState, state_of. simpl.
    rewrite lookup_insert_eq. reflexivity.
  - unfold clearUserState, updateUserState. simpl.
    rewrite delete_insert_eq. reflexivity.
  - unfold getUserState, clearUserState. simpl. rewrite lookup_delete_eq. reflexivity.
Qed.

(** X20. The address a user is shown is one and the same: after a
    [/start] that resolved the address, ["Deposit"] from a state without a
    flow shows the id of that very address, in backquotes, as the last of
    its three replies, and asks neither the store nor the provider. *)
Theorem deposit_shows_the_start_address w w2 uid m addr m1 :
  replies_delivered w -> replies_delivered w2 ->
  flow_active (state_of m uid) = false ->
  getOrCreateAddress w uid m = (Ok addr, m1) ->
  let ms := snd (on_start w uid m) in
  let md := snd (on_message w2 uid "Deposit" ms) in
  events_since m1 ms = [EvReply (msg_welcome (addr_id addr)) true]
  /\ events_since ms md
     = [EvReply "_Note: As this is a test app, make sure to deposit only small amounts of ETH!_" true;
        EvReply "Please send your ETH to the following address on Base:" true;
        EvReply ("`" ++ addr_id addr ++ "`") true].
Proof.
  intros Hd Hd2 Hflow Haddr ms md.
  destruct (ctx_reply_run w (msg_welcome (addr_id addr)) m1 Hd) as [id Hr].
  assert (Hstart : on_start w uid m = (Ok tt, log (EvReply (msg_welcome (addr_id addr)) true) m1)).
  { unfold on_start, try_catch, bind at 1. rewrite Haddr. unfold bind, ret.
    rewrite Hr. reflexivity. }
  assert (Hcached : address (state_of ms uid) = Some addr).
  { unfold ms. rewrite Hstart. unfold state_of, log. simpl.
    destruct (address (state_of m uid)) as [a|] eqn:Hc.
    - rewrite (getOrCreateAddress_hit w uid m a Hc) in Haddr.
      inversion Haddr; subst. exact Hc.
    - exact (proj1 (getOrCreateAddress_ok w uid m addr m1 Hc Haddr)). }
  assert (Hflow' : flow_active (state_of ms uid) = false).
  { unfold ms. rewrite Hstart.
    assert (Hc : always (getOrCreateAddress w uid) (same_but_address uid)).
    { eapply always_getOrCreateAddress with (okev := fun _ => true)
        (okpatch := address_only); try (intros; reflexivity).
      - intros x; repeat split.
      - intros x y z [(A1 & A2 & A3 & A4) A5] [(B1 & B2 & B3 & B4) B5].
        repeat split; congruence.
      - intros ev x _; repeat split.
      - intros p x Hp. unfold address_only in Hp. apply andb_true_iff in Hp.
        destruct Hp as [Hb Hl]. unfold same_but_address. rewrite state_of_update.
        split; [apply benign_patch_same_flow, Hb|].
        destruct p as [b s stp a ad l]; simpl in *.
        destruct l; [discriminate|reflexivity].
      - intros; repeat split. }
    destruct (Hc _ _ _ Haddr) as [(H1 & H2 & _) _].
    unfold flow_active in *. unfold state_of, log in *. simpl in *.
    rewrite H1, H2. exact Hflow. }
  split.
  { unfold ms. rewrite Hstart. apply events_since_app. reflexivity. }
  assert (Hrun : exists m',
            on_message w2 uid "Deposit" ms = (Ok tt, m')
            /\ trace m' = trace ms ++
               [EvReply "_Note: As this is a test app, make sure to deposit only small amounts of ETH!_" true;
                EvReply "Please send your ETH to the following address on Base:" true;
                EvReply ("`" ++ addr_id addr ++ "`") true]).
  { unfold on_message, bind at 1, getUserState. fold (state_of ms uid).
    unfold route. rewrite Hflow'. simpl.
    unfold try_catch, handleDeposit, try_catch, bind at 1.
    rewrite (getOrCreateAddress_hit w2 uid ms addr Hcached).
    destruct (sendReply_full w2 uid
                "_Note: As this is a test app, make sure to deposit only small amounts of ETH!_"
                ms Hd2) as [i1 H1].
    unfold bind at 1. rewrite H1. set (ma := mkMachine _ _ _).
    destruct (sendReply_full w2 uid
                "Please send your ETH to the following address on Base:" ma Hd2)
      as [i2 H2].
    unfold bind at 1. rewrite H2. set (mb := mkMachine _ _ _).
    destruct (sendReply_full w2 uid ("`" ++ addr_id addr ++ "`") mb Hd2) as [i3 H3].
    unfold bind, ret. rewrite H3. eexists. split; [reflexivity|].
    subst mb ma. simpl. rewrite <- !app_assoc. reflexivity. }
  destruct Hrun as (m' & Hrun & Ht).
  unfold md. rewrite Hrun. apply events_since_app. exact Ht.
Qed.

(** ** The further statements at concrete inputs *)

Import Samples.

Lemma other_users_updates_do_not_interfere_witness :
  userStates (run_updates buy_by_8 demo_amount_machine) !! 7
  = userStates demo_amount_machine !! 7.
Proof.
  apply (other_users_updates_do_not_interfere buy_by_8 7 demo_amount_machine).
  repeat constructor; discriminate.
Defined.

Lemma stored_records_are_never_lost_witness :
  db (run_updates session_of_7 corrupt_machine) !! 7
  = Some (mkDoc "000102030405060708090a0b0c0d0e0f" "00").
Proof.
  apply (stored_records_are_never_lost session_of_7 corrupt_machine 7). reflexivity.
Defined.

Lemma only_amount_step_reaches_trading_witness :
  none_of is_provider_trade_call
    (events_since init_machine
       (snd (handle_update rich_world 7 (TextMessage "Check Balance") init_machine))).
Proof.
  apply (only_amount_step_reaches_trading rich_world 7 (TextMessage "Check Balance")
           init_machine).
  right. reflexivity.
Defined.

Lemma trade_only_after_validation_witness :
  exists text a bal,
    TextMessage "1.0" = TextMessage text
    /\ in_amount_step (state_of demo_amount_machine 7) = true
    /\ asset (state_of demo_amount_machine 7) = Some a
    /\ new_Decimal rich_world text = Ok (DFin 10 (-1))
    /\ getBalance rich_world (mkAddress "0xabc")
         (spend_asset (flow_type (state_of demo_amount_machine 7)) a) = Ok bal
    /\ isNaN (DFin 10 (-1)) = false /\ greaterThan (DFin 10 (-1)) bal = false
    /\ ("eth", "usdc") = tradeType (flow_type (state_of demo_amount_machine 7)) a.
Proof.
  apply (trade_only_after_validation rich_world 7 (TextMessage "1.0") demo_amount_machine
           (mkAddress "0xabc") (DFin 10 (-1)) "eth" "usdc").
  vm_compute. tauto.
Defined.

Lemma only_buy_and_sell_start_a_flow_witness :
  idle (state_of (snd (handle_update rich_world 7 (TextMessage "Help") init_machine)) 7).
Proof.
  apply (only_buy_and_sell_start_a_flow rich_world 7 "Help" init_machine).
  - split; reflexivity.
  - discriminate.
  - discriminate.
Defined.

Lemma conversation_states_stay_well_formed_witness :
  states_well_formed (run_updates (session_of_7 ++ buy_by_8) init_machine).
Proof.
  apply (conversation_states_stay_well_formed (session_of_7 ++ buy_by_8) init_machine).
  intros u st H. simpl in H. rewrite lookup_empty in H. discriminate H.
Defined.

Lemma transport_down_keeps_the_amount_step_witness :
  in_amount_step
    (state_of (snd (handle_update silent_world 7 (TextMessage "1.0") demo_amount_machine)) 7)
  = true.
Proof.
  apply (transport_down_keeps_the_amount_step silent_world 7 "1.0" demo_amount_machine).
  - intros n text. reflexivity.
  - reflexivity.
Defined.

Lemma sell_amount_validation_witness :
  events_since (snd (getOrCreateAddress rich_world 7 demo_sell_machine))
    (snd (on_message rich_world 7 "1.5" demo_sell_machine))
  = [EvGetBalance (mkAddress "0xabc") "pepe"; EvReply (msg_initiating sell) true;
     EvCreateTrade (mkAddress "0xabc") (DFin 15 (-1)) "pepe" Coinbase_assets_Eth]
    ++ after_submission rich_world sell (mkAddress "0xabc") (DFin 15 (-1)) "pepe"
         Coinbase_assets_Eth.
Proof.
  refine (proj1 (proj2
    (sell_amount_validation rich_world 7 "1.5" demo_sell_state "pepe" (DFin 15 (-1))
       (mkAddress "0xabc") demo_sell_machine
       (snd (getOrCreateAddress rich_world 7 demo_sell_machine)) (DFin 20 (-1))
       eq_refl eq_refl eq_refl eq_refl ltac:(discriminate)
       ltac:(intros n text; reflexivity) eq_refl eq_refl eq_refl)) eq_refl).
Defined.

Lemma buy_then_asset_awaits_amount_witness :
  asset (state_of (snd (on_message rich_world 7 "ETH"
                          (snd (on_message rich_world 7 "Buy" init_machine)))) 7)
  = Some "eth".
Proof.
  exact (proj1 (proj2 (proj2 (proj2
    (buy_then_asset_awaits_amount rich_world 7 "ETH" init_machine
       ltac:(intros n text; reflexivity) (conj eq_refl eq_refl)))))).
Defined.

Lemma failed_resolution_changes_nothing_witness :
  userStates (snd (getOrCreateAddress timeout_world 7 demo_amount_machine))
  = userStates demo_amount_machine
  /\ db (snd (getOrCreateAddress timeout_world 7 demo_amount_machine))
     = db demo_amount_machine.
Proof.
  apply (failed_resolution_changes_nothing timeout_world 7 demo_amount_machine
           err_timeout).
  reflexivity.
Defined.

Lemma malformed_key_orphans_a_wallet_witness :
  fst (getOrCreateAddress bad_key_world 7 init_machine) = Throw Codec.err_range
  /\ events_since init_machine (snd (getOrCreateAddress bad_key_world 7 init_machine))
     = [EvDbGet 7; EvWalletCreate].
Proof.
  destruct (malformed_key_orphans_a_wallet bad_key_world 7 init_machine
              "not-a-hex-key" Demo.demo_wallet
              eq_refl eq_refl eq_refl eq_refl eq_refl ltac:(discriminate))
    as (H1 & H2 & _).
  split; [exact H1|exact H2].
Defined.

Lemma first_contact_creates_and_stores_witness :
  exists doc,
    fst (getOrCreateAddress rich_world 7 init_machine) = Ok (mkAddress "0xabc")
    /\ events_since init_machine (snd (getOrCreateAddress rich_world 7 init_machine))
       = [EvDbGet 7; EvWalletCreate; EvDbPut 7 doc].
Proof.
  destruct (first_contact_creates_and_stores rich_world 7 init_machine
              Demo.demo_key Demo.demo_wallet
              eq_refl eq_refl eq_refl eq_refl eq_refl eq_refl eq_refl)
    as (doc & H1 & H2 & _).
  exists doc. split; [exact H1|exact H2].
Defined.

Lemma ciphertext_length_witness :
  length accented_text = 15%nat
  /\ length accented_cipher
     = (32 * (length (utf8_encode accented_text) / 16 + 1))%nat.
Proof.
  split; [reflexivity|].
  apply (ciphertext_length (Some Demo.demo_key) accented_text Demo.demo_iv
           accented_cipher).
  vm_compute. reflexivity.
Defined.

Lemma ciphertext_determines_text_and_iv_witness :
  short_cipher <> public_cipher.
Proof.
  refine (proj1 (ciphertext_determines_text_and_iv (Some Demo.demo_key)
                   "secret" "public" Demo.demo_iv Demo.demo_iv
                   short_cipher public_cipher _ _)
            eq_refl eq_refl eq_refl _).
  - vm_compute. reflexivity.
  - vm_compute. reflexivity.
  - discriminate.
Defined.

Lemma check_balance_reply_witness :
  events_since (snd (getOrCreateAddress rich_world 7 init_machine))
    (snd (on_message rich_world 7 "Check Balance" init_machine))
  = [EvListBalances (mkAddress "0xabc");
     EvReply (msg_balances_header ++ "You have no balances.") true].
Proof.
  refine (proj1
    (check_balance_reply rich_world 7 init_machine (mkAddress "0xabc")
       (snd (getOrCreateAddress rich_world 7 init_machine)) (mkBalanceMap 0 "")
       eq_refl ltac:(intros n text; reflexivity) eq_refl eq_refl) eq_refl).
Defined.

Lemma menu_failure_is_answered_witness :
  fst (on_message timeout_world 7 "Deposit" init_machine) = Ok tt
  /\ events_since (snd (getOrCreateAddress timeout_world 7 init_machine))
       (snd (on_message timeout_world 7 "Deposit" init_machine))
     = [EvReply msg_deposit_error true].
Proof.
  destruct (menu_failure_is_answered timeout_world 7 "Deposit" msg_deposit_error
              init_machine err_timeout
              (snd (getOrCreateAddress timeout_world 7 init_machine))
              eq_refl ltac:(intros n text; reflexivity) eq_refl eq_refl)
    as (H1 & H2 & _).
  split; [exact H1|exact H2].
Defined.

Lemma deposit_shows_the_start_address_witness :
  events_since (snd (on_start rich_world 7 init_machine))
    (snd (on_message rich_world 7 "Deposit" (snd (on_start rich_world 7 init_machine))))
  = [EvReply "_Note: As this is a test app, make sure to deposit only small amounts of ETH!_" true;
     EvReply "Please send your ETH to the following address on Base:" true;
     EvReply "`0xabc`" true].
Proof.
  exact (proj2
    (deposit_shows_the_start_address rich_world rich_world 7 init_machine
       (mkAddress "0xabc") (snd (getOrCreateAddress rich_world 7 init_machine))
       ltac:(intros n text; reflexivity) ltac:(intros n text; reflexivity)
       eq_refl eq_refl)).
Defined.



Lemma active_flow_consumes_every_text_witness :
  (exists id,
     userStates (snd (handle_update rich_world 7 (TextMessage "Check Balance")
                        demo_asset_machine)) !! 7
     = Some (mkUState None (Some true) (Some "amount") (Some "check balance")
               None (Some id)))
  /\ events_since demo_amount_machine
       (snd (handle_update rich_world 7 (TextMessage "Check Balance")
               demo_amount_machine))
     = [EvReply msg_error true].
Proof.
  split.
  - destruct (proj1 (proj2 (active_flow_consumes_every_text rich_world 7 "Check Balance"
                              demo_asset_state demo_asset_machine eq_refl eq_refl))
                ltac:(intros n text; reflexivity) eq_refl eq_refl) as (id & Hst & _).
    exists id. exact Hst.
  - exact (proj2 (proj1 (proj2 (proj2
             (active_flow_consumes_every_text rich_world 7 "Check Balance"
                demo_amount_state demo_amount_machine eq_refl eq_refl)))
             ltac:(intros n text; reflexivity) eq_refl (mkErr "Error" None) eq_refl)).
Defined.

(** C10 as stated fails for the [/start] command.  Sent in the amount
    step, it is not read as the amount: the reply is the welcome text, not
    the error reply a text that is no decimal gets, and the flow goes on. *)
Lemma start_command_is_not_flow_input :
  events_since demo_amount_machine
    (snd (handle_update rich_world 7 StartCommand demo_amount_machine))
  = [EvDbGet 7; EvWalletCreate; EvDbPut 7 stored_doc;
     EvReply (msg_welcome "0xabc") true]
  /\ state_of (snd (handle_update rich_world 7 StartCommand demo_amount_machine)) 7
     = mkUState (Some true) None (Some "amount") (Some "usdc")
         (Some (mkAddress "0xabc")) (Some 1)
  /\ events_since demo_amount_machine
       (snd (handle_update rich_world 7 (TextMessage "start") demo_amount_machine))
     = [EvReply msg_error true].
Proof. repeat split; vm_compute; reflexivity. Qed.

(** C3: a failing input.  User 7 has a record that decrypts and parses,
    and the provider answers the import with a 404.  The lookup found the
    record, yet a wallet is created and a write is attempted; the write is
    refused because the record is there, and the conflict is what leaves
    [getOrCreateAddress]. *)
Lemma provider_not_found_creates_a_wallet :
  db stored_machine !! 7 = Some stored_doc
  /\ fst (load_wallet import_404_world 7 stored_machine) = Throw err_provider_not_found
  /\ fst (getOrCreateAddress import_404_world 7 stored_machine) = Throw err_conflict
  /\ events_since stored_machine
       (snd (getOrCreateAddress import_404_world 7 stored_machine))
     = [EvDbGet 7; EvWalletImport (mkWalletData "wallet-1" "5eed");
        EvWalletCreate; EvDbPut 7 stored_doc]
  /\ db (snd (getOrCreateAddress import_404_world 7 stored_machine)) = db stored_machine.
Proof. repeat split; vm_compute; reflexivity. Qed.
